(** * ArcHive multi-part publishing: splitter, dual hashes, manifest, pipeline

    A shallow embedding of the multi-part module of the archive client
    (content splitter, hash engine, series manifest, posting pipeline and
    resume verifier) together with the properties checked against it.

    JavaScript strings are sequences of UTF-16 code units; they are modelled
    as lists of integers.  Byte sizes are integers, character offsets are
    natural numbers (list indices). *)

From stdpp Require Import base list gmap strings.
From Stdlib Require Import ZArith Lia.

Local Open Scope Z_scope.

(** ** JavaScript strings *)

Module Js.

Abbreviation jsstring := (list Z).

(** Code units of an ASCII literal. *)
Fixpoint lit (s : string) : jsstring :=
  match s with
  | EmptyString => []
  | String c r => Z.of_N (Ascii.N_of_ascii c) :: lit r
  end.

Definition LF : Z := 10.

(** [s.substring(a)] and [s.substring(0, b)]: out-of-range ends are clamped. *)
Definition substringFrom (s : jsstring) (a : nat) : jsstring := drop a s.
Definition substringTo (s : jsstring) (b : nat) : jsstring := take b s.

Definition unit_eqb (a b : Z) : bool := a =? b.

(** [s.startsWith(m)] on code units. *)
Fixpoint startsWith (s m : jsstring) : bool :=
  match m with
  | [] => true
  | c :: m' =>
      match s with
      | [] => false
      | d :: s' => unit_eqb c d && startsWith s' m'
      end
  end.

(** First index [>= base] (counted from [base]) at which [m] occurs in [s]. *)
Fixpoint indexOfFrom (s m : jsstring) (base : nat) : option nat :=
  if startsWith s m then Some base
  else match s with
       | [] => None
       | _ :: s' => indexOfFrom s' m (S base)
       end.

(** [s.indexOf(m, from)]; [None] stands for [-1]. *)
Definition indexOf (s m : jsstring) (from : nat) : option nat :=
  if decide (from <= length s)%nat then indexOfFrom (drop from s) m from
  else if decide (m = []) then Some (length s) else None.

(** [s.includes(m)]. *)
Definition includes (s m : jsstring) : bool :=
  match indexOfFrom s m 0 with Some _ => true | None => false end.

Definition isHighSurrogate (u : Z) : bool := (55296 <=? u) && (u <=? 56319).
Definition isLowSurrogate (u : Z) : bool := (56320 <=? u) && (u <=? 57343).

(** Bytes [TextEncoder] emits for a code unit that is not the first half of a
    well-formed surrogate pair (a lone surrogate becomes U+FFFD, three bytes). *)
Definition utf8UnitBytes (u : Z) : Z :=
  if u <? 128 then 1 else if u <? 2048 then 2 else 3.

(** [new TextEncoder().encode(s).length]. *)
Fixpoint utf8Length (s : jsstring) : Z :=
  match s with
  | [] => 0
  | u :: rest =>
      if isHighSurrogate u then
        match rest with
        | l :: rest' =>
            if isLowSurrogate l then 4 + utf8Length rest'
            else 3 + utf8Length rest
        | [] => 3
        end
      else utf8UnitBytes u + utf8Length rest
  end.

(** White space in the sense of [String.prototype.trim] and of [\s]. *)
Definition isWhiteSpace (u : Z) : bool :=
  ((9 <=? u) && (u <=? 13)) || (u =? 32) || (u =? 160) || (u =? 5760)
  || ((8192 <=? u) && (u <=? 8202)) || (u =? 8232) || (u =? 8233)
  || (u =? 8239) || (u =? 8287) || (u =? 12288) || (u =? 65279).

(** [s.trim().length === 0]. *)
Definition trimIsEmpty (s : jsstring) : bool := forallb isWhiteSpace s.

(** Number of maximal runs of non-white-space units:
    [s.trim().split(/\s+/).filter(w => w.length > 0).length]. *)
Fixpoint countWordsFrom (inWord : bool) (s : jsstring) : Z :=
  match s with
  | [] => 0
  | u :: rest =>
      if isWhiteSpace u then countWordsFrom false rest
      else (if inWord then 0 else 1) + countWordsFrom true rest
  end.

Definition countWords (s : jsstring) : Z := countWordsFrom false s.

(** [s.trim().split(/\s+/).length]: splitting the empty string yields [['']]. *)
Definition splitLength (s : jsstring) : Z :=
  if trimIsEmpty s then 1 else countWords s.

(** *** [Math.ceil(n * 0.03)] in binary64

    [0.03] is the double [0x1.eb851eb851eb8p-6], that is
    [8646911284551352 * 2^-58].  The product with an integer [n] is rounded
    to 53 significant bits, ties to even, and [Math.ceil] is applied. *)

Definition mantissa_003 : Z := 8646911284551352.

(** [round53 p]: the integer [p] rounded to 53 significant bits. *)
Definition round53 (p : Z) : Z :=
  let len := Z.log2 p + 1 in
  if len <=? 53 then p
  else
    let s := len - 53 in
    let q := Z.shiftr p s in
    let r := Z.land p (Z.ones s) in
    let half := Z.shiftl 1 (s - 1) in
    let q' := if (half <? r) || ((r =? half) && Z.odd q) then q + 1 else q in
    Z.shiftl q' s.

Definition ceil_times_003 (n : Z) : Z :=
  (round53 (n * mantissa_003) + Z.ones 58) / 2 ^ 58.

(** *** Values that may be absent

    A property that holds a string, [null], or nothing at all. *)
Inductive jsval :=
| Undefined
| Null
| Str (s : jsstring).

#[global] Instance jsval_eq_dec : EqDecision jsval.
Proof. solve_decision. Defined.

(** Strict equality [a === b]. *)
Definition strictEq (a b : jsval) : bool := bool_decide (a = b).

(** Truthiness: [undefined], [null] and the empty string are falsy. *)
Definition truthy (v : jsval) : bool :=
  match v with
  | Str (_ :: _) => true
  | _ => false
  end.

(** Template-literal interpolation [`${v}`]. *)
Definition interpolate (v : jsval) : jsstring :=
  match v with
  | Undefined => lit "undefined"
  | Null => lit "null"
  | Str s => s
  end.

(** Decimal digits of a non-negative integer, as [String(n)] prints them. *)
Fixpoint decimalDigits (fuel : nat) (n : Z) (acc : jsstring) : jsstring :=
  match fuel with
  | O => acc
  | S fuel' =>
      let acc' := (48 + n mod 10) :: acc in
      if n <? 10 then acc' else decimalDigits fuel' (n / 10) acc'
  end.

Definition numberToString (n : Z) : jsstring :=
  if n <? 0 then 45 :: decimalDigits (Z.to_nat (Z.log2 (- n) + 1)) (- n) []
  else decimalDigits (Z.to_nat (Z.log2 n + 1)) n [].

End Js.

(** ** Size estimator, boundary splitter and content splitter *)

Module Splitter.
Import Js.

Definition HIVE_BODY_LIMIT_BYTES : Z := 64 * 1024.
Definition SAFE_CHUNK_SIZE_BYTES : Z := 58 * 1024.
Definition METADATA_OVERHEAD_BYTES : Z := 2 * 1024.

Inductive Boundary := paragraph | sentence | word | character.

(** [SPLIT_CONFIG] *)
Definition preferredBoundary : Boundary := paragraph.
Definition boundaryFallbacks : list Boundary := [sentence; word; character].
Definition minChunkSizeBytes : Z := 10 * 1024.
Definition paragraphMarkers : list jsstring :=
  [[LF; LF]; lit "</p>"; lit "<br><br>"; lit "<br/><br/>"].
Definition sentenceMarkers : list jsstring :=
  [lit ". "; lit "! "; lit "? "; [46; LF]; [33; LF]; [63; LF]].
Definition wordMarker : jsstring := lit " ".

(** [calculateByteSize]: the empty string is falsy and yields 0. *)
Definition calculateByteSize (content : jsstring) : Z :=
  match content with
  | [] => 0
  | _ => let encoded := utf8Length content in
         let jsonOverhead := ceil_times_003 encoded in
         encoded + jsonOverhead
  end.

Definition needsSplitting (content : jsstring) : bool :=
  SAFE_CHUNK_SIZE_BYTES <? calculateByteSize content.

(** *** [findSplitPosition]

    Every loop returns, next to its result, the number of code units it has
    handed to [TextEncoder.encode] so far (the [work] accumulator). *)

(** The [case 'character'] loop.  [rest] is [content] from [charPos] on. *)
Fixpoint charLoop (len : nat) (rest : jsstring) (charPos : nat)
    (byteCount targetSize work : Z) : nat * Z :=
  match rest with
  | [] => (len, work)
  | u :: rest1 =>
      match rest1 with
      | l :: rest2 =>
          if isHighSurrogate u && isLowSurrogate l then
            (* a code point above U+FFFF: two units, four bytes *)
            if targetSize <? byteCount + 4
            then ((if (0 <? charPos)%nat then charPos else 0%nat), work + 2)
            else charLoop len rest2 (S (S charPos)) (byteCount + 4) targetSize (work + 2)
          else
            if targetSize <? byteCount + utf8UnitBytes u
            then ((if (0 <? charPos)%nat then charPos else 0%nat), work + 1)
            else charLoop len rest1 (S charPos) (byteCount + utf8UnitBytes u)
                   targetSize (work + 1)
      | [] =>
          if targetSize <? byteCount + utf8UnitBytes u
          then ((if (0 <? charPos)%nat then charPos else 0%nat), work + 1)
          else charLoop len rest1 (S charPos) (byteCount + utf8UnitBytes u)
                 targetSize (work + 1)
      end
  end.

(** The [for (const marker of markers)] scan: the earliest marker at or
    after [searchPos]; among markers at the same place the first listed wins. *)
Definition nextMarkerStep (content : jsstring) (searchPos : nat)
    (best : option (nat * jsstring)) (marker : jsstring) : option (nat * jsstring) :=
  match indexOf content marker searchPos with
  | Some pos =>
      match best with
      | None => Some (pos, marker)
      | Some (nextMarkerPos, _) =>
          if (pos <? nextMarkerPos)%nat then Some (pos, marker) else best
      end
  | None => best
  end.

Definition findNextMarker (content : jsstring) (markers : list jsstring)
    (searchPos : nat) : option (nat * jsstring) :=
  foldl (nextMarkerStep content searchPos) None markers.

(** The [while (searchPos < content.length)] loop over boundary markers;
    the result is [(bestSplitPos, searchPos, work)] at loop exit. *)
Fixpoint markerLoop (fuel : nat) (content : jsstring) (len : nat)
    (markers : list jsstring) (targetSize : Z)
    (bestSplitPos searchPos : nat) (work : Z) : nat * nat * Z :=
  match fuel with
  | O => (bestSplitPos, searchPos, work)
  | S fuel' =>
      if (searchPos <? len)%nat then
        match findNextMarker content markers searchPos with
        | None => (bestSplitPos, searchPos, work)
        | Some (nextMarkerPos, nextMarker) =>
            let posAfterMarker := (nextMarkerPos + length nextMarker)%nat in
            let chunk := substringTo content posAfterMarker in
            let chunkSize := calculateByteSize chunk in
            let work' := work + Z.of_nat (length chunk) in
            if chunkSize <=? targetSize
            then markerLoop fuel' content len markers targetSize
                   posAfterMarker posAfterMarker work'
            else (bestSplitPos, searchPos, work')
        end
      else (bestSplitPos, searchPos, work)
  end.

Definition markersOf (boundary : Boundary) : list jsstring :=
  match boundary with
  | paragraph => paragraphMarkers
  | sentence => sentenceMarkers
  | word => [wordMarker]
  | character => []
  end.

(** [findSplitPosition] with its encoder work. *)
Definition findSplitPositionW (content : jsstring) (targetSize : Z)
    (boundary : Boundary) : nat * Z :=
  let len := length content in
  match boundary with
  | character => charLoop len content 0 0 targetSize 0
  | _ =>
      let '(bestSplitPos, searchPos, work) :=
        markerLoop (S len) content len (markersOf boundary) targetSize 0 0 0 in
      ((if (0 <? bestSplitPos)%nat then bestSplitPos else searchPos), work)
  end.

Definition findSplitPosition (content : jsstring) (targetSize : Z)
    (boundary : Boundary) : nat :=
  fst (findSplitPositionW content targetSize boundary).

Definition encoderWork (content : jsstring) (targetSize : Z)
    (boundary : Boundary) : Z :=
  snd (findSplitPositionW content targetSize boundary).

(** *** [splitContentIntoParts] *)

Inductive BoundaryUsed :=
| BNone                     (* 'none' *)
| BKind (b : Boundary)      (* 'paragraph', 'sentence', 'word', 'character' *)
| BForced                   (* 'character (forced)' *)
| BEmergency.               (* 'emergency (no split possible)' *)

Record ContentPart := mkPart {
  partNumber : Z;
  totalParts : Z;
  content : jsstring;
  byteSize : Z;
  wordCount : Z;
  boundary : BoundaryUsed
}.

Inductive SplitError :=
| TooManyParts   (* 'Content too large - exceeded maximum of 100 parts' *)
| LoopBudget.    (* the model's recursion budget ran out; shown unreachable *)

Inductive result (A : Type) := Ok (a : A) | Throw (e : SplitError).
Arguments Ok {A} a.
Arguments Throw {A} e.

Definition usableChunkSize : Z := SAFE_CHUNK_SIZE_BYTES - METADATA_OVERHEAD_BYTES.

Definition boundaryTypes : list Boundary := preferredBoundary :: boundaryFallbacks.

(** The [for (const boundary of boundaryTypes)] loop; it leaves [splitPos]
    at the last position computed and [boundaryUsed] untouched unless it
    breaks. *)
Fixpoint tryBoundaries (types : list Boundary) (remainingContent : jsstring)
    (splitPos : nat) (boundaryUsed : BoundaryUsed) : nat * BoundaryUsed :=
  match types with
  | [] => (splitPos, boundaryUsed)
  | b :: types' =>
      let splitPos' := findSplitPosition remainingContent usableChunkSize b in
      if (0 <? splitPos')%nat then
        let chunk := substringTo remainingContent splitPos' in
        let chunkSize := calculateByteSize chunk in
        if (minChunkSizeBytes <=? chunkSize)
           || trimIsEmpty (substringFrom remainingContent splitPos')
        then (splitPos', BKind b)
        else tryBoundaries types' remainingContent splitPos' boundaryUsed
      else tryBoundaries types' remainingContent splitPos' boundaryUsed
  end.

(** One round of the [while (remainingContent.length > 0)] loop up to the
    choice of the split position. *)
Definition chooseSplit (remainingContent : jsstring) : nat * BoundaryUsed :=
  let '(splitPos, boundaryUsed) :=
    tryBoundaries boundaryTypes remainingContent 0 (BKind character) in
  if (splitPos =? 0)%nat
  then (findSplitPosition remainingContent usableChunkSize character, BForced)
  else (splitPos, boundaryUsed).

(** The main loop, for a part-count limit [limit] (100 in the source). *)
Fixpoint splitLoop (limit : Z) (fuel : nat) (partNumber : Z)
    (parts : list ContentPart) (remainingContent : jsstring)
    : result (list ContentPart) :=
  match fuel with
  | O => match remainingContent with [] => Ok parts | _ => Throw LoopBudget end
  | S fuel' =>
      if (0 <? length remainingContent)%nat then
        let '(splitPos, boundaryUsed) := chooseSplit remainingContent in
        if (splitPos =? 0)%nat then
          Ok (parts ++ [mkPart partNumber 0 remainingContent
                          (calculateByteSize remainingContent)
                          (countWords remainingContent) BEmergency])
        else
          let partContent := substringTo remainingContent splitPos in
          let partSize := calculateByteSize partContent in
          let parts' := parts ++ [mkPart partNumber 0 partContent partSize
                                    (countWords partContent) boundaryUsed] in
          let remainingContent' := substringFrom remainingContent splitPos in
          let partNumber' := partNumber + 1 in
          if limit <? partNumber' then Throw TooManyParts
          else splitLoop limit fuel' partNumber' parts' remainingContent'
      else Ok parts
  end.

Definition setTotalParts (total : Z) (p : ContentPart) : ContentPart :=
  mkPart (partNumber p) total (content p) (byteSize p) (wordCount p) (boundary p).

Definition splitContentIntoPartsWith (limit : Z) (content : jsstring)
    : result (list ContentPart) :=
  if negb (needsSplitting content) then
    Ok [mkPart 1 1 content (calculateByteSize content) (splitLength content) BNone]
  else
    match splitLoop limit (Z.to_nat limit) 1 [] content with
    | Ok parts => Ok (map (setTotalParts (Z.of_nat (length parts))) parts)
    | Throw e => Throw e
    end.

(** [splitContentIntoParts(content)] for a string argument. *)
Definition splitContentIntoParts (content : jsstring) : result (list ContentPart) :=
  splitContentIntoPartsWith 100 content.

(** [parts.map(p => p.content).join('')] *)
Definition joinParts (parts : list ContentPart) : jsstring :=
  concat (map content parts).

End Splitter.

(** ** Dual hash system *)

Module Hashing.
Import Js.

(** *** [stripManifestComment]

    The pattern [/\n*<!--ARCHIVE-MANIFEST:[\s\S]*?-->/g] read on code units:
    a match starting at the head of [s] takes every leading line feed, then
    the opener, then everything up to and including the first closer. *)

Definition manifestOpen : jsstring := lit "<!--ARCHIVE-MANIFEST:".
Definition manifestClose : jsstring := lit "-->".

Fixpoint skipLineFeeds (s : jsstring) : jsstring :=
  match s with
  | u :: rest => if u =? LF then skipLineFeeds rest else s
  | [] => []
  end.

(** The text left after a match anchored at the head of [s], if there is one. *)
Definition matchManifestAt (s : jsstring) : option jsstring :=
  let s1 := skipLineFeeds s in
  if startsWith s1 manifestOpen then
    let inner := drop (length manifestOpen) s1 in
    match indexOfFrom inner manifestClose 0 with
    | Some k => Some (drop (k + length manifestClose) inner)
    | None => None
    end
  else None.

(** [s.replace(pattern, '')]: matches are removed left to right, the scan
    resuming after each removed match. *)
Fixpoint stripLoop (fuel : nat) (s : jsstring) : jsstring :=
  match fuel with
  | O => s
  | S fuel' =>
      match matchManifestAt s with
      | Some rest => stripLoop fuel' rest
      | None =>
          match s with
          | [] => []
          | u :: rest => u :: stripLoop fuel' rest
          end
      end
  end.

Definition stripManifestText (s : jsstring) : jsstring :=
  stripLoop (length s) s.

(** Falsy and non-string arguments are returned as they are. *)
Definition stripManifestComment (content : jsval) : jsval :=
  match content with
  | Str s => if truthy content then Str (stripManifestText s) else content
  | _ => content
  end.

(** [pattern.test(s)]: some suffix of [s] starts with a match. *)
Fixpoint hasManifestComment (s : jsstring) : bool :=
  match matchManifestAt s with
  | Some _ => true
  | None => match s with
            | [] => false
            | _ :: rest => hasManifestComment rest
            end
  end.

(** *** [hashString]

    The three digest functions are supplied by the platform: SHA-256 by Web
    Crypto, BLAKE2b by [blakejs] (which may be absent, or throw), MD5 by the
    [md5] library (whose absence makes [hashString] throw). *)

Record HashEnv := {
  sha256Hex : jsstring -> jsstring;
  blakejs : option (jsstring -> option jsstring);
  md5lib : option (jsstring -> jsstring)
}.

(** [{sha256, blake2b, md5}]; a field a legacy manifest lacks is [Undefined]. *)
Record HashTriple := mkTriple {
  sha256 : jsval;
  blake2b : jsval;
  md5 : jsval
}.

Inductive HashError :=
| Md5NotLoaded        (* 'md5 library not loaded - required for MD5 hashing' *)
| EmptyContentParts.  (* 'hashMultiPartContent requires a non-empty array of content parts' *)

Inductive hresult (A : Type) := HOk (a : A) | HThrow (e : HashError).
Arguments HOk {A} a.
Arguments HThrow {A} e.

Definition hashString (env : HashEnv) (input : jsstring) : hresult HashTriple :=
  let sha := sha256Hex env input in
  let blake :=
    match blakejs env with
    | Some blake2bHex =>
        match blake2bHex input with
        | Some h => Str h
        | None => Null
        end
    | None => Null
    end in
  match md5lib env with
  | None => HThrow Md5NotLoaded
  | Some md5f => HOk (mkTriple (Str sha) blake (Str (md5f input)))
  end.

(** An entry of [partHashes]. *)
Record PartHash := mkPartHash {
  part_number : Z;
  hashes : HashTriple
}.

(** [content_hash_full]: a bare SHA-256 string in legacy manifests. *)
Inductive FullHash :=
| LegacyHash (s : jsstring)
| HashObject (h : HashTriple).

Record MultiPartHashes := mkHashes {
  partHashes : list PartHash;
  fullContentHash : FullHash
}.

(** STEP 1 of [hashMultiPartContent]: the loop over the parts, [i] being the
    index of the head of [contentParts]. *)
Fixpoint hashParts (env : HashEnv) (i : Z) (contentParts : list jsstring)
    : hresult (list PartHash) :=
  match contentParts with
  | [] => HOk []
  | partContent :: rest =>
      match hashString env partContent with
      | HThrow e => HThrow e
      | HOk h =>
          match hashParts env (i + 1) rest with
          | HThrow e => HThrow e
          | HOk hs => HOk (mkPartHash (i + 1) h :: hs)
          end
      end
  end.

Definition hashMultiPartContent (env : HashEnv) (contentParts : list jsstring)
    : hresult MultiPartHashes :=
  match contentParts with
  | [] => HThrow EmptyContentParts
  | _ =>
      match hashParts env 0 contentParts with
      | HThrow e => HThrow e
      | HOk partHashes =>
          let fullContent := concat contentParts in
          match hashString env fullContent with
          | HThrow e => HThrow e
          | HOk fullContentHash => HOk (mkHashes partHashes (HashObject fullContentHash))
          end
      end
  end.

(** *** [verifyMultiPartContent] *)

(** The [matches] object: [sha256] is always compared, the other two only
    when the expected entry has them. *)
Record Matches := mkMatches {
  m_sha256 : bool;
  m_blake2b : option bool;
  m_md5 : option bool
}.

Definition compareTriples (actual expected : HashTriple) : Matches :=
  mkMatches (strictEq (sha256 actual) (sha256 expected))
    (if strictEq (blake2b expected) Undefined then None
     else Some (strictEq (blake2b actual) (blake2b expected)))
    (if strictEq (md5 expected) Undefined then None
     else Some (strictEq (md5 actual) (md5 expected))).

(** [Object.values(matches).every(m => m === true)] *)
Definition allMatch (m : Matches) : bool :=
  m_sha256 m && default true (m_blake2b m) && default true (m_md5 m).

Record PartVerification := mkPartVerification {
  pv_partNumber : Z;
  pv_valid : bool;
  pv_matches : Matches
}.

Inductive VerifyResult :=
| PartCountMismatch (expected actual : nat)
| Verification (valid : bool) (partVerifications : list PartVerification)
    (fullHashMatches : Matches) (allPartsValid fullHashValid : bool).

(** The loop [for (let i = 0; i < actualHashes.partHashes.length; i++)]. *)
Fixpoint verifyParts (i : Z) (actual expected : list PartHash) : list PartVerification :=
  match actual, expected with
  | a :: actual', e :: expected' =>
      let matches := compareTriples (hashes a) (hashes e) in
      mkPartVerification (i + 1) (allMatch matches) matches
        :: verifyParts (i + 1) actual' expected'
  | _, _ => []
  end.

Definition verifyFullHash (actual : FullHash) (expected : FullHash) : Matches * bool :=
  let actualSha := match actual with
                   | HashObject h => sha256 h
                   | LegacyHash _ => Undefined
                   end in
  match expected with
  | LegacyHash s =>
      let m := strictEq actualSha (Str s) in
      (mkMatches m None None, m)
  | HashObject e =>
      let a := match actual with
               | HashObject h => h
               | LegacyHash _ => mkTriple Undefined Undefined Undefined
               end in
      let matches := compareTriples a e in
      (matches, allMatch matches)
  end.

Definition verifyMultiPartContent (env : HashEnv) (contentParts : list jsstring)
    (expectedHashes : MultiPartHashes) : hresult VerifyResult :=
  match hashMultiPartContent env contentParts with
  | HThrow e => HThrow e
  | HOk actualHashes =>
      if negb (length (partHashes actualHashes) =? length (partHashes expectedHashes))%nat
      then HOk (PartCountMismatch (length (partHashes expectedHashes))
                  (length (partHashes actualHashes)))
      else
        let partVerifications :=
          verifyParts 0 (partHashes actualHashes) (partHashes expectedHashes) in
        let '(fullHashMatches, fullHashValid) :=
          verifyFullHash (fullContentHash actualHashes) (fullContentHash expectedHashes) in
        let allPartsValid := forallb pv_valid partVerifications in
        HOk (Verification (allPartsValid && fullHashValid) partVerifications
               fullHashMatches allPartsValid fullHashValid)
  end.

End Hashing.

(** ** Series manifest *)

Module Manifest.
Import Js Hashing.

(** The [status] of a part: a string in the source; [StMissing] stands for
    an absent or empty (falsy) field and [StOther] for any other string. *)
Inductive Status :=
| StMissing
| StPending
| StPosted
| StFailed
| StOther.

#[global] Instance Status_eq_dec : EqDecision Status.
Proof. solve_decision. Defined.

Record PartRecord := mkPartRecord {
  pr_part_number : Z;
  permlink : jsval;
  author : jsval;
  status : Status;
  posted_at : jsval
}.

Record SeriesManifest := mkManifest {
  series_id : jsstring;
  version : jsstring;
  source_url : jsstring;
  title : jsval;
  created_at : jsstring;
  total_parts : Z;
  architecture : jsval;
  root_permlink : jsval;
  content_hash_full : FullHash;
  hash_algorithm : jsstring;
  part_hashes : list PartHash;
  tags : list jsstring;
  parts : list PartRecord;
  boundary_algorithm : jsstring;
  chunk_size_target : Z;
  metadata_overhead_reserved : Z
}.

Definition setParts (m : SeriesManifest) (ps : list PartRecord) : SeriesManifest :=
  mkManifest (series_id m) (version m) (source_url m) (title m) (created_at m)
    (total_parts m) (architecture m) (root_permlink m) (content_hash_full m)
    (hash_algorithm m) (part_hashes m) (tags m) ps (boundary_algorithm m)
    (chunk_size_target m) (metadata_overhead_reserved m).

Definition setRootPermlink (m : SeriesManifest) (p : jsval) : SeriesManifest :=
  mkManifest (series_id m) (version m) (source_url m) (title m) (created_at m)
    (total_parts m) (architecture m) p (content_hash_full m)
    (hash_algorithm m) (part_hashes m) (tags m) (parts m) (boundary_algorithm m)
    (chunk_size_target m) (metadata_overhead_reserved m).

(** The object [compactManifestForPost] serialises. *)
Record CompactManifest := mkCompact {
  c_s : jsstring;
  c_v : jsstring;
  c_t : Z;
  c_p : Z;
  c_h : FullHash;
  c_u : jsstring
}.

(** What the platform provides: [JSON.stringify] on a compact manifest,
    [String.prototype.toLowerCase], the clock ([new Date().toISOString()])
    and [crypto.randomUUID()]. *)
Record Platform := {
  JSON_stringify : CompactManifest -> jsstring;
  toLowerCase : jsstring -> jsstring;
  nowISO : jsstring;
  randomUUID : jsstring
}.

Inductive ManifestError :=
| MissingRequiredFields      (* createManifest: 'Missing required manifest fields' *)
| PartHashCountMismatch      (* createManifest: part hash count differs from totalParts *)
| IncompleteContentHash      (* createManifest: 'contentHashFull must contain sha256, blake2b, and md5' *)
| PartsArrayMismatch         (* createManifest: parts array length differs from totalParts *)
| MissingField (name : string)
| InvalidSeriesId
| InvalidTotalParts
| PartsLengthMismatch
| ContentHashWithoutSha256
| PartHashesCountMismatch
| PartHashMissingFields (index : Z)
| PartHashWrongNumber (index : Z)
| PartMissingNumber (index : Z)
| PartWrongNumber (index : Z)
| PartMissingStatus (index : Z)
| PartInvalidStatus (index : Z)
| PostedWithoutPermlink (index : Z)
| PostedWithoutAuthor (index : Z)
| InvalidArchitecture.

Inductive mresult (A : Type) :=
| MOk (a : A)
| MThrow (e : ManifestError).
Arguments MOk {A} a.
Arguments MThrow {A} e.

(** Outcome of [updateManifestWithPost].  [SparseStore] marks a store past
    the end of [parts], which would leave holes in the array; such arrays
    are not represented. *)
Inductive UpdateResult :=
| Updated (m : SeriesManifest)
| InvalidPartNumber (partNumber : Z)   (* 'Invalid part number: ...' *)
| SparseStore.

(** Outcome of [compactManifestForPost]. *)
Inductive CompactResult :=
| CompactJson (manifestJson : jsstring)
| ManifestTooLarge (size : nat).       (* 'Manifest too large: ... bytes (limit: 16384)' *)

(** *** [createManifest] *)

Record ManifestConfig := mkConfig {
  cfg_sourceUrl : jsval;
  cfg_title : jsval;
  cfg_totalParts : Z;
  cfg_contentHashFull : option FullHash;
  cfg_partHashes : option (list PartHash);
  cfg_tags : list jsstring;
  cfg_seriesId : jsval;
  cfg_author : jsval;
  cfg_parts : option (list PartRecord)
}.

(** [Array.from({ length: totalParts }, (_, i) => ...)] *)
Definition freshParts (totalParts : Z) (author : jsval) : list PartRecord :=
  map (fun i => mkPartRecord (Z.of_nat i + 1) Null author StPending Undefined)
      (seq 0 (Z.to_nat totalParts)).

Definition tripleOf (h : FullHash) : HashTriple :=
  match h with
  | HashObject t => t
  | LegacyHash _ => mkTriple Undefined Undefined Undefined
  end.

Definition fullHashTruthy (h : FullHash) : bool :=
  match h with
  | LegacyHash s => truthy (Str s)
  | HashObject _ => true
  end.

Definition buildManifest (pf : Platform) (config : ManifestConfig)
    (hashFull : FullHash) (hashesOfParts : list PartHash) (ps : list PartRecord)
    : SeriesManifest :=
  mkManifest
    (if truthy (cfg_seriesId config) then interpolate (cfg_seriesId config) else randomUUID pf)
    (lit "1.0")
    (interpolate (cfg_sourceUrl config))
    (cfg_title config)
    (nowISO pf)
    (cfg_totalParts config)
    (Str (lit "threaded_replies"))
    Null
    hashFull
    (lit "SHA-256, BLAKE2b, MD5")
    hashesOfParts
    (cfg_tags config)
    ps
    (lit "paragraph-aware-v1")
    Splitter.SAFE_CHUNK_SIZE_BYTES
    Splitter.METADATA_OVERHEAD_BYTES.

Definition createManifest (pf : Platform) (config : ManifestConfig)
    : mresult SeriesManifest :=
  match cfg_contentHashFull config, cfg_partHashes config with
  | Some hashFull, Some hashesOfParts =>
      if negb (truthy (cfg_sourceUrl config)) || negb (truthy (cfg_title config))
         || (cfg_totalParts config =? 0) || negb (fullHashTruthy hashFull)
      then MThrow MissingRequiredFields
      else if negb (Z.of_nat (length hashesOfParts) =? cfg_totalParts config)
      then MThrow PartHashCountMismatch
      else if negb (truthy (sha256 (tripleOf hashFull)))
              || negb (truthy (blake2b (tripleOf hashFull)))
              || negb (truthy (md5 (tripleOf hashFull)))
      then MThrow IncompleteContentHash
      else
        match cfg_parts config with
        | Some ps =>
            if negb (Z.of_nat (length ps) =? cfg_totalParts config)
            then MThrow PartsArrayMismatch
            else MOk (buildManifest pf config hashFull hashesOfParts ps)
        | None =>
            (* [author = null] in the parameter list: only [undefined] takes
               the default *)
            let author := match cfg_author config with
                          | Undefined => Null
                          | a => a
                          end in
            MOk (buildManifest pf config hashFull hashesOfParts
                   (freshParts (cfg_totalParts config) author))
        end
  | _, _ => MThrow MissingRequiredFields
  end.

(** *** [updateManifestWithPost] *)

Record PostInfo := mkPostInfo {
  pi_permlink : jsval;
  pi_author : jsval
}.

(** [arr[i] = x]: in range it overwrites, at the end it appends, further out
    it would leave holes. *)
Definition arrayStore {A} (arr : list A) (i : nat) (x : A) : option (list A) :=
  if decide (i < length arr)%nat then Some (<[i:=x]> arr)
  else if decide (i = length arr) then Some (arr ++ [x])
  else None.

Definition updateManifestWithPost (pf : Platform) (manifest : SeriesManifest)
    (partNumber : Z) (postInfo : PostInfo) : UpdateResult :=
  let partIndex := partNumber - 1 in
  if (partIndex <? 0) || (total_parts manifest <=? partIndex)
  then InvalidPartNumber partNumber
  else
    match arrayStore (parts manifest) (Z.to_nat partIndex)
            (mkPartRecord partNumber (pi_permlink postInfo) (pi_author postInfo)
               StPosted (Str (nowISO pf))) with
    | Some ps => Updated (setParts manifest ps)
    | None => SparseStore
    end.

(** *** [compactManifestForPost] *)

Definition MANIFEST_SIZE_LIMIT : Z := 16 * 1024.

Definition compactOf (manifest : SeriesManifest) (currentPartNumber : Z) : CompactManifest :=
  mkCompact (series_id manifest) (version manifest) (total_parts manifest)
    currentPartNumber (content_hash_full manifest) (source_url manifest).

Definition compactManifestForPost (pf : Platform) (manifest : SeriesManifest)
    (currentPartNumber : Z) : CompactResult :=
  let manifestJson := JSON_stringify pf (compactOf manifest currentPartNumber) in
  if MANIFEST_SIZE_LIMIT <? Z.of_nat (length manifestJson)
  then ManifestTooLarge (length manifestJson)
  else CompactJson manifestJson.

(** *** [validateManifest] *)

Definition isDigit (u : Z) : bool := (48 <=? u) && (u <=? 57).

Definition isHexDigit (u : Z) : bool :=
  isDigit u || ((97 <=? u) && (u <=? 102)) || ((65 <=? u) && (u <=? 70)).

Definition isHyphen (u : Z) : bool := u =? 45.
Definition isFour (u : Z) : bool := u =? 52.

(** [[89ab]] under the [i] flag. *)
Definition isVariantDigit (u : Z) : bool :=
  (u =? 56) || (u =? 57) || (u =? 97) || (u =? 98) || (u =? 65) || (u =? 66).

(** The classes of
    [/^[0-9a-f]{8}-[0-9a-f]{4}-4[0-9a-f]{3}-[89ab][0-9a-f]{3}-[0-9a-f]{12}$/i]. *)
Definition uuidClasses : list (Z -> bool) :=
  replicate 8 isHexDigit ++ [isHyphen] ++ replicate 4 isHexDigit ++ [isHyphen]
  ++ [isFour] ++ replicate 3 isHexDigit ++ [isHyphen]
  ++ [isVariantDigit] ++ replicate 3 isHexDigit ++ [isHyphen]
  ++ replicate 12 isHexDigit.

Fixpoint matchClasses (classes : list (Z -> bool)) (s : jsstring) : bool :=
  match classes, s with
  | [], [] => true
  | c :: classes', u :: s' => c u && matchClasses classes' s'
  | _, _ => false
  end.

Definition uuidRegexTest (s : jsstring) : bool := matchClasses uuidClasses s.

(** The loop over the [required] field names. *)
Definition checkRequired (m : SeriesManifest) : option ManifestError :=
  if negb (truthy (Str (series_id m))) then Some (MissingField "series_id")
  else if negb (truthy (Str (version m))) then Some (MissingField "version")
  else if total_parts m =? 0 then Some (MissingField "total_parts")
  else if negb (fullHashTruthy (content_hash_full m)) then Some (MissingField "content_hash_full")
  else if negb (truthy (Str (source_url m))) then Some (MissingField "source_url")
  else None.

(** [manifest.part_hashes.forEach((hashEntry, index) => ...)] *)
Fixpoint checkPartHashes (index : Z) (hs : list PartHash) : option ManifestError :=
  match hs with
  | [] => None
  | hashEntry :: rest =>
      if (part_number hashEntry =? 0) || negb (truthy (sha256 (hashes hashEntry)))
      then Some (PartHashMissingFields (index + 1))
      else if negb (part_number hashEntry =? index + 1)
      then Some (PartHashWrongNumber (index + 1))
      else checkPartHashes (index + 1) rest
  end.

Definition statusTruthy (s : Status) : bool :=
  match s with StMissing => false | _ => true end.

Definition validStatus (s : Status) : bool :=
  match s with StPending | StPosted | StFailed => true | _ => false end.

(** [manifest.parts.forEach((part, index) => ...)] *)
Fixpoint checkParts (index : Z) (ps : list PartRecord) : option ManifestError :=
  match ps with
  | [] => None
  | part :: rest =>
      if pr_part_number part =? 0 then Some (PartMissingNumber (index + 1))
      else if negb (pr_part_number part =? index + 1) then Some (PartWrongNumber (index + 1))
      else if negb (statusTruthy (status part)) then Some (PartMissingStatus (index + 1))
      else if negb (validStatus (status part)) then Some (PartInvalidStatus (index + 1))
      else if bool_decide (status part = StPosted) && negb (truthy (permlink part))
      then Some (PostedWithoutPermlink (index + 1))
      else if bool_decide (status part = StPosted) && negb (truthy (author part))
      then Some (PostedWithoutAuthor (index + 1))
      else checkParts (index + 1) rest
  end.

Definition validateManifest (manifest : SeriesManifest) : mresult bool :=
  match checkRequired manifest with
  | Some e => MThrow e
  | None =>
  if negb (uuidRegexTest (series_id manifest)) then MThrow InvalidSeriesId
  else if (total_parts manifest <? 1) || (100 <? total_parts manifest)
  then MThrow InvalidTotalParts
  else if negb (Z.of_nat (length (parts manifest)) =? total_parts manifest)
  then MThrow PartsLengthMismatch
  else if match content_hash_full manifest with
          | LegacyHash _ => false
          | HashObject h => negb (truthy (sha256 h))
          end
  then MThrow ContentHashWithoutSha256
  else if negb (Z.of_nat (length (part_hashes manifest)) =? total_parts manifest)
  then MThrow PartHashesCountMismatch
  else
    match checkPartHashes 0 (part_hashes manifest) with
    | Some e => MThrow e
    | None =>
        match checkParts 0 (parts manifest) with
        | Some e => MThrow e
        | None =>
            if negb (strictEq (architecture manifest) Undefined)
               && negb (strictEq (architecture manifest) (Str (lit "threaded_replies")))
            then MThrow InvalidArchitecture
            else MOk true
        end
    end
  end.

End Manifest.

(** ** Resume verifier *)

Module Verifier.
Import Js Hashing Manifest.

(** What [window.getHiveContent(author, permlink)] does: it throws, resolves
    to nothing, or resolves to a post with a [body]. *)
Inductive Fetched :=
| FetchThrows
| NoPost
| Post (body : jsval).

Definition Fetcher := jsval -> jsval -> Fetched.

Record Results := mkResults {
  verified : list Z;
  failed : list Z;
  missing : list Z;
  totalChecked : Z
}.

Definition pushVerified (r : Results) (n : Z) : Results :=
  mkResults (verified r ++ [n]) (failed r) (missing r) (totalChecked r).
Definition pushFailed (r : Results) (n : Z) : Results :=
  mkResults (verified r) (failed r ++ [n]) (missing r) (totalChecked r).
Definition pushMissing (r : Results) (n : Z) : Results :=
  mkResults (verified r) (failed r) (missing r ++ [n]) (totalChecked r).
Definition countChecked (r : Results) : Results :=
  mkResults (verified r) (failed r) (missing r) (totalChecked r + 1).

(** The body of the [try] block for a part marked as posted. *)
Definition checkPostedPart (env : HashEnv) (getHiveContent : Fetcher)
    (partHashes : option (list PartHash)) (i : nat) (part : PartRecord)
    (results : Results) : Results :=
  let partNumber := pr_part_number part in
  match getHiveContent (author part) (permlink part) with
  | FetchThrows => pushFailed results partNumber
  | NoPost => pushFailed results partNumber
  | Post body =>
      if negb (truthy body) then pushFailed results partNumber
      else
        match partHashes ≫= (fun hs => hs !! i) with
        | Some expectedHash =>
            match hashString env (interpolate body) with
            | HThrow _ => pushFailed results partNumber
            | HOk actualHash =>
                if negb (strictEq (sha256 actualHash) (sha256 (hashes expectedHash)))
                then
                  match sha256 (hashes expectedHash) with
                  | Str _ => pushFailed results partNumber
                  | _ =>
                      (* the warning reads [expectedHash.sha256.substring]:
                         a second failure, caught by the [catch] block *)
                      pushFailed (pushFailed results partNumber) partNumber
                  end
                else pushVerified results partNumber
            end
        | None => pushVerified results partNumber
        end
  end.

(** The loop [for (let i = 0; i < manifest.parts.length; i++)]. *)
Fixpoint verifyLoop (env : HashEnv) (getHiveContent : Fetcher)
    (partHashes : option (list PartHash)) (i : nat) (ps : list PartRecord)
    (results : Results) : Results :=
  match ps with
  | [] => results
  | part :: rest =>
      let results' :=
        if negb (bool_decide (status part = StPosted))
        then pushMissing results (pr_part_number part)
        else checkPostedPart env getHiveContent partHashes i part (countChecked results) in
      verifyLoop env getHiveContent partHashes (S i) rest results'
  end.

(** [verifyCompletedParts(manifest, partHashes)], without a progress callback. *)
Definition verifyCompletedParts (env : HashEnv) (getHiveContent : Fetcher)
    (manifest : SeriesManifest) (partHashes : option (list PartHash)) : Results :=
  verifyLoop env getHiveContent partHashes 0 (parts manifest) (mkResults [] [] [] 0).

End Verifier.

(** ** Posting pipeline *)

Module Pipeline.
Import Js Hashing Manifest.

(** [RETRY_CONFIG] *)
Definition maxAttempts : Z := 3.
Definition backoffDelays : list Z := [1000; 3000; 9000].

Inductive ErrorType := TRANSIENT | PERMANENT | CANCELLED.

Definition isCancelledType (t : ErrorType) : bool :=
  match t with CANCELLED => true | _ => false end.

(** A thrown [Error]: its [name] and [message]. *)
Record JsError := mkError {
  errName : jsstring;
  errMessage : jsstring
}.

(** [Error.prototype.toString] *)
Definition errorToString (e : JsError) : jsstring :=
  match errName e, errMessage e with
  | [], msg => msg
  | name, [] => name
  | name, msg => name ++ lit ": " ++ msg
  end.

Definition classifyError (pf : Platform) (error : JsError) : ErrorType :=
  let errorMessage := toLowerCase pf (errMessage error) in
  let errorString := toLowerCase pf (errorToString error) in
  if includes errorMessage (lit "auth")
     || includes errorMessage (lit "permission")
     || includes errorMessage (lit "unauthorized")
     || includes errorMessage (lit "invalid key")
     || includes errorMessage (lit "posting key")
  then PERMANENT
  else if includes errorMessage (lit "validation")
          || includes errorMessage (lit "invalid")
          || includes errorMessage (lit "missing required")
          || includes errorString (lit "assert")
  then PERMANENT
  else if includes errorMessage (lit "cancel")
          || includes errorMessage (lit "abort")
  then CANCELLED
  else if includes errorMessage (lit "network")
          || includes errorMessage (lit "timeout")
          || includes errorMessage (lit "fetch")
          || includes errorMessage (lit "connection")
          || includes errorMessage (lit "rate limit")
          || includes errorString (lit "networkerror")
  then TRANSIENT
  else TRANSIENT.

(** An entry of [contentParts]: the constructor documents an array of
    strings, the splitter produces part objects. *)
Inductive ContentInput :=
| BareString (s : jsstring)
| PartObject (p : Splitter.ContentPart).

(** [part.content]: a string has no such property. *)
Definition contentOf (part : ContentInput) : jsval :=
  match part with
  | BareString _ => Undefined
  | PartObject p => Str (Splitter.content p)
  end.

Inductive Phase :=
| PREPARING | POSTING | RETRYING | SUCCESS | FAILED | PH_CANCELLED
| COOLDOWN | PAUSED.

Inductive PartStatus :=
| PS_PENDING | PS_IN_PROGRESS | PS_POSTED | PS_FAILED | PS_CANCELLED
| PS_COOLDOWN | PS_PAUSED.

(** [_getStatus()] values. *)
Inductive PipelineStatus :=
| in_progress | paused_status | completed | failed_status | cancelled_status.

(** What the pipeline does to the outside, in order. *)
Inductive Effect :=
| Progress (phase : Phase) (partNumber attempt : Z) (status : PartStatus)
| BackoffSleep (ms : Z)      (* [sleep(delay)] between two attempts *)
| CooldownSleep (ms : Z)     (* [sleep(1000)] of the cooldown countdown *)
| SaveState (status : PipelineStatus) (currentPart : Z)
| ClearState.

Record ErrorEntry := mkErrorEntry {
  ee_partNumber : Z;
  ee_attempt : Z;
  ee_error : jsstring;
  ee_timestamp : jsstring
}.

Record JsonMetadata := mkMetadata {
  md_tags : list jsstring;
  md_app : jsstring;
  md_manifest : SeriesManifest;   (* the snapshot spread into [arcMultiPart] *)
  md_current_part : Z;
  md_part_number : Z
}.

Record PostPayload := mkPayload {
  parent_author : jsstring;
  pl_author : jsstring;
  pl_title : jsstring;
  pl_body : jsstring;
  json_metadata : JsonMetadata;
  pl_permlink : jsstring;
  parent_permlink : jsstring
}.

(** The transport resolves to a result object with a [permlink] (possibly
    to nothing), or rejects. *)
Inductive TransportOutcome :=
| Resolves (postResult : option jsval)
| Rejects (error : JsError).

(** The injected transport: what its [k]-th call (from 0) does with a payload. *)
Definition Transport := nat -> PostPayload -> TransportOutcome.

Record State := mkState {
  manifest : SeriesManifest;
  contentParts : list ContentInput;
  author : jsstring;
  currentPart : Z;
  attempts : gmap Z Z;
  cancelled : bool;
  paused : bool;
  errors : list ErrorEntry;
  rootPermlink : jsval;
  calls : nat;            (* transport invocations so far *)
  trace : list Effect     (* effects so far, oldest first *)
}.

Definition withManifest (st : State) (m : SeriesManifest) : State :=
  mkState m (contentParts st) (author st) (currentPart st) (attempts st)
    (cancelled st) (paused st) (errors st) (rootPermlink st) (calls st) (trace st).
Definition withCurrentPart (st : State) (n : Z) : State :=
  mkState (manifest st) (contentParts st) (author st) n (attempts st)
    (cancelled st) (paused st) (errors st) (rootPermlink st) (calls st) (trace st).
Definition withAttempts (st : State) (a : gmap Z Z) : State :=
  mkState (manifest st) (contentParts st) (author st) (currentPart st) a
    (cancelled st) (paused st) (errors st) (rootPermlink st) (calls st) (trace st).
Definition withFlags (st : State) (c p : bool) : State :=
  mkState (manifest st) (contentParts st) (author st) (currentPart st) (attempts st)
    c p (errors st) (rootPermlink st) (calls st) (trace st).
Definition withErrors (st : State) (es : list ErrorEntry) : State :=
  mkState (manifest st) (contentParts st) (author st) (currentPart st) (attempts st)
    (cancelled st) (paused st) es (rootPermlink st) (calls st) (trace st).
Definition withRootPermlink (st : State) (p : jsval) : State :=
  mkState (manifest st) (contentParts st) (author st) (currentPart st) (attempts st)
    (cancelled st) (paused st) (errors st) p (calls st) (trace st).
Definition withCalls (st : State) (n : nat) : State :=
  mkState (manifest st) (contentParts st) (author st) (currentPart st) (attempts st)
    (cancelled st) (paused st) (errors st) (rootPermlink st) n (trace st).
Definition emit (st : State) (e : Effect) : State :=
  mkState (manifest st) (contentParts st) (author st) (currentPart st) (attempts st)
    (cancelled st) (paused st) (errors st) (rootPermlink st) (calls st) (trace st ++ [e]).

(** *** [_getStatus], [_saveState], [markAsPaused] *)

Definition _getStatus (st : State) : PipelineStatus :=
  if cancelled st then cancelled_status
  else if paused st then paused_status
  else if total_parts (manifest st) <? currentPart st then completed
  else
    match filter (fun p => status p = StFailed) (parts (manifest st)) with
    | firstFailed :: _ =>
        if pr_part_number firstFailed <? currentPart st then failed_status
        else in_progress
    | [] => in_progress
    end.

Definition _saveState (st : State) : State :=
  emit st (SaveState (_getStatus st) (currentPart st)).

Definition markAsPaused (st : State) : State :=
  _saveState (withFlags st (cancelled st) true).

(** *** [pause], [resume], [cancel] *)

Definition pause (st : State) : State :=
  if negb (paused st) then _saveState (withFlags st (cancelled st) true) else st.

Definition resume (st : State) : State :=
  if paused st then _saveState (withFlags st (cancelled st) false) else st.

Definition cancel (st : State) : State :=
  if negb (cancelled st) then _saveState (withFlags st true (paused st)) else st.

(** *** [_generatePostPayload] *)

(** What can be thrown inside the [try] block of [_postPartWithRetry]. *)
Inductive Thrown :=
| TransportRejected (error : JsError)
| ManifestTooLargeError (size : nat)
| RootPermlinkNotSet (partNumber : Z)
| InvalidTransportResult
| InvalidPartNumberError (partNumber : Z).

Definition thrownError (t : Thrown) : JsError :=
  match t with
  | TransportRejected e => e
  | ManifestTooLargeError n =>
      mkError (lit "Error")
        (lit "Manifest too large: " ++ numberToString (Z.of_nat n)
         ++ lit " bytes (limit: " ++ numberToString MANIFEST_SIZE_LIMIT ++ lit ")")
  | RootPermlinkNotSet n =>
      mkError (lit "Error")
        (lit "Part " ++ numberToString n
         ++ lit " requires rootPermlink from Part 1, but it is not set. Cannot post as threaded reply.")
  | InvalidTransportResult =>
      mkError (lit "Error")
        (lit "Transport function returned invalid result (missing permlink)")
  | InvalidPartNumberError n =>
      mkError (lit "Error") (lit "Invalid part number: " ++ numberToString n)
  end.

Definition manifestComment (compactManifest : jsstring) : jsstring :=
  [LF; LF] ++ lit "<!--ARCHIVE-MANIFEST:" ++ compactManifest ++ lit "-->".

Definition partTitle (m : SeriesManifest) (partNumber : Z) : jsstring :=
  let baseTitle := if truthy (title m) then interpolate (title m) else lit "Untitled" in
  baseTitle ++ lit " [Part " ++ numberToString partNumber ++ lit "/"
  ++ numberToString (total_parts m) ++ lit "]".

Definition suggestedPermlink (m : SeriesManifest) (partNumber : Z) : jsstring :=
  substringTo (series_id m) 8 ++ lit "-part-" ++ numberToString partNumber.

Definition rootCategory (m : SeriesManifest) : jsstring :=
  match tags m with
  | t :: _ => if truthy (Str t) then t else lit "archive"
  | [] => lit "archive"
  end.

Definition _generatePostPayload (pf : Platform) (st : State) (partNumber : Z)
    (content : jsval) : Thrown + PostPayload :=
  let m := manifest st in
  match compactManifestForPost pf m partNumber with
  | ManifestTooLarge size => inl (ManifestTooLargeError size)
  | CompactJson compactManifest =>
      let bodyWithManifest := interpolate content ++ manifestComment compactManifest in
      let jsonMetadata := mkMetadata (tags m) (lit "archive/1.0") m partNumber partNumber in
      if partNumber =? 1 then
        inr (mkPayload [] (author st) (partTitle m partNumber) bodyWithManifest
               jsonMetadata (suggestedPermlink m partNumber) (rootCategory m))
      else if negb (truthy (rootPermlink st)) then inl (RootPermlinkNotSet partNumber)
      else
        inr (mkPayload (author st) (author st) (partTitle m partNumber) bodyWithManifest
               jsonMetadata (suggestedPermlink m partNumber)
               (interpolate (rootPermlink st)))
  end.

(** *** [_postPartWithRetry] *)

Definition setPosted (p : PartRecord) : PartRecord :=
  if negb (bool_decide (status p = StPosted))
  then mkPartRecord (pr_part_number p) (permlink p) (Manifest.author p) StPosted (posted_at p)
  else p.

(** The status correction [for (let i = 1; i <= partNumber; i++)]; reading
    past the end of [parts] is a [TypeError] and is not represented. *)
Definition markPostedUpTo (partNumber : Z) (ps : list PartRecord)
    : option (list PartRecord) :=
  let n := Z.to_nat partNumber in
  if decide (n <= length ps)%nat then Some (map setPosted (take n ps) ++ drop n ps)
  else None.

Inductive TryOutcome :=
| TryOk (st : State) (postInfo : PostInfo)
| TryThrows (t : Thrown) (st : State)
| TryUnmodelled.

(** The [try] block of one attempt. *)
Definition tryPost (pf : Platform) (transport : Transport) (st : State)
    (partNumber : Z) (content : jsval) (attempt : Z) : TryOutcome :=
  match _generatePostPayload pf st partNumber content with
  | inl t => TryThrows t st
  | inr postPayload =>
      let st1 := withCalls st (S (calls st)) in
      match transport (calls st) postPayload with
      | Rejects e => TryThrows (TransportRejected e) st1
      | Resolves None => TryThrows InvalidTransportResult st1
      | Resolves (Some resultPermlink) =>
          if negb (truthy resultPermlink) then TryThrows InvalidTransportResult st1
          else
            let postInfo := mkPostInfo resultPermlink (Str (author st1)) in
            match updateManifestWithPost pf (manifest st1) partNumber postInfo with
            | InvalidPartNumber n => TryThrows (InvalidPartNumberError n) st1
            | SparseStore => TryUnmodelled
            | Updated m1 =>
                let st2 := withManifest st1 m1 in
                let st3 :=
                  if partNumber =? 1
                  then withManifest (withRootPermlink st2 resultPermlink)
                         (setRootPermlink m1 resultPermlink)
                  else st2 in
                match markPostedUpTo partNumber (parts (manifest st3)) with
                | None => TryUnmodelled
                | Some ps =>
                    let st4 := withManifest st3 (setParts (manifest st3) ps) in
                    let st5 :=
                      match attempts st4 !! partNumber with
                      | Some a => if a =? 0 then st4
                                  else withAttempts st4 (delete partNumber (attempts st4))
                      | None => st4
                      end in
                    TryOk (emit st5 (Progress POSTING partNumber attempt PS_POSTED)) postInfo
                end
            end
      end
  end.

(** What [_postPartWithRetry] resolves to. *)
Inductive PostOutcome :=
| PostSuccess (postInfo : PostInfo)
| PostFailure (error : jsstring) (pausedFlag : bool).

(** [this.backoffDelays[attempt - 1] || this.backoffDelays[this.backoffDelays.length - 1]] *)
Definition backoffDelay (attempt : Z) : Z :=
  match backoffDelays !! Z.to_nat (attempt - 1) with
  | Some d => if d =? 0 then default 0 (last backoffDelays) else d
  | None => default 0 (last backoffDelays)
  end.

(** The loop [for (let attempt = 1; attempt <= this.maxAttempts; attempt++)];
    [remaining] counts the attempts still allowed, this one included. *)
Fixpoint attemptLoop (pf : Platform) (transport : Transport) (remaining : nat)
    (attempt partNumber : Z) (content : jsval) (st : State)
    : option (PostOutcome * State) :=
  match remaining with
  | O => Some (PostFailure (lit "Max retries exhausted") false, st)
  | S remaining' =>
      if cancelled st then Some (PostFailure (lit "Cancelled by user") false, st)
      else
        let st1 := withAttempts st (<[partNumber := attempt]> (attempts st)) in
        let st2 := emit st1 (Progress (if 1 <? attempt then RETRYING else POSTING)
                               partNumber attempt PS_IN_PROGRESS) in
        match tryPost pf transport st2 partNumber content attempt with
        | TryUnmodelled => None
        | TryOk st' postInfo => Some (PostSuccess postInfo, st')
        | TryThrows t st' =>
            let error := thrownError t in
            let st3 := withErrors st'
                         (errors st' ++ [mkErrorEntry partNumber attempt
                                           (errMessage error) (nowISO pf)]) in
            let errorType := classifyError pf error in
            match errorType with
            | PERMANENT => Some (PostFailure (errMessage error) false, st3)
            | _ =>
                if isCancelledType errorType || cancelled st3
                then Some (PostFailure (lit "Cancelled by user") false, st3)
                else if attempt <? maxAttempts
                then attemptLoop pf transport remaining' (attempt + 1) partNumber content
                       (emit st3 (BackoffSleep (backoffDelay attempt)))
                else
                  let st4 := markAsPaused st3 in
                  let st5 := emit st4 (Progress PAUSED partNumber attempt PS_PAUSED) in
                  Some (PostFailure (errMessage error) true, st5)
            end
        end
  end.

Inductive PostCall :=
| Returned (outcome : PostOutcome) (st : State)
| Raised (st : State)      (* a [TypeError] outside the [try] block *)
| Unmodelled.

(** [if (!this.attempts[partNumber]) this.attempts[partNumber] = 0] *)
Definition initAttempts (st : State) (partNumber : Z) : State :=
  match attempts st !! partNumber with
  | Some a => if a =? 0 then withAttempts st (<[partNumber := 0]> (attempts st)) else st
  | None => withAttempts st (<[partNumber := 0]> (attempts st))
  end.

Definition _postPartWithRetry (pf : Platform) (transport : Transport) (st : State)
    (partNumber : Z) : PostCall :=
  let partIndex := partNumber - 1 in
  match (if partIndex <? 0 then None else contentParts st !! Z.to_nat partIndex) with
  | None => Raised st
  | Some part =>
      let content := contentOf part in
      let st1 := initAttempts st partNumber in
      match attemptLoop pf transport (Z.to_nat maxAttempts) 1 partNumber content st1 with
      | Some (outcome, st') => Returned outcome st'
      | None => Unmodelled
      end
  end.

(** *** [start] *)

Inductive StartResult :=
| StartSuccess (totalParts : Z)
| StartCancelled (lastCompletedPart : Z)
| StartPartFailed (failedPart : Z) (error : jsstring)
| StartThrows
| StartBlocked      (* waiting in the pause loop; nothing resumes it *)
| StartUnmodelled.

Definition attemptsOf (st : State) (partNumber : Z) : Z :=
  default 0 (attempts st !! partNumber).

(** The cooldown countdown. *)
Fixpoint cooldown (remainingSeconds : nat) (st : State) : State :=
  match remainingSeconds with
  | O => st
  | S remaining' =>
      let st1 := emit st (Progress COOLDOWN (currentPart st) 0 PS_COOLDOWN) in
      let st2 := emit st1 (CooldownSleep 1000) in
      if cancelled st2 then st2 else cooldown remaining' st2
  end.

(** The loop [while (this.currentPart <= this.manifest.total_parts)];
    every round raises [currentPart], so [fuel] rounds suffice when [fuel]
    is the number of parts left. *)
Fixpoint startLoop (pf : Platform) (transport : Transport) (fuel : nat) (st : State)
    : StartResult * State :=
  if negb (currentPart st <=? total_parts (manifest st)) then
    let st1 := emit st (Progress SUCCESS (total_parts (manifest st)) 0 PS_POSTED) in
    (StartSuccess (total_parts (manifest st)), emit st1 ClearState)
  else
    match fuel with
    | O => (StartUnmodelled, st)
    | S fuel' =>
        if cancelled st then
          let st1 := emit st (Progress PH_CANCELLED (currentPart st)
                                (attemptsOf st (currentPart st)) PS_CANCELLED) in
          (StartCancelled (currentPart st - 1), _saveState st1)
        else if paused st then (StartBlocked, st)
        else
          match _postPartWithRetry pf transport st (currentPart st) with
          | Unmodelled => (StartUnmodelled, st)
          | Raised st1 =>
              let st2 := emit st1 (Progress FAILED (currentPart st1) 0 PS_FAILED) in
              (StartThrows, _saveState st2)
          | Returned (PostFailure error _) st1 =>
              let st2 := emit st1 (Progress FAILED (currentPart st1)
                                     (attemptsOf st1 (currentPart st1)) PS_FAILED) in
              (StartPartFailed (currentPart st1) error, _saveState st2)
          | Returned (PostSuccess _) st1 =>
              let isLastPart := currentPart st1 =? total_parts (manifest st1) in
              let st2 := if isLastPart then st1 else cooldown 20 st1 in
              if cancelled st2 then
                let st3 := emit st2 (Progress PH_CANCELLED (currentPart st2)
                                       (attemptsOf st2 (currentPart st2)) PS_CANCELLED) in
                (StartCancelled (currentPart st2), _saveState st3)
              else
                startLoop pf transport fuel'
                  (_saveState (withCurrentPart st2 (currentPart st2 + 1)))
          end
    end.

Definition start (pf : Platform) (transport : Transport) (st : State)
    : StartResult * State :=
  let st1 := withFlags st false false in
  let st2 := emit st1 (Progress PREPARING (currentPart st1) 0 PS_PENDING) in
  startLoop pf transport
    (Z.to_nat (total_parts (manifest st2) - currentPart st2 + 1)) st2.

(** *** The constructor *)

Inductive ConstructError :=
| ManifestRequired
| ContentPartsNotArray
| ContentPartsCountMismatch
| AuthorRequired
| InvalidManifest (e : ManifestError).

Definition construct (manifest : option SeriesManifest)
    (contentParts : option (list ContentInput)) (author : jsval)
    : ConstructError + State :=
  match manifest with
  | None => inl ManifestRequired
  | Some m =>
      match contentParts with
      | None => inl ContentPartsNotArray
      | Some cps =>
          if negb (Z.of_nat (length cps) =? total_parts m)
          then inl ContentPartsCountMismatch
          else if negb (truthy author) then inl AuthorRequired
          else
            match validateManifest m with
            | MThrow e => inl (InvalidManifest e)
            | MOk _ =>
                inr (mkState m cps (interpolate author) 1 ∅ false false [] Null 0 [])
            end
      end
  end.

(** *** [getState] and [restoreState] *)

Record StateView := mkView {
  v_currentPart : Z;
  v_totalParts : Z;
  v_attempts : gmap Z Z;
  v_cancelled : bool;
  v_paused : bool;
  v_errors : list ErrorEntry;
  postedParts : nat;
  pendingParts : nat;
  failedParts : nat
}.

Definition countStatus (s : Status) (ps : list PartRecord) : nat :=
  length (filter (fun p => status p = s) ps).

Definition getState (st : State) : StateView :=
  mkView (currentPart st) (total_parts (manifest st)) (attempts st)
    (cancelled st) (paused st) (errors st)
    (countStatus StPosted (parts (manifest st)))
    (countStatus StPending (parts (manifest st)))
    (countStatus StFailed (parts (manifest st))).

(** A saved state object; an absent field is [None]. *)
Record SavedState := mkSaved {
  sv_manifest : option SeriesManifest;
  sv_currentPart : option Z;
  sv_attempts : option (gmap Z Z);
  sv_cancelled : option bool;
  sv_paused : option bool;
  sv_errors : option (list ErrorEntry);
  sv_rootPermlink : jsval
}.

Definition restoreState (st : State) (state : SavedState) : State :=
  mkState
    (default (manifest st) (sv_manifest state))
    (contentParts st)
    (author st)
    (match sv_currentPart state with
     | Some n => if n =? 0 then 1 else n
     | None => 1
     end)
    (default ∅ (sv_attempts state))
    (default false (sv_cancelled state))
    (default false (sv_paused state))
    (default [] (sv_errors state))
    (if truthy (sv_rootPermlink state) then sv_rootPermlink state else Null)
    (calls st)
    (trace st).

End Pipeline.

(** ** Sample data

    Concrete platforms, manifests and transports on which the theorems below
    are instantiated. *)

Module Samples.
Import Js Hashing Manifest Pipeline.

(** Digest stand-ins that tag their input, so distinct inputs give
    distinct digests. *)
Definition sampleEnv : HashEnv :=
  {| sha256Hex := fun s => lit "sha256:" ++ s;
     blakejs := Some (fun s => Some (lit "blake2b:" ++ s));
     md5lib := Some (fun s => lit "md5:" ++ s) |}.

Definition asciiLower (u : Z) : Z :=
  if (65 <=? u) && (u <=? 90) then u + 32 else u.

Definition quoted (s : jsstring) : jsstring := 34 :: s ++ [34].

Definition hashJson (h : FullHash) : jsstring :=
  match h with
  | LegacyHash s => quoted s
  | HashObject t =>
      lit "{" ++ quoted (lit "sha256") ++ lit ":" ++ quoted (interpolate (sha256 t))
      ++ lit "}"
  end.

(** A serialiser for compact manifests whose strings need no escaping. *)
Definition sampleStringify (c : CompactManifest) : jsstring :=
  lit "{" ++ quoted (lit "s") ++ lit ":" ++ quoted (c_s c)
  ++ lit "," ++ quoted (lit "v") ++ lit ":" ++ quoted (c_v c)
  ++ lit "," ++ quoted (lit "t") ++ lit ":" ++ numberToString (c_t c)
  ++ lit "," ++ quoted (lit "p") ++ lit ":" ++ numberToString (c_p c)
  ++ lit "," ++ quoted (lit "h") ++ lit ":" ++ hashJson (c_h c)
  ++ lit "," ++ quoted (lit "u") ++ lit ":" ++ quoted (c_u c) ++ lit "}".

Definition samplePlatform : Platform :=
  {| JSON_stringify := sampleStringify;
     toLowerCase := map asciiLower;
     nowISO := lit "2025-01-01T00:00:00.000Z";
     randomUUID := lit "123e4567-e89b-42d3-a456-426614174000" |}.

Definition sampleTexts : list jsstring :=
  [lit "First part. "; lit "Second part. "; lit "Third part."].

Definition sampleHashes : MultiPartHashes :=
  match hashMultiPartContent sampleEnv sampleTexts with
  | HOk h => h
  | HThrow _ => mkHashes [] (LegacyHash [])
  end.

Definition sampleConfig : ManifestConfig :=
  mkConfig (Str (lit "https://example.org/article")) (Str (lit "An article")) 3
    (Some (fullContentHash sampleHashes)) (Some (Hashing.partHashes sampleHashes))
    [lit "archive"; lit "news"] Undefined (Str (lit "alice")) None.

Definition sampleManifest : SeriesManifest :=
  match createManifest samplePlatform sampleConfig with
  | MOk m => m
  | MThrow _ =>
      mkManifest [] [] [] Undefined [] 0 Undefined Undefined (LegacyHash []) [] [] [] []
        [] 0 0
  end.

Definition samplePart (n : Z) (text : jsstring) : Splitter.ContentPart :=
  Splitter.mkPart n 3 text (Splitter.calculateByteSize text) (countWords text)
    (Splitter.BKind Splitter.paragraph).

Definition sampleParts : list ContentInput :=
  [PartObject (samplePart 1 (lit "First part. "));
   PartObject (samplePart 2 (lit "Second part. "));
   PartObject (samplePart 3 (lit "Third part."))].

Definition sampleState : State :=
  match construct (Some sampleManifest) (Some sampleParts) (Str (lit "alice")) with
  | inr st => st
  | inl _ => mkState sampleManifest [] [] 0 ∅ false false [] Null 0 []
  end.

Definition timeoutError : JsError := mkError (lit "Error") (lit "Request timeout").
Definition authError : JsError :=
  mkError (lit "Error") (lit "Missing posting authority").

(** Succeeds on the first two calls, times out afterwards. *)
Definition flakyTransport : Transport :=
  fun k _ =>
    if (k <? 2)%nat then Resolves (Some (Str (lit "permlink-" ++ numberToString (Z.of_nat k))))
    else Rejects timeoutError.

(** Succeeds on the first call, resolves without permlink afterwards. *)
Definition silentTransport : Transport :=
  fun k _ =>
    if (k <? 1)%nat then Resolves (Some (Str (lit "permlink-0")))
    else Resolves (Some Undefined).

(** A manifest whose two parts are still pending, and a saved state that
    claims the first part is done. *)
Definition pendingConfig : ManifestConfig :=
  mkConfig (Str (lit "https://example.org/article")) (Str (lit "An article")) 2
    (Some (fullContentHash sampleHashes))
    (Some (take 2 (Hashing.partHashes sampleHashes)))
    [lit "archive"] Undefined (Str (lit "alice")) None.

Definition pendingManifest : SeriesManifest :=
  match createManifest samplePlatform pendingConfig with
  | MOk m => m
  | MThrow _ => sampleManifest
  end.

Definition pendingState : State :=
  match construct (Some pendingManifest) (Some (take 2 sampleParts)) (Str (lit "alice")) with
  | inr st => st
  | inl _ => sampleState
  end.

Definition staleSavedState : SavedState :=
  mkSaved None (Some 2) None None None None (Str (lit "permlink-0")).

Definition alwaysSucceeds : Transport :=
  fun k _ => Resolves (Some (Str (lit "permlink-" ++ numberToString (Z.of_nat k)))).

(** Resolves with the body it was handed as permlink, so the manifest
    records what reached the transport. *)
Definition bodyEcho : Transport :=
  fun _ payload => Resolves (Some (Str (pl_body payload))).


(** Texts for the splitter. *)
Definition chunkUnits : nat := Z.to_nat Splitter.usableChunkSize.

(** 19221 three-byte characters: just above the single-part limit. *)
Definition sampleLong : jsstring := replicate (Z.to_nat 19221) 19968.

(** One hundred full chunks of the letter [a]. *)
Definition hundredChunks : jsstring := replicate (100 * chunkUnits) 97.

(** A text with two manifest comments. *)
Definition twoComments : jsstring :=
  lit "a<!--ARCHIVE-MANIFEST:1-->b" ++ [LF; LF] ++ lit "<!--ARCHIVE-MANIFEST:2-->c".

(** A manifest comment interrupted by another one. *)
Definition nestedMarker : jsstring :=
  lit "<!--ARCHIVE-<!--ARCHIVE-MANIFEST:x-->MANIFEST:y-->".

End Samples.

(** ** Predicates used in the statements *)

Module Predicates.
Import Js Splitter Hashing Manifest Pipeline.

(** Parts numbered consecutively from [first]. *)
Definition numbered (first : Z) (ps : list ContentPart) : Prop :=
  forall i p, ps !! i = Some p -> partNumber p = first + Z.of_nat i.

(** No marker of the list starts with the unit [a]. *)
Definition headsDiffer (a : Z) (markers : list jsstring) : Prop :=
  Forall (fun m => match m with c :: _ => a <> c | [] => False end) markers.

(** A unit no boundary marker starts with. *)
Definition plainUnit (a : Z) : Prop :=
  a <> 10 /\ a <> 60 /\ a <> 46 /\ a <> 33 /\ a <> 63 /\ a <> 32.

(** The first [i] units of the comment opener stand at the head of [s],
    directly in front of a complete manifest comment (with the line feeds
    that belong to it). *)
Definition commentAfter (i : nat) (s : jsstring) : bool :=
  startsWith s (take i manifestOpen)
  && match matchManifestAt (drop i s) with
     | Some _ => true
     | None => false
     end.

(** Somewhere in [s] a manifest comment stands directly behind a proper,
    non-empty beginning of the comment opener: removing the comment can
    bring the two halves of an opener together. *)
Fixpoint hasSplitOpener (s : jsstring) : bool :=
  existsb (fun i => commentAfter i s) (seq 1 (length manifestOpen - 1))
  || match s with
     | [] => false
     | _ :: rest => hasSplitOpener rest
     end.

(** A value in which no opener is split by a comment. *)
Definition unsplitValue (v : jsval) : Prop :=
  match v with
  | Str s => hasSplitOpener s = false
  | _ => True
  end.

(** The transport rejects its [k]-th call with [e], whatever the payload. *)
Definition rejectsAt (transport : Transport) (k : nat) (e : JsError) : Prop :=
  forall payload, transport k payload = Rejects e.

(** The [k]-th call of the transport makes the attempt throw [t]: it
    rejects, or it resolves to a result without permlink. *)
Definition throwsAt (transport : Transport) (k : nat) (t : Thrown) : Prop :=
  forall payload,
    match transport k payload with
    | Rejects e => t = TransportRejected e
    | Resolves None => t = InvalidTransportResult
    | Resolves (Some resultPermlink) =>
        truthy resultPermlink = false /\ t = InvalidTransportResult
    end.

(** The calls a user interface makes on a pipeline. *)
Inductive Control := DoPause | DoResume | DoCancel.

Definition applyControl (st : State) (c : Control) : State :=
  match c with
  | DoPause => pause st
  | DoResume => resume st
  | DoCancel => cancel st
  end.

(** The message of the error thrown for a transport result without permlink. *)
Definition invalidResultMessage : jsstring :=
  errMessage (thrownError InvalidTransportResult).

(** The transport resolves its [k]-th call with the permlink [p]. *)
Definition resolvesAt (transport : Transport) (k : nat) (p : jsstring) : Prop :=
  forall payload, transport k payload = Resolves (Some (Str p)).

(** The delays slept between attempts, in order. *)
Definition backoffs (tr : list Effect) : list Z :=
  omap (fun e => match e with BackoffSleep ms => Some ms | _ => None end) tr.

(** The progress notifications, in order. *)
Definition phases (tr : list Effect) : list (Phase * Z * Z) :=
  omap (fun e => match e with
                 | Progress ph n a _ => Some (ph, n, a)
                 | _ => None
                 end) tr.

(** The text ends with one of the markers. *)
Definition endsWithMarker (markers : list jsstring) (s : jsstring) : Prop :=
  exists marker pre, marker ∈ markers /\ s = pre ++ marker.

(** What [hashString] returns for [input] when the MD5 library is [md5f]. *)
Definition digestOf (env : HashEnv) (md5f : jsstring -> jsstring)
    (input : jsstring) : HashTriple :=
  mkTriple (Str (sha256Hex env input))
    match blakejs env with
    | Some blake2bHex =>
        match blake2bHex input with
        | Some h => Str h
        | None => Null
        end
    | None => Null
    end
    (Str (md5f input)).

(** A part is not empty, encodes within the usable chunk size and records
    the byte size of its content. *)
Definition partFits (p : ContentPart) : Prop :=
  content p <> [] /\
  utf8Length (content p) <= usableChunkSize /\
  byteSize p = calculateByteSize (content p).

(** Fetching the part throws, finds no post, or finds one without a body. *)
Definition unreachable (fetch : Verifier.Fetcher) (p : PartRecord) : Prop :=
  match fetch (Manifest.author p) (permlink p) with
  | Verifier.Post body => truthy body = false
  | _ => True
  end.

(** A posted part carries both of its locator fields. *)
Definition partInvariant (p : PartRecord) : Prop :=
  status p = StPosted ->
  truthy (permlink p) = true /\ truthy (Manifest.author p) = true.

Definition manifestInvariant (m : SeriesManifest) : Prop :=
  Forall partInvariant (parts m).

(** The first [k] parts are posted and carry their locators. *)
Definition postedUpTo (k : nat) (ps : list PartRecord) : Prop :=
  forall i p, (i < k)%nat -> ps !! i = Some p ->
    status p = StPosted /\ truthy (permlink p) = true
    /\ truthy (Manifest.author p) = true.

(** The compact manifest of every part of [m] fits the embedding limit. *)
Definition compactFits (pf : Platform) (m : SeriesManifest) : Prop :=
  forall n, 1 <= n <= total_parts m ->
    Z.of_nat (length (JSON_stringify pf (compactOf m n))) <= MANIFEST_SIZE_LIMIT.

(** [st] with [evs] appended to its trace. *)
Definition appendTrace (st : State) (evs : list Effect) : State :=
  mkState (manifest st) (contentParts st) (Pipeline.author st) (currentPart st)
    (attempts st) (cancelled st) (paused st) (errors st) (rootPermlink st)
    (calls st) (trace st ++ evs).

(** The state after attempt [a] on part [n] was rejected with [e]: the
    attempt is counted, announced, made and logged. *)
Definition rejectedState (pf : Platform) (st : State) (n a : Z) (e : JsError) : State :=
  withErrors
    (withCalls
       (emit (withAttempts st (<[n := a]> (attempts st)))
          (Progress (if 1 <? a then RETRYING else POSTING) n a PS_IN_PROGRESS))
       (S (calls st)))
    (errors st ++ [mkErrorEntry n a (errMessage e) (nowISO pf)]).

(** The state after attempt [a] on part [n] went through with permlink [p]. *)
Definition postedState (pf : Platform) (st : State) (n a : Z) (p : jsstring) : State :=
  let record := mkPartRecord n (Str p) (Str (Pipeline.author st)) StPosted
                  (Str (nowISO pf)) in
  let ps := <[Z.to_nat (n - 1) := record]> (parts (manifest st)) in
  let ps' := map setPosted (take (Z.to_nat n) ps) ++ drop (Z.to_nat n) ps in
  let m1 := setParts (manifest st) ps in
  let m2 := if n =? 1 then setRootPermlink m1 (Str p) else m1 in
  mkState (setParts m2 ps') (contentParts st) (Pipeline.author st) (currentPart st)
    (delete n (<[n := a]> (attempts st))) (cancelled st) (paused st) (errors st)
    (if n =? 1 then Str p else rootPermlink st) (S (calls st))
    ((trace st ++ [Progress (if 1 <? a then RETRYING else POSTING) n a PS_IN_PROGRESS])
     ++ [Progress POSTING n a PS_POSTED]).

(** The pipeline stands at the head of its loop, about to post part [k] of
    a run in which every earlier part went through. *)
Record atPart (pf : Platform) (st : State) (k : Z) : Prop := {
  at_current : currentPart st = k;
  at_first : 1 <= k;
  at_cancelled : cancelled st = false;
  at_paused : paused st = false;
  at_parts : Z.of_nat (length (parts (manifest st))) = total_parts (manifest st);
  at_contents : Z.of_nat (length (contentParts st)) = total_parts (manifest st);
  at_posted : postedUpTo (Z.to_nat (k - 1)) (parts (manifest st));
  at_root : 1 < k -> truthy (rootPermlink st) = true;
  at_author : truthy (Str (Pipeline.author st)) = true;
  at_fits : compactFits pf (manifest st);
  at_backoffs : backoffs (trace st) = [];
  at_calls : Z.of_nat (calls st) = k - 1
}.

(** The state in which [start] enters its loop. *)
Definition entered (st : State) : State :=
  emit (withFlags st false false) (Progress PREPARING (currentPart st) 0 PS_PENDING).

(** One round of the loop of [start] in which the current part is posted
    and the loop goes on: the state at the head of the next round. *)
Definition postedRound (pf : Platform) (transport : Transport) (st : State)
    : option State :=
  if negb (currentPart st <=? total_parts (manifest st)) then None
  else if cancelled st then None
  else if paused st then None
  else
    match _postPartWithRetry pf transport st (currentPart st) with
    | Returned (PostSuccess _) st1 =>
        let isLastPart := currentPart st1 =? total_parts (manifest st1) in
        let st2 := if isLastPart then st1 else cooldown 20 st1 in
        if cancelled st2 then None
        else Some (_saveState (withCurrentPart st2 (currentPart st2 + 1)))
    | _ => None
    end.

Fixpoint afterRounds (pf : Platform) (transport : Transport) (rounds : nat)
    (st : State) : option State :=
  match rounds with
  | O => Some st
  | S rounds' =>
      match postedRound pf transport st with
      | Some st' => afterRounds pf transport rounds' st'
      | None => None
      end
  end.

(** A run of [start] on [st0] stands at the head of its loop in state [st],
    after some rounds that posted their part, at whichever attempt. *)
Definition reaches (pf : Platform) (transport : Transport) (st0 st : State) : Prop :=
  exists rounds, afterRounds pf transport rounds (entered st0) = Some st.

(** What a pipeline is when [start] is called on it after construction, or
    again after a run that stopped: a record and a content entry for every
    part, the parts before the current one posted with their locators, and
    the root permlink known once part 1 is behind. *)
Record wellStarted (st : State) : Prop := {
  ws_first : 1 <= currentPart st;
  ws_parts : Z.of_nat (length (parts (manifest st))) = total_parts (manifest st);
  ws_contents : Z.of_nat (length (contentParts st)) = total_parts (manifest st);
  ws_posted : postedUpTo (Z.to_nat (currentPart st - 1)) (parts (manifest st));
  ws_root : 1 < currentPart st -> truthy (rootPermlink st) = true;
  ws_author : Pipeline.author st <> []
}.



End Predicates.

(** * Sample runs *)

Module SampleRuns.
Import Js Manifest Pipeline Samples Predicates.

(** Posts part 1 at once and part 2 at the second attempt, then times out. *)
Definition bumpyTransport : Transport :=
  fun k _ =>
    match k with
    | 0%nat => Resolves (Some (Str (lit "permlink-0")))
    | 2%nat => Resolves (Some (Str (lit "permlink-2")))
    | _ => Rejects timeoutError
    end.

(** The run of [bumpyTransport] at the head of the round for part 3. *)
Definition bumpyAtThree : State :=
  default sampleState
    (afterRounds samplePlatform bumpyTransport 2 (entered sampleState)).

(** Is refused once, on part 2, and succeeds otherwise. *)
Definition refusedOnce : Transport :=
  fun k _ =>
    match k with
    | 1%nat => Rejects authError
    | _ => Resolves (Some (Str (lit "permlink-" ++ numberToString (Z.of_nat k))))
    end.


End SampleRuns.

(** * Properties *)

(** ** Splitter *)

Module SplitterFacts.
Import Js Splitter Samples Predicates.

Lemma round53_le_double p : 0 <= p -> 0 <= round53 p <= 2 * p.
Proof.
  intros Hp. unfold round53.
  destruct (Z.log2 p + 1 <=? 53) eqn:E; [lia|].
  apply Z.leb_gt in E.
  assert (Hpos : 0 < p).
  { destruct (Z.eq_dec p 0) as [->|]; [simpl in E; lia | lia]. }
  set (s := Z.log2 p + 1 - 53) in *.
  assert (Hs : 0 < s) by (unfold s; lia).
  rewrite Z.shiftl_mul_pow2 by lia.
  rewrite Z.shiftr_div_pow2 by lia.
  assert (H2s : 0 < 2 ^ s) by (apply Z.pow_pos_nonneg; lia).
  assert (Hq : 2 ^ s * (p / 2 ^ s) <= p) by (apply Z.mul_div_le; lia).
  assert (Hq0 : 0 <= p / 2 ^ s) by (apply Z.div_pos; lia).
  assert (Hle : 2 ^ s <= p).
  { transitivity (2 ^ Z.log2 p).
    - apply Z.pow_le_mono_r; unfold s; lia.
    - apply Z.log2_spec; lia. }
  destruct ((_ <? _) || _); nia.
Qed.

Lemma ceil_times_003_bounds n : 0 <= n -> 0 <= ceil_times_003 n <= n.
Proof.
  intros Hn. unfold ceil_times_003.
  pose proof (round53_le_double (n * mantissa_003)) as H.
  assert (0 <= n * mantissa_003) by (unfold mantissa_003; lia).
  specialize (H ltac:(assumption)).
  rewrite Z.ones_equiv.
  split.
  - apply Z.div_pos; [|reflexivity]. change (2^58) with 288230376151711744. lia.
  - apply Z.lt_succ_r. apply Z.div_lt_upper_bound; [reflexivity|].
    change (2^58) with 288230376151711744. unfold mantissa_003 in *. lia.
Qed.

(** C1 *)
Lemma joinParts_app ps qs : joinParts (ps ++ qs) = joinParts ps ++ joinParts qs.
Proof. unfold joinParts. by rewrite map_app, concat_app. Qed.

Lemma joinParts_setTotalParts t ps : joinParts (map (setTotalParts t) ps) = joinParts ps.
Proof. unfold joinParts. rewrite map_map. reflexivity. Qed.

Lemma splitLoop_join limit fuel : forall p parts rem res,
  splitLoop limit fuel p parts rem = Ok res ->
  joinParts res = joinParts parts ++ rem.
Proof.
  induction fuel as [|fuel IH]; intros p parts rem res; simpl.
  - destruct rem; [|discriminate]. intros [= <-]. by rewrite app_nil_r.
  - destruct (0 <? length rem)%nat eqn:Hlen.
    + destruct (chooseSplit rem) as [splitPos boundaryUsed].
      destruct (splitPos =? 0)%nat.
      * intros [= <-]. rewrite joinParts_app. unfold joinParts at 2. simpl.
        by rewrite app_nil_r.
      * destruct (limit <? p + 1); [discriminate|].
        intros H. apply IH in H. rewrite H, joinParts_app.
        unfold joinParts at 2. simpl. rewrite app_nil_r, <- app_assoc.
        unfold substringTo, substringFrom. by rewrite take_drop.
    + apply Nat.ltb_ge in Hlen. destruct rem; [|simpl in Hlen; lia].
      intros [= <-]. by rewrite app_nil_r.
Qed.

Lemma numbered_snoc first ps p :
  numbered first ps -> partNumber p = first + Z.of_nat (length ps) ->
  numbered first (ps ++ [p]).
Proof.
  intros H Hp i q Hi. destruct (decide (i < length ps)%nat).
  - rewrite lookup_app_l in Hi by done. eauto.
  - rewrite lookup_app_r in Hi by lia.
    destruct (i - length ps)%nat eqn:E; simpl in Hi; [|by destruct n0].
    injection Hi as <-. rewrite Hp. f_equal. lia.
Qed.

Lemma splitLoop_numbered limit fuel : forall p parts rem res,
  splitLoop limit fuel p parts rem = Ok res ->
  numbered 1 parts -> p = 1 + Z.of_nat (length parts) ->
  numbered 1 res.
Proof.
  induction fuel as [|fuel IH]; intros p parts rem res; simpl.
  - destruct rem; [|discriminate]. by intros [= <-].
  - destruct (0 <? length rem)%nat.
    + destruct (chooseSplit rem) as [splitPos boundaryUsed].
      destruct (splitPos =? 0)%nat.
      * intros [= <-] Hn Hp. by apply numbered_snoc.
      * destruct (limit <? p + 1); [discriminate|].
        intros H Hn Hp. eapply IH; [exact H| |].
        -- by apply numbered_snoc.
        -- rewrite length_app. simpl. lia.
    + by intros [= <-].
Qed.

(** The loop never runs out of rounds: a round that would start with a part
    number above the limit is cut off by the safety check before. *)
Lemma splitLoop_budget limit fuel : forall p parts rem,
  p <= limit -> limit < p + Z.of_nat fuel ->
  splitLoop limit fuel p parts rem <> Throw LoopBudget.
Proof.
  induction fuel as [|fuel IH]; intros p parts rem Hp Hf; [lia|].
  cbn [splitLoop].
  destruct (0 <? length rem)%nat; [|discriminate].
  destruct (chooseSplit rem) as [splitPos boundaryUsed].
  destruct (splitPos =? 0)%nat; [discriminate|].
  destruct (Z.ltb_spec limit (p + 1)); [discriminate|].
  apply IH; lia.
Qed.

Lemma splitLoop_count limit fuel : forall p parts rem res,
  splitLoop limit fuel p parts rem = Ok res ->
  p = 1 + Z.of_nat (length parts) -> p <= limit ->
  Z.of_nat (length res) <= limit /\
  (length parts <= length res)%nat /\
  (rem <> [] -> (length parts < length res)%nat).
Proof.
  induction fuel as [|fuel IH]; intros p parts rem res; cbn [splitLoop].
  - destruct rem; [|discriminate]. intros [= <-] Hp Hl. split; [lia|]. split; [lia|done].
  - destruct (0 <? length rem)%nat eqn:Hlen.
    + destruct (chooseSplit rem) as [splitPos boundaryUsed].
      destruct (splitPos =? 0)%nat.
      * intros [= <-] Hp Hl. rewrite length_app. cbn [length]. repeat split; lia.
      * destruct (Z.ltb_spec limit (p + 1)) as [Hlt|Hge]; [discriminate|].
        intros Hrun Hp Hl. apply IH in Hrun as (H1 & H2 & _); [| |lia].
        -- rewrite length_app in H2. cbn [length] in H2. repeat split; lia.
        -- rewrite length_app. cbn [length]. lia.
    + apply Nat.ltb_ge in Hlen. destruct rem; [|simpl in Hlen; lia].
      intros [= <-] Hp Hl. split; [lia|]. split; [lia|done].
Qed.

(** C1: when splitting is needed and the splitter returns, the contents of
    the parts, concatenated in part-number order, are the input, unit for
    unit, and the parts are numbered from 1; the only way not to return is
    the safety limit of 100 parts. *)
Theorem split_join_roundtrip (C : jsstring) :
  needsSplitting C = true ->
  match splitContentIntoParts C with
  | Ok parts =>
      joinParts parts = C /\
      (forall i p, parts !! i = Some p -> partNumber p = Z.of_nat i + 1)
  | Throw e => e = TooManyParts
  end.
Proof.
  intros Hneed. unfold splitContentIntoParts, splitContentIntoPartsWith.
  rewrite Hneed. cbn [negb].
  pose proof (splitLoop_budget 100 (Z.to_nat 100) 1 [] C ltac:(lia) ltac:(lia)) as Hb.
  destruct (splitLoop 100 (Z.to_nat 100) 1 [] C) as [ps|e] eqn:E.
  - split.
    + rewrite joinParts_setTotalParts. by apply splitLoop_join in E.
    + intros i p Hi. rewrite list_lookup_fmap in Hi.
      destruct (ps !! i) as [q|] eqn:Hq; [|discriminate]. injection Hi as <-.
      simpl. eapply splitLoop_numbered in E; [| |reflexivity].
      * rewrite (E i q Hq). lia.
      * intros j x Hj. by rewrite lookup_nil in Hj.
  - by destruct e.
Qed.

Lemma split_join_roundtrip_witness :
  needsSplitting sampleLong = true /\
  exists parts,
    splitContentIntoParts sampleLong = Ok parts /\
    length parts = 2%nat /\ joinParts parts = sampleLong.
Proof.
  split; [vm_compute; reflexivity|].
  pose proof (split_join_roundtrip sampleLong ltac:(vm_compute; reflexivity)) as H.
  assert (Hlen : match splitContentIntoParts sampleLong with
                 | Ok ps => length ps | Throw _ => 0%nat end = 2%nat)
    by (vm_compute; reflexivity).
  destruct (splitContentIntoParts sampleLong) as [parts|e].
  - exists parts. split; [reflexivity|]. split; [exact Hlen | exact (proj1 H)].
  - discriminate Hlen.
Defined.

(** Whatever the input, the splitter returns between 1 and 100 parts that
    concatenate to the input and all carry the part count, or it reports
    that the content needs more than 100 parts; it has no other outcome. *)
Theorem split_returns_or_rejects (C : jsstring) :
  match splitContentIntoParts C with
  | Ok parts =>
      joinParts parts = C /\
      (1 <= length parts <= 100)%nat /\
      Forall (fun p => totalParts p = Z.of_nat (length parts)) parts
  | Throw e => e = TooManyParts /\ needsSplitting C = true
  end.
Proof.
  unfold splitContentIntoParts, splitContentIntoPartsWith.
  destruct (needsSplitting C) eqn:Hneed; cbn [negb].
  - pose proof (splitLoop_budget 100 (Z.to_nat 100) 1 [] C ltac:(lia) ltac:(lia)) as Hb.
    destruct (splitLoop 100 (Z.to_nat 100) 1 [] C) as [ps|e] eqn:E.
    + split; [|split].
      * rewrite joinParts_setTotalParts. by apply splitLoop_join in E.
      * rewrite length_map.
        apply splitLoop_count in E as (H1 & _ & H2); [|reflexivity|lia].
        assert (C <> []) as HC by (intros ->; discriminate Hneed).
        specialize (H2 HC). cbn in H2. lia.
      * apply Forall_forall. intros p Hp. apply list_elem_of_fmap in Hp as (q & -> & _).
        cbn. by rewrite length_map.
    + split; [by destruct e | reflexivity].
  - split; [|split].
    + unfold joinParts. cbn. by rewrite app_nil_r.
    + cbn. lia.
    + by repeat constructor.
Qed.

(** Strings made of one repeated unit *)

Lemma startsWith_replicate_ne n a c m :
  a <> c -> startsWith (replicate n a) (c :: m) = false.
Proof.
  intros Hne. destruct n as [|n]; simpl; [done|].
  unfold unit_eqb. destruct (Z.eqb_spec c a); [congruence|done].
Qed.

Lemma indexOfFrom_replicate_ne n a c m base :
  a <> c -> indexOfFrom (replicate n a) (c :: m) base = None.
Proof.
  intros Hne. revert base. induction n as [|n IH]; intros base.
  - reflexivity.
  - change (replicate (S n) a) with (a :: replicate n a).
    cbn [indexOfFrom].
    change (a :: replicate n a) with (replicate (S n) a).
    rewrite startsWith_replicate_ne by done. apply IH.
Qed.

Lemma indexOf_replicate_ne n a c m from :
  a <> c -> indexOf (replicate n a) (c :: m) from = None.
Proof.
  intros Hne. unfold indexOf. case_decide.
  - rewrite drop_replicate. by apply indexOfFrom_replicate_ne.
  - by case_decide.
Qed.

Lemma findNextMarker_replicate_none n a markers searchPos :
  headsDiffer a markers -> findNextMarker (replicate n a) markers searchPos = None.
Proof.
  unfold findNextMarker. intros H.
  induction H as [|m ms Hm _ IH]; [done|].
  simpl. unfold nextMarkerStep at 2. destruct m as [|c m]; [done|].
  by rewrite indexOf_replicate_ne.
Qed.

Lemma markerLoop_replicate_none fuel n a markers target best pos w :
  headsDiffer a markers ->
  markerLoop fuel (replicate n a) n markers target best pos w = (best, pos, w).
Proof.
  intros H. destruct fuel; simpl; [done|].
  rewrite findNextMarker_replicate_none by done. by destruct (pos <? n)%nat.
Qed.

Lemma headsDiffer_markersOf a b :
  b <> character ->
  a <> 10 -> a <> 60 -> a <> 46 -> a <> 33 -> a <> 63 -> a <> 32 ->
  headsDiffer a (markersOf b).
Proof.
  intros Hb H1 H2 H3 H4 H5 H6.
  destruct b; [| | |done]; repeat constructor; done.
Qed.

Lemma findSplitPositionW_replicate_marker n a target b :
  plainUnit a -> b <> character ->
  findSplitPositionW (replicate n a) target b = (0%nat, 0).
Proof.
  intros (H1&H2&H3&H4&H5&H6) Hb. unfold findSplitPositionW.
  rewrite length_replicate.
  assert (Hh : headsDiffer a (markersOf b)) by by apply headsDiffer_markersOf.
  destruct b; try done; by rewrite markerLoop_replicate_none.
Qed.

(** The character loop on a run of one-byte units. *)
Lemma charLoop_replicate_ascii len k a pos bc target w :
  0 <= a < 128 ->
  bc = Z.of_nat pos -> bc <= target ->
  charLoop len (replicate k a) pos bc target w =
    if Z.of_nat (pos + k) <=? target then (len, w + Z.of_nat k)
    else (Z.to_nat target, w + (target - bc) + 1).
Proof.
  intros Ha. revert pos bc w.
  assert (Hh : isHighSurrogate a = false).
  { unfold isHighSurrogate. destruct (Z.leb_spec 55296 a); [lia|done]. }
  assert (Hb : utf8UnitBytes a = 1).
  { unfold utf8UnitBytes. destruct (Z.ltb_spec a 128); [done|lia]. }
  induction k as [|k IH]; intros pos bc w Hbc Hle.
  - simpl. rewrite Nat.add_0_r.
    destruct (Z.leb_spec (Z.of_nat pos) target); [|lia].
    f_equal. lia.
  - change (replicate (S k) a) with (a :: replicate k a).
    cbn [charLoop]. rewrite Hh, Hb. cbn [andb].
    assert (Hstep :
      (if target <? bc + 1
       then (if (0 <? pos)%nat then pos else 0%nat, w + 1)
       else charLoop len (replicate k a) (S pos) (bc + 1) target (w + 1)) =
      if Z.of_nat (pos + S k) <=? target then (len, w + Z.of_nat (S k))
      else (Z.to_nat target, w + (target - bc) + 1)).
    { destruct (Z.ltb_spec target (bc + 1)).
      - assert (target = bc) by lia. subst target.
        destruct (Z.leb_spec (Z.of_nat (pos + S k)) bc); [lia|].
        f_equal; [|lia].
        destruct (Nat.ltb_spec 0 pos); lia.
      - rewrite IH by lia.
        replace (S pos + k)%nat with (pos + S k)%nat by lia.
        destruct (Z.leb_spec (Z.of_nat (pos + S k)) target); f_equal; lia. }
    destruct (replicate k a) eqn:E; exact Hstep.
Qed.

Lemma findSplitPositionW_replicate_character n a target :
  0 <= a < 128 -> 0 <= target ->
  findSplitPositionW (replicate n a) target character =
    if Z.of_nat n <=? target then (n, Z.of_nat n)
    else (Z.to_nat target, target + 1).
Proof.
  intros Ha Ht. unfold findSplitPositionW. rewrite length_replicate.
  rewrite (charLoop_replicate_ascii n n a 0 0 target 0) by (done || lia).
  simpl. destruct (Z.of_nat n <=? target); f_equal; lia.
Qed.

Lemma utf8Length_replicate_ascii n a :
  0 <= a < 128 -> utf8Length (replicate n a) = Z.of_nat n.
Proof.
  intros Ha.
  assert (Hh : isHighSurrogate a = false).
  { unfold isHighSurrogate. destruct (Z.leb_spec 55296 a); [lia|done]. }
  assert (Hb : utf8UnitBytes a = 1).
  { unfold utf8UnitBytes. destruct (Z.ltb_spec a 128); [done|lia]. }
  induction n as [|n IH]; [done|].
  change (replicate (S n) a) with (a :: replicate n a).
  cbn [utf8Length]. rewrite Hh, Hb, IH. lia.
Qed.

Lemma calculateByteSize_replicate_ascii n a :
  0 <= a < 128 ->
  calculateByteSize (replicate n a) = Z.of_nat n + ceil_times_003 (Z.of_nat n).
Proof.
  intros Ha. destruct n as [|n]; [reflexivity|].
  unfold calculateByteSize.
  change (replicate (S n) a) with (a :: replicate n a).
  change (a :: replicate n a) with (replicate (S n) a).
  cbv zeta. by rewrite utf8Length_replicate_ascii.
Qed.

(** One round of the splitter on a long run of a plain one-byte unit. *)

Lemma findSplitPosition_replicate_marker n a b :
  plainUnit a -> b <> character ->
  findSplitPosition (replicate n a) usableChunkSize b = 0%nat.
Proof.
  intros. unfold findSplitPosition.
  by rewrite findSplitPositionW_replicate_marker.
Qed.

Lemma chooseSplit_replicate n a :
  plainUnit a -> 0 <= a < 128 -> (chunkUnits <= n)%nat ->
  chooseSplit (replicate n a) = (chunkUnits, BKind character).
Proof.
  intros Hp Ha Hn. unfold chooseSplit, boundaryTypes, preferredBoundary, boundaryFallbacks.
  cbn [tryBoundaries].
  rewrite !findSplitPosition_replicate_marker by done.
  change (0 <? 0)%nat with false. cbv iota.
  unfold findSplitPosition.
  rewrite findSplitPositionW_replicate_character by (done || (unfold usableChunkSize; vm_compute; discriminate)).
  assert (Hsel : (if Z.of_nat n <=? usableChunkSize
                  then (n, Z.of_nat n)
                  else (Z.to_nat usableChunkSize, usableChunkSize + 1)).1 = chunkUnits).
  { destruct (Z.leb_spec (Z.of_nat n) usableChunkSize); cbn [fst]; [|done].
    unfold chunkUnits in *. lia. }
  rewrite Hsel.
  assert (Hpos : (0 <? chunkUnits)%nat = true) by (vm_compute; reflexivity).
  rewrite Hpos.
  unfold substringTo. rewrite take_replicate.
  replace (chunkUnits `min` n)%nat with chunkUnits by lia.
  rewrite calculateByteSize_replicate_ascii by done.
  assert (Hbig : (minChunkSizeBytes <=?
                  Z.of_nat chunkUnits + ceil_times_003 (Z.of_nat chunkUnits)) = true)
    by (vm_compute; reflexivity).
  rewrite Hbig. cbn [orb].
  assert (Hz : (chunkUnits =? 0)%nat = false) by (vm_compute; reflexivity).
  by rewrite Hz.
Qed.

Lemma chunk_arith (c k : nat) :
  (0 < c)%nat ->
  (0 <? S k * c)%nat = true /\ (c <= S k * c)%nat /\
  (c `min` (S k * c))%nat = c /\ (S k * c - c)%nat = (k * c)%nat.
Proof. intros. rewrite Nat.ltb_lt. nia. Qed.

Lemma splitLoop_chunks limit a : plainUnit a -> 0 <= a < 128 ->
  forall k fuel p parts,
  (k <= fuel)%nat ->
  splitLoop limit fuel p parts (replicate (k * chunkUnits) a) =
    if (0 <? k)%nat && (limit <? p + Z.of_nat k) then Throw TooManyParts
    else Ok (parts ++ map (fun i =>
               mkPart (p + Z.of_nat i) 0 (replicate chunkUnits a)
                 (calculateByteSize (replicate chunkUnits a))
                 (countWords (replicate chunkUnits a)) (BKind character))
               (seq 0 k)).
Proof.
  intros Hp Ha. induction k as [|k IH]; intros fuel p parts Hk.
  - simpl. rewrite app_nil_r. by destruct fuel.
  - destruct fuel as [|fuel]; [lia|].
    cbn [splitLoop]. rewrite length_replicate.
    assert (Hc : (0 < chunkUnits)%nat) by (apply Nat.ltb_lt; vm_compute; reflexivity).
    destruct (chunk_arith chunkUnits k Hc) as (Hlen & Hle & Hmin & Hsub).
    rewrite Hlen.
    rewrite chooseSplit_replicate by done.
    assert (Hz : (chunkUnits =? 0)%nat = false) by (vm_compute; reflexivity).
    rewrite Hz.
    unfold substringTo, substringFrom.
    rewrite take_replicate, drop_replicate, Hmin, Hsub.
    cbn [andb Nat.ltb Nat.leb].
    destruct (Z.ltb_spec limit (p + 1)) as [Hlt|Hge].
    + destruct (Z.ltb_spec limit (p + Z.of_nat (S k))); [done|lia].
    + rewrite IH by lia.
      destruct k as [|k'].
      * cbn [Nat.ltb Nat.leb andb].
        destruct (Z.ltb_spec limit (p + Z.of_nat 1)); [lia|].
        cbn [seq map]. rewrite app_nil_r, Z.add_0_r. reflexivity.
      * cbn [Nat.ltb Nat.leb andb].
        replace (p + 1 + Z.of_nat (S k')) with (p + Z.of_nat (S (S k'))) by lia.
        destruct (limit <? p + Z.of_nat (S (S k'))); [done|].
        rewrite <- app_assoc. f_equal. f_equal.
        change (seq 0 (S (S k'))) with (0%nat :: seq 1 (S k')).
        cbn [map app]. rewrite Z.add_0_r. f_equal.
        rewrite <- seq_shift, map_map.
        apply map_ext. intros i. f_equal. lia.
Qed.

Lemma plainUnit_a : plainUnit 97.
Proof. repeat split; discriminate. Qed.

Lemma needsSplitting_hundredChunks : needsSplitting hundredChunks = true.
Proof.
  unfold needsSplitting, hundredChunks.
  rewrite calculateByteSize_replicate_ascii by lia.
  replace (Z.of_nat (100 * chunkUnits)) with 5734400
    by (unfold chunkUnits; vm_compute; reflexivity).
  vm_compute. reflexivity.
Qed.

(** C4 fails on the code: a text of exactly one hundred full chunks needs
    splitting and is rejected as too large, although with the check moved
    past the loop test the same text splits into exactly 100 parts that
    concatenate to it. *)
Theorem hundred_parts_rejected :
  needsSplitting hundredChunks = true /\
  splitContentIntoParts hundredChunks = Throw TooManyParts /\
  exists parts, splitContentIntoPartsWith 101 hundredChunks = Ok parts /\
                length parts = 100%nat /\ joinParts parts = hundredChunks.
Proof.
  split; [apply needsSplitting_hundredChunks|].
  unfold splitContentIntoParts, splitContentIntoPartsWith.
  rewrite needsSplitting_hundredChunks. cbn [negb].
  unfold hundredChunks. split.
  - rewrite (splitLoop_chunks _ 97 plainUnit_a) by (lia || (vm_compute; lia)).
    reflexivity.
  - pose proof (splitLoop_chunks 101 97 plainUnit_a ltac:(lia) 100 (Z.to_nat 101) 1 []
                  ltac:(vm_compute; lia)) as E.
    change ((0 <? 100)%nat && (101 <? 1 + Z.of_nat 100)) with false in E.
    cbv iota in E. rewrite E.
    eexists. split; [reflexivity|]. split.
    + rewrite length_map, app_nil_l, length_map, length_seq. reflexivity.
    + rewrite joinParts_setTotalParts. by apply splitLoop_join in E.
Qed.

Lemma wordMarker_space : wordMarker = [32].
Proof. reflexivity. Qed.

Lemma findNextMarker_spaces n i :
  (i < n)%nat -> findNextMarker (replicate n 32) [[32]] i = Some (i, [32]).
Proof.
  intros Hi. unfold findNextMarker. cbn [foldl]. unfold nextMarkerStep, indexOf.
  rewrite length_replicate. case_decide; [|lia].
  rewrite drop_replicate.
  destruct (n - i)%nat eqn:E; [lia|]. cbn. by destruct (replicate n0 32).
Qed.

Lemma markerLoop_spaces n target : 2 * Z.of_nat n <= target ->
  forall d i fuel w, (i + d = n)%nat -> (d < fuel)%nat ->
  exists w',
    markerLoop fuel (replicate n 32) n [[32]] target i i w = (n, n, w') /\
    2 * w' = 2 * w + Z.of_nat n * (Z.of_nat n + 1) - Z.of_nat i * (Z.of_nat i + 1).
Proof.
  intros Ht. induction d as [|d IH]; intros i fuel w Hid Hf.
  - destruct fuel as [|fuel]; [lia|]. cbn [markerLoop].
    assert (i = n) by lia. subst i.
    rewrite Nat.ltb_irrefl. exists w. split; [done|lia].
  - destruct fuel as [|fuel]; [lia|]. cbn [markerLoop].
    assert (Hlt : (i <? n)%nat = true) by (apply Nat.ltb_lt; lia).
    rewrite Hlt, findNextMarker_spaces by lia.
    cbv zeta. unfold substringTo.
    rewrite take_replicate, length_replicate.
    change (length [32]) with 1%nat.
    replace ((i + 1) `min` n)%nat with (i + 1)%nat by lia.
    rewrite calculateByteSize_replicate_ascii by lia.
    pose proof (ceil_times_003_bounds (Z.of_nat (i + 1)) ltac:(lia)) as Hc.
    destruct (Z.leb_spec (Z.of_nat (i + 1) + ceil_times_003 (Z.of_nat (i + 1))) target);
      [|lia].
    destruct (IH (i + 1)%nat fuel (w + Z.of_nat (i + 1)) ltac:(lia) ltac:(lia))
      as (w' & Hrun & Hw).
    exists w'. split; [exact Hrun|]. lia.
Qed.

Lemma word_boundary_work (n : nat) (target : Z) :
  2 * Z.of_nat n <= target ->
  findSplitPosition (replicate n 32) target word = n /\
  2 * encoderWork (replicate n 32) target word = Z.of_nat n * (Z.of_nat n + 1).
Proof.
  intros Ht. unfold findSplitPosition, encoderWork, findSplitPositionW.
  rewrite length_replicate. cbn [markersOf]. rewrite wordMarker_space.
  destruct (markerLoop_spaces n target Ht n 0%nat (S n) 0 ltac:(lia) ltac:(lia))
    as (w' & Hrun & Hw).
  rewrite Hrun. cbn [fst snd]. split; [|lia].
  destruct (0 <? n)%nat; reflexivity.
Qed.

(** C9 fails on the code: on a text of [n] spaces that fits the budget the
    word-boundary search re-encodes the prefix up to every marker, handing
    [n (n + 1) / 2] code units to the encoder in all. *)
Theorem word_boundary_encoder_work_quadratic (n : nat) (target : Z) :
  2 * Z.of_nat n <= target ->
  findSplitPosition (replicate n 32) target word = n /\
  2 * encoderWork (replicate n 32) target word = Z.of_nat n * (Z.of_nat n + 1).
Proof. apply word_boundary_work. Qed.

Lemma word_boundary_encoder_work_quadratic_witness :
  2 * Z.of_nat 200 <= 57344 /\
  findSplitPosition (replicate 200 32) 57344 word = 200%nat /\
  2 * encoderWork (replicate 200 32) 57344 word = 200 * 201.
Proof.
  split; [lia|].
  apply (word_boundary_encoder_work_quadratic 200 57344). lia.
Defined.

(** No bound linear in the text length holds for the word boundary. *)
Theorem word_boundary_work_not_linear (c : Z) :
  exists content target,
    c * (Z.of_nat (length content) + 1) < encoderWork content target word.
Proof.
  set (n := Z.to_nat (2 * Z.abs c + 2)).
  exists (replicate n 32), (2 * Z.of_nat n).
  destruct (word_boundary_work n (2 * Z.of_nat n) ltac:(lia)) as [_ H].
  rewrite length_replicate.
  assert (Hn : Z.of_nat n = 2 * Z.abs c + 2) by (unfold n; lia).
  nia.
Qed.

Lemma charLoop_work_bound len target : forall m rest pos bc w,
  (length rest <= m)%nat ->
  w <= snd (charLoop len rest pos bc target w) <= w + Z.of_nat (length rest).
Proof.
  induction m as [|m IH]; intros rest pos bc w Hm.
  - destruct rest; [simpl; lia | simpl in Hm; lia].
  - destruct rest as [|u [|l rest2]]; cbn [charLoop length].
    + simpl. lia.
    + destruct (target <? bc + utf8UnitBytes u); simpl; lia.
    + cbn [length] in Hm.
      destruct (isHighSurrogate u && isLowSurrogate l).
      * destruct (target <? bc + 4); [simpl; lia|].
        pose proof (IH rest2 (S (S pos)) (bc + 4) (w + 2) ltac:(lia)). lia.
      * destruct (target <? bc + utf8UnitBytes u); [simpl; lia|].
        pose proof (IH (l :: rest2) (S pos) (bc + utf8UnitBytes u) (w + 1)
                      ltac:(simpl; lia)) as H.
        cbn [charLoop length] in H |- *. lia.
Qed.

(** The character-level search hands every code unit of the text to the
    encoder at most once. *)
Theorem character_boundary_encoder_work_linear content target :
  0 <= encoderWork content target character <= Z.of_nat (length content).
Proof.
  unfold encoderWork, findSplitPositionW.
  pose proof (charLoop_work_bound (length content) target (length content)
                content 0%nat 0 0 ltac:(lia)). lia.
Qed.

End SplitterFacts.

(** ** Hashing *)

Module HashingFacts.
Import Js Hashing Samples Predicates.

(** stripManifestComment *)

Lemma hasManifestComment_false_inv s :
  hasManifestComment s = false ->
  matchManifestAt s = None /\
  match s with [] => True | _ :: rest => hasManifestComment rest = false end.
Proof.
  destruct s as [|u rest]; cbn [hasManifestComment];
    destruct (matchManifestAt _); try discriminate; auto.
Qed.

Lemma stripLoop_clean fuel : forall s,
  hasManifestComment s = false -> stripLoop fuel s = s.
Proof.
  induction fuel as [|fuel IH]; intros s Hs; [reflexivity|].
  apply hasManifestComment_false_inv in Hs as [Hm Hrest].
  cbn [stripLoop]. rewrite Hm. destruct s as [|u rest]; [reflexivity|].
  f_equal. by apply IH.
Qed.

Lemma stripManifestText_clean s :
  hasManifestComment s = false -> stripManifestText s = s.
Proof. apply stripLoop_clean. Qed.

(** C10 as stated fails: removing the inner comment of a nested one leaves
    a comment behind, which a second pass removes. *)
Lemma strip_not_idempotent :
  stripManifestComment (Str nestedMarker) = Str (lit "<!--ARCHIVE-MANIFEST:y-->") /\
  stripManifestComment (stripManifestComment (Str nestedMarker)) = Str [] /\
  stripManifestComment (stripManifestComment (Str nestedMarker))
    <> stripManifestComment (Str nestedMarker).
Proof. repeat split; vm_compute; (reflexivity || discriminate). Qed.

(** hash / verify round trip *)

Lemma strictEq_refl v : strictEq v v = true.
Proof. unfold strictEq. by apply bool_decide_eq_true. Qed.

Lemma compareTriples_refl h : allMatch (compareTriples h h) = true.
Proof.
  unfold compareTriples, allMatch. cbn. rewrite !strictEq_refl.
  by destruct (strictEq (blake2b h) Undefined), (strictEq (md5 h) Undefined).
Qed.

Lemma verifyParts_refl hs : forall i,
  Forall (fun pv => pv_valid pv = true) (verifyParts i hs hs) /\
  length (verifyParts i hs hs) = length hs.
Proof.
  induction hs as [|h hs IH]; intros i; cbn [verifyParts]; [by split|].
  destruct (IH (i + 1)) as [Hf Hl]. split.
  - constructor; [apply compareTriples_refl | exact Hf].
  - cbn [length]. by rewrite Hl.
Qed.

Lemma hashString_ok env f input :
  md5lib env = Some f -> exists h, hashString env input = HOk h.
Proof. intros H. unfold hashString. rewrite H. eauto. Qed.

Lemma hashParts_ok env f : md5lib env = Some f ->
  forall parts i, exists hs, hashParts env i parts = HOk hs /\ length hs = length parts.
Proof.
  intros H. induction parts as [|p parts IH]; intros i; cbn [hashParts]; [by eexists|].
  destruct (hashString_ok env f p H) as [h ->].
  destruct (IH (i + 1)) as (hs & -> & Hl).
  eexists. split; [reflexivity|]. cbn [length]. by rewrite Hl.
Qed.

Lemma hashMultiPartContent_ok env f parts :
  parts <> [] -> md5lib env = Some f ->
  exists hs full,
    hashMultiPartContent env parts = HOk (mkHashes hs (HashObject full)) /\
    length hs = length parts.
Proof.
  intros Hne Hf.
  destruct (hashParts_ok env f Hf parts 0) as (hs & Hhs & Hl).
  destruct (hashString_ok env f (concat parts) Hf) as [full Hfull].
  exists hs, full. split; [|exact Hl].
  unfold hashMultiPartContent. destruct parts; [done|].
  by rewrite Hhs, Hfull.
Qed.

(** C8: for a non-empty list of parts (the MD5 library being loaded, as
    hashing needs it), verifying the parts against their own hashes reports
    valid, with one valid entry per part and a matching full-content hash. *)
Theorem verify_own_hashes_valid (env : HashEnv) (parts : list jsstring) :
  parts <> [] -> is_Some (md5lib env) ->
  exists hashes pvs fullMatches,
    hashMultiPartContent env parts = HOk hashes /\
    verifyMultiPartContent env parts hashes
      = HOk (Verification true pvs fullMatches true true) /\
    length pvs = length parts /\
    Forall (fun pv => pv_valid pv = true) pvs /\
    allMatch fullMatches = true.
Proof.
  intros Hne [f Hf].
  destruct (hashMultiPartContent_ok env f parts Hne Hf) as (hs & full & Hm & Hl).
  destruct (verifyParts_refl hs 0) as [Hv Hlen].
  exists (mkHashes hs (HashObject full)), (verifyParts 0 hs hs),
         (compareTriples full full).
  split; [exact Hm|]. split.
  - unfold verifyMultiPartContent. rewrite Hm.
    cbn [partHashes fullContentHash verifyFullHash]. rewrite Nat.eqb_refl. cbn [negb].
    assert (Hall : forallb pv_valid (verifyParts 0 hs hs) = true).
    { apply forallb_forall. intros pv Hin. rewrite Forall_forall in Hv.
      apply Hv. by apply list_elem_of_In. }
    rewrite Hall, compareTriples_refl. reflexivity.
  - split; [congruence|]. split; [exact Hv | apply compareTriples_refl].
Qed.

Lemma verify_own_hashes_valid_witness :
  exists hashes pvs fullMatches,
    hashMultiPartContent sampleEnv sampleTexts = HOk hashes /\
    verifyMultiPartContent sampleEnv sampleTexts hashes
      = HOk (Verification true pvs fullMatches true true) /\
    length pvs = length sampleTexts /\
    Forall (fun pv => pv_valid pv = true) pvs /\
    allMatch fullMatches = true.
Proof.
  apply (verify_own_hashes_valid sampleEnv sampleTexts).
  - discriminate.
  - eexists. reflexivity.
Defined.

End HashingFacts.

(** ** Splitter: every part fits *)

Module SplitterBudget.
Import Js Splitter Samples Predicates.

(** *** Encoded sizes *)

Lemma utf8UnitBytes_bounds u : 1 <= utf8UnitBytes u <= 3.
Proof. unfold utf8UnitBytes. destruct (u <? 128), (u <? 2048); lia. Qed.

Lemma utf8Length_cons2 u l rest :
  utf8Length (u :: l :: rest)
  = if isHighSurrogate u
    then if isLowSurrogate l then 4 + utf8Length rest else 3 + utf8Length (l :: rest)
    else utf8UnitBytes u + utf8Length (l :: rest).
Proof. reflexivity. Qed.

Lemma utf8Length_nonneg s : 0 <= utf8Length s.
Proof.
  remember (length s) as n eqn:Hn. revert s Hn.
  induction n as [n IH] using lt_wf_ind. intros s Hn.
  destruct s as [|u [|l rest]]; [cbn; lia| |].
  - cbn [utf8Length].
    pose proof (utf8UnitBytes_bounds u). destruct (isHighSurrogate u); cbv iota; lia.
  - rewrite utf8Length_cons2. pose proof (utf8UnitBytes_bounds u).
    pose proof (IH (length rest) ltac:(subst; cbn; lia) rest eq_refl).
    pose proof (IH (length (l :: rest)) ltac:(subst; cbn; lia) (l :: rest) eq_refl).
    destruct (isHighSurrogate u); [destruct (isLowSurrogate l)|]; cbv iota; lia.
Qed.

Lemma high_unit_bytes u : isHighSurrogate u = true -> utf8UnitBytes u = 3.
Proof.
  unfold isHighSurrogate, utf8UnitBytes. intros H.
  apply andb_true_iff in H as [H1 H2]. apply Z.leb_le in H1.
  destruct (Z.ltb_spec u 128); [lia|]. destruct (Z.ltb_spec u 2048); [lia|]. done.
Qed.

Lemma utf8Length_single u : utf8Length [u] = utf8UnitBytes u.
Proof.
  cbn [utf8Length]. destruct (isHighSurrogate u) eqn:E.
  - by rewrite high_unit_bytes.
  - lia.
Qed.

Lemma round53_near p : 0 <= p < 2 ^ 69 -> round53 p <= p + 2 ^ 16.
Proof.
  intros [Hp Hlt]. unfold round53.
  destruct (Z.log2 p + 1 <=? 53) eqn:E; [lia|].
  apply Z.leb_gt in E.
  assert (Hpos : 0 < p).
  { destruct (Z.eq_dec p 0) as [->|]; [simpl in E; lia | lia]. }
  set (s := Z.log2 p + 1 - 53) in *.
  assert (Hs : 0 < s <= 16).
  { assert (Z.log2 p < 69) by (apply Z.log2_lt_pow2; lia). unfold s. lia. }
  rewrite Z.shiftl_mul_pow2 by lia.
  rewrite Z.shiftr_div_pow2 by lia.
  assert (H2s : 0 < 2 ^ s) by (apply Z.pow_pos_nonneg; lia).
  assert (Hq : 2 ^ s * (p / 2 ^ s) <= p) by (apply Z.mul_div_le; lia).
  assert (H16 : 2 ^ s <= 2 ^ 16) by (apply Z.pow_le_mono_r; lia).
  destruct ((_ <? _) || _); nia.
Qed.

Lemma ceil_times_003_small n :
  0 <= n <= usableChunkSize -> ceil_times_003 n <= METADATA_OVERHEAD_BYTES.
Proof.
  intros [Hn Hu]. unfold ceil_times_003.
  change usableChunkSize with 57344 in Hu.
  change METADATA_OVERHEAD_BYTES with 2048.
  pose proof (round53_near (n * mantissa_003)) as H.
  assert (0 <= n * mantissa_003 < 2 ^ 69) as Hr.
  { unfold mantissa_003. change (2 ^ 69) with 590295810358705651712. lia. }
  specialize (H Hr). rewrite Z.ones_equiv.
  apply Z.lt_succ_r. apply Z.div_lt_upper_bound; [reflexivity|].
  change (2 ^ 58) with 288230376151711744 in *.
  change (2 ^ 16) with 65536 in H. unfold mantissa_003 in *. lia.
Qed.

(** A text whose encoding fits the usable chunk size does not need
    splitting. *)
Lemma fits_no_split s :
  utf8Length s <= usableChunkSize -> needsSplitting s = false.
Proof.
  intros H. unfold needsSplitting, calculateByteSize.
  destruct s as [|u s]; [reflexivity|]. cbv zeta.
  pose proof (utf8Length_nonneg (u :: s)).
  pose proof (ceil_times_003_small (utf8Length (u :: s)) ltac:(lia)).
  apply Z.ltb_ge.
  change SAFE_CHUNK_SIZE_BYTES with 59392.
  change usableChunkSize with 57344 in *.
  change METADATA_OVERHEAD_BYTES with 2048 in *. lia.
Qed.

Lemma utf8Length_le_byteSize s : utf8Length s <= calculateByteSize s.
Proof.
  unfold calculateByteSize. destruct s as [|u s]; [reflexivity|]. cbv zeta.
  pose proof (utf8Length_nonneg (u :: s)).
  pose proof (SplitterFacts.ceil_times_003_bounds (utf8Length (u :: s)) ltac:(lia)). lia.
Qed.

(** *** The character search *)

(** The loop stops after [k] further code units; the units it has passed
    encode within the target, and it passes at least one when a whole code
    point fits. *)
Lemma charLoop_stop (rest : jsstring) (pos : nat) (bc target w : Z) :
  fst ((if (0 <? pos)%nat then pos else 0%nat), w) = (pos + 0)%nat /\
  (0 <= length rest)%nat /\
  (bc <= target -> bc + utf8Length (take 0 rest) <= target).
Proof.
  rewrite take_0. cbn [fst utf8Length]. split; [|split; [lia|lia]].
  destruct (0 <? pos)%nat eqn:E; [lia | apply Nat.ltb_ge in E; lia].
Qed.

Lemma charLoop_fits len target : forall n rest pos bc w,
  (length rest <= n)%nat ->
  bc <= target ->
  len = (pos + length rest)%nat ->
  exists k,
    fst (charLoop len rest pos bc target w) = (pos + k)%nat /\
    (k <= length rest)%nat /\
    bc + utf8Length (take k rest) <= target /\
    (rest <> [] -> bc + 4 <= target -> (0 < k)%nat).
Proof.
  induction n as [|n IH]; intros rest pos bc w Hn Hbc Hlen.
  - destruct rest; [|cbn in Hn; lia]. cbn [length] in Hlen.
    exists 0%nat. cbn. split; [lia|]. split; [lia|]. split; [lia|done].
  - destruct rest as [|u [|l rest2]]; cbn [length] in Hlen, Hn.
    + exists 0%nat. cbn. split; [lia|]. split; [lia|]. split; [lia|done].
    + cbn [charLoop]. pose proof (utf8UnitBytes_bounds u) as Hu.
      destruct (Z.ltb_spec target (bc + utf8UnitBytes u)).
      * exists 0%nat.
        destruct (charLoop_stop [u] pos bc target (w + 1)) as (E & _ & Hb).
        split; [exact E|]. split; [lia|]. split; [by apply Hb|]. lia.
      * exists 1%nat. cbn [fst charLoop take length].
        split; [lia|]. split; [lia|]. split; [|lia].
        rewrite (utf8Length_single u). lia.
    + cbn [charLoop]. pose proof (utf8UnitBytes_bounds u) as Hu.
      destruct (isHighSurrogate u && isLowSurrogate l) eqn:Epair.
      * apply andb_true_iff in Epair as [Eh El].
        destruct (Z.ltb_spec target (bc + 4)).
        -- exists 0%nat.
           destruct (charLoop_stop (u :: l :: rest2) pos bc target (w + 2))
             as (E & _ & Hb).
           split; [exact E|]. split; [lia|]. split; [by apply Hb|]. lia.
        -- destruct (IH rest2 (S (S pos)) (bc + 4) (w + 2)) as (k & Hk & Hkl & Hb & _);
             [lia | lia | lia |].
           exists (S (S k)). rewrite Hk. cbn [take length].
           rewrite utf8Length_cons2, Eh, El.
           split; [lia|]. split; [lia|]. split; [lia|]. lia.
      * destruct (Z.ltb_spec target (bc + utf8UnitBytes u)).
        -- exists 0%nat.
           destruct (charLoop_stop (u :: l :: rest2) pos bc target (w + 1))
             as (E & _ & Hb).
           split; [exact E|]. split; [lia|]. split; [by apply Hb|]. lia.
        -- destruct (IH (l :: rest2) (S pos) (bc + utf8UnitBytes u) (w + 1))
             as (k & Hk & Hkl & Hb & _); [cbn [length]; lia | lia | cbn [length]; lia |].
           exists (S k). cbn [charLoop] in Hk. rewrite Hk. cbn [length] in Hkl |- *.
           split; [lia|]. split; [lia|]. split; [|lia].
           cbn [take].
           assert (Hcons : utf8Length (u :: take k (l :: rest2))
                           = utf8UnitBytes u + utf8Length (take k (l :: rest2))).
           { destruct k as [|k]; cbn [take].
             - rewrite (utf8Length_single u). cbn. lia.
             - rewrite utf8Length_cons2.
               destruct (isHighSurrogate u) eqn:Eh; [|reflexivity].
               cbn [andb] in Epair. rewrite Epair.
               by rewrite (high_unit_bytes u Eh). }
           rewrite Hcons. lia.
Qed.

Lemma findSplitPosition_character_fits content target :
  0 <= target ->
  (findSplitPosition content target character <= length content)%nat /\
  utf8Length (take (findSplitPosition content target character) content) <= target /\
  (content <> [] -> 4 <= target ->
   (0 < findSplitPosition content target character)%nat).
Proof.
  intros Ht. unfold findSplitPosition, findSplitPositionW.
  destruct (charLoop_fits (length content) target (length content) content 0%nat 0 0)
    as (k & -> & Hk & Hb & Hpos); [lia | lia | lia |].
  cbn [Nat.add]. repeat split; [lia | lia |].
  intros Hne H4. apply Hpos; [done | lia].
Qed.

(** *** The marker search *)

Lemma markerLoop_fits fuel content len markers target : forall best pos w,
  best = pos ->
  (best = 0%nat \/ calculateByteSize (take best content) <= target) ->
  let '(best', pos', _) := markerLoop fuel content len markers target best pos w in
  best' = pos' /\
  (best' = 0%nat \/ calculateByteSize (take best' content) <= target).
Proof.
  induction fuel as [|fuel IH]; intros best pos w Heq Hfit; cbn [markerLoop].
  - done.
  - destruct (pos <? len)%nat; [|done].
    destruct (findNextMarker content markers pos) as [[nextPos marker]|]; [|done].
    cbv zeta.
    destruct (Z.leb_spec
                (calculateByteSize (substringTo content (nextPos + length marker)))
                target); [|done].
    apply IH; [reflexivity|]. right. done.
Qed.

Lemma findSplitPosition_marker_fits content target markers :
  let '(best, pos, w) :=
    markerLoop (S (length content)) content (length content) markers target 0 0 0 in
  fst ((if (0 <? best)%nat then best else pos), w) = 0%nat \/
  utf8Length (take (fst ((if (0 <? best)%nat then best else pos), w)) content)
    <= target.
Proof.
  pose proof (markerLoop_fits (S (length content)) content (length content)
                markers target 0%nat 0%nat 0 eq_refl (or_introl eq_refl)) as H.
  destruct (markerLoop _ _ _ _ _ _ _ _) as [[best pos] w].
  destruct H as [<- H]. cbn [fst].
  replace (if (0 <? best)%nat then best else best) with best
    by (by destruct (0 <? best)%nat).
  destruct H as [->|H]; [by left|right].
  pose proof (utf8Length_le_byteSize (take best content)). lia.
Qed.

Lemma findSplitPosition_fits content target b :
  0 <= target ->
  findSplitPosition content target b = 0%nat \/
  utf8Length (take (findSplitPosition content target b) content) <= target.
Proof.
  intros Ht. unfold findSplitPosition, findSplitPositionW.
  destruct b.
  - pose proof (findSplitPosition_marker_fits content target (markersOf paragraph)) as H.
    by destruct (markerLoop _ _ _ _ _ _ _ _) as [[best pos] w].
  - pose proof (findSplitPosition_marker_fits content target (markersOf sentence)) as H.
    by destruct (markerLoop _ _ _ _ _ _ _ _) as [[best pos] w].
  - pose proof (findSplitPosition_marker_fits content target (markersOf word)) as H.
    by destruct (markerLoop _ _ _ _ _ _ _ _) as [[best pos] w].
  - right. by apply findSplitPosition_character_fits.
Qed.

(** *** The choice of the split position *)

Lemma tryBoundaries_fits rem : forall types splitPos bu,
  (splitPos = 0%nat \/ utf8Length (take splitPos rem) <= usableChunkSize) ->
  (fst (tryBoundaries types rem splitPos bu) = 0%nat \/
   utf8Length (take (fst (tryBoundaries types rem splitPos bu)) rem)
     <= usableChunkSize).
Proof.
  induction types as [|b types IH]; intros splitPos bu H; cbn [tryBoundaries]; [done|].
  cbv zeta.
  pose proof (findSplitPosition_fits rem usableChunkSize b ltac:(done)) as Hb.
  destruct (0 <? findSplitPosition rem usableChunkSize b)%nat.
  - destruct (_ || _); [cbn [fst]; done|]. by apply IH.
  - by apply IH.
Qed.

Lemma chooseSplit_fits rem :
  rem <> [] ->
  (0 < fst (chooseSplit rem))%nat /\
  utf8Length (take (fst (chooseSplit rem)) rem) <= usableChunkSize.
Proof.
  intros Hne. unfold chooseSplit.
  pose proof (tryBoundaries_fits rem boundaryTypes 0%nat (BKind character)
                (or_introl eq_refl)) as H.
  destruct (tryBoundaries boundaryTypes rem 0 (BKind character)) as [splitPos bu].
  cbn [fst] in H.
  destruct (Nat.eqb_spec splitPos 0) as [->|Hpos]; cbn [fst].
  - destruct (findSplitPosition_character_fits rem usableChunkSize ltac:(done))
      as (_ & Hfit & Hgt).
    split; [apply Hgt; [done | done] | done].
  - split; [lia|]. destruct H; [lia | done].
Qed.

(** *** The parts *)

Lemma splitLoop_fits limit fuel : forall p parts rem res,
  splitLoop limit fuel p parts rem = Ok res ->
  Forall partFits parts -> Forall partFits res.
Proof.
  induction fuel as [|fuel IH]; intros p parts rem res; cbn [splitLoop].
  - destruct rem; [|discriminate]. by intros [= <-].
  - destruct (0 <? length rem)%nat eqn:Hlen; [|by intros [= <-]].
    assert (rem <> []) as Hne by (intros ->; discriminate Hlen).
    destruct (chooseSplit_fits rem Hne) as [Hpos Hfit].
    destruct (chooseSplit rem) as [splitPos bu]. cbn [fst] in *.
    destruct (Nat.eqb_spec splitPos 0); [lia|].
    destruct (limit <? p + 1); [discriminate|].
    intros Hrun Hparts. apply IH in Hrun; [done|].
    apply Forall_app. split; [done|]. constructor; [|constructor].
    unfold partFits. cbn [content byteSize]. unfold substringTo.
    split; [|split; [done|]].
    + destruct rem; [done|]. destruct splitPos; [lia|]. done.
    + reflexivity.
Qed.

(** When splitting is needed, every part returned is non-empty, encodes to
    at most the usable chunk size (56 KiB), records its own byte size, and
    does not need splitting itself. *)
Theorem split_parts_fit (C : jsstring) (parts : list ContentPart) :
  needsSplitting C = true ->
  splitContentIntoParts C = Ok parts ->
  Forall (fun p =>
            content p <> [] /\
            utf8Length (content p) <= usableChunkSize /\
            byteSize p = calculateByteSize (content p) /\
            needsSplitting (content p) = false) parts.
Proof.
  intros Hneed. unfold splitContentIntoParts, splitContentIntoPartsWith.
  rewrite Hneed. cbn [negb].
  destruct (splitLoop 100 (Z.to_nat 100) 1 [] C) as [ps|e] eqn:E; [|discriminate].
  intros [= <-]. apply splitLoop_fits in E; [|constructor].
  apply Forall_fmap. eapply Forall_impl; [exact E|].
  intros p (Hne & Hfit & Hsize). cbn. repeat split; try done.
  by apply fits_no_split.
Qed.

Lemma split_parts_fit_witness :
  exists parts,
    splitContentIntoParts sampleLong = Ok parts /\
    Forall (fun p =>
              content p <> [] /\
              utf8Length (content p) <= usableChunkSize /\
              byteSize p = calculateByteSize (content p) /\
              needsSplitting (content p) = false) parts.
Proof.
  assert (Hok : match splitContentIntoParts sampleLong with
                | Ok _ => true | Throw _ => false end = true)
    by (vm_compute; reflexivity).
  destruct (splitContentIntoParts sampleLong) as [parts|e] eqn:E; [|discriminate Hok].
  exists parts. split; [reflexivity|].
  apply (split_parts_fit sampleLong parts); [vm_compute; reflexivity | exact E].
Defined.

End SplitterBudget.

(** ** Splitter: marker splits fall behind a marker *)

Module BoundaryFacts.
Import Js Splitter Samples Predicates.

Lemma startsWith_take : forall m s, startsWith s m = true -> take (length m) s = m.
Proof.
  induction m as [|c m IH]; intros s H; [by destruct s|].
  destruct s as [|d s]; [discriminate H|]. cbn [startsWith] in H.
  apply andb_true_iff in H as [Hc Hs]. unfold unit_eqb in Hc.
  apply Z.eqb_eq in Hc as ->. cbn [length take]. by rewrite IH.
Qed.

Lemma indexOfFrom_starts m : forall s base k,
  indexOfFrom s m base = Some k ->
  exists i, k = (base + i)%nat /\ startsWith (drop i s) m = true.
Proof.
  induction s as [|u s IH]; intros base k; cbn [indexOfFrom].
  - destruct (startsWith [] m) eqn:E; [|discriminate].
    intros [= <-]. exists 0%nat. split; [lia | exact E].
  - destruct (startsWith (u :: s) m) eqn:E.
    + intros [= <-]. exists 0%nat. split; [lia | exact E].
    + intros H. apply IH in H as (i & -> & Hs).
      exists (S i). split; [lia | exact Hs].
Qed.

Lemma indexOf_starts content m from pos :
  indexOf content m from = Some pos ->
  startsWith (drop pos content) m = true.
Proof.
  unfold indexOf. case_decide as Hfrom.
  - intros Hi. apply indexOfFrom_starts in Hi as (i & -> & Hs).
    by rewrite drop_drop in Hs.
  - case_decide as Hm; [|discriminate]. intros [= <-]. subst m.
    by rewrite drop_all.
Qed.

Lemma findNextMarker_found content searchPos : forall markers acc pos marker,
  (forall p mk, acc = Some (p, mk) -> indexOf content mk searchPos = Some p) ->
  foldl (nextMarkerStep content searchPos) acc markers = Some (pos, marker) ->
  indexOf content marker searchPos = Some pos /\
  (marker ∈ markers \/ acc = Some (pos, marker)).
Proof.
  induction markers as [|mk markers IH]; intros acc pos marker Hacc; cbn [foldl].
  - intros ->. split; [by apply Hacc | by right].
  - intros H. apply IH in H as [Hi Hin].
    + split; [exact Hi|]. destruct Hin as [Hin | Hstep].
      * left. by apply list_elem_of_further.
      * unfold nextMarkerStep in Hstep.
        destruct (indexOf content mk searchPos) as [p|] eqn:E; [|by right].
        destruct acc as [[p0 mk0]|].
        -- destruct (p <? p0)%nat; [|by right].
           injection Hstep as <- <-. left. apply list_elem_of_here.
        -- injection Hstep as <- <-. left. apply list_elem_of_here.
    + intros p mk' Hstep. unfold nextMarkerStep in Hstep.
      destruct (indexOf content mk searchPos) as [p1|] eqn:E; [|by apply Hacc].
      destruct acc as [[p0 mk0]|].
      * destruct (p1 <? p0)%nat; [|by apply Hacc].
        by injection Hstep as <- <-.
      * by injection Hstep as <- <-.
Qed.

Lemma markerLoop_behind_marker fuel content len markers target : forall best pos w,
  (best = 0%nat \/ endsWithMarker markers (take best content)) ->
  let '(best', _, _) := markerLoop fuel content len markers target best pos w in
  best' = 0%nat \/ endsWithMarker markers (take best' content).
Proof.
  induction fuel as [|fuel IH]; intros best pos w H; cbn [markerLoop]; [done|].
  destruct (pos <? len)%nat; [|done].
  destruct (findNextMarker content markers pos) as [[nextPos marker]|] eqn:E; [|done].
  cbv zeta. destruct (_ <=? _); [|done].
  apply IH. right.
  apply findNextMarker_found in E as [Hi [Hin|?]]; [| done | done].
  exists marker, (take nextPos content). split; [exact Hin|].
  unfold substringTo. rewrite <- take_take_drop. f_equal.
  apply startsWith_take. by eapply indexOf_starts.
Qed.

Lemma markerLoop_same fuel content len markers target : forall best pos w,
  best = pos ->
  let '(best', pos', _) := markerLoop fuel content len markers target best pos w in
  best' = pos'.
Proof.
  induction fuel as [|fuel IH]; intros best pos w Heq; cbn [markerLoop]; [done|].
  destruct (pos <? len)%nat; [|done].
  destruct (findNextMarker content markers pos) as [[nextPos marker]|]; [|done].
  cbv zeta. destruct (_ <=? _); [|done]. by apply IH.
Qed.

(** A position found for the paragraph, sentence or word boundary lies
    right behind one of the markers of that boundary. *)
Theorem split_position_behind_marker content target b :
  b <> character ->
  (0 < findSplitPosition content target b)%nat ->
  endsWithMarker (markersOf b) (take (findSplitPosition content target b) content).
Proof.
  intros Hb. unfold findSplitPosition, findSplitPositionW.
  assert (H : forall markers,
            let '(best, pos, w) :=
              markerLoop (S (length content)) content (length content) markers
                target 0 0 0 in
            (0 < fst ((if (0 <? best)%nat then best else pos), w))%nat ->
            (0 < best)%nat /\
            endsWithMarker markers
              (take (fst ((if (0 <? best)%nat then best else pos), w)) content)).
  { intros markers.
    pose proof (markerLoop_behind_marker (S (length content)) content (length content)
                  markers target 0%nat 0%nat 0 (or_introl eq_refl)) as Hm.
    pose proof (markerLoop_same (S (length content)) content (length content)
                  markers target 0%nat 0%nat 0 eq_refl) as Hs.
    destruct (markerLoop _ _ _ _ _ _ _ _) as [[best pos] w]. subst pos.
    cbn [fst]. destruct (Nat.ltb_spec 0 best); [|lia].
    intros _. split; [done|]. destruct Hm; [lia | done]. }
  destruct b; [| | |done].
  - specialize (H (markersOf paragraph)).
    destruct (markerLoop _ _ _ _ _ _ _ _) as [[best pos] w]. intros Hp. by apply H.
  - specialize (H (markersOf sentence)).
    destruct (markerLoop _ _ _ _ _ _ _ _) as [[best pos] w]. intros Hp. by apply H.
  - specialize (H (markersOf word)).
    destruct (markerLoop _ _ _ _ _ _ _ _) as [[best pos] w]. intros Hp. by apply H.
Qed.

Lemma split_position_behind_marker_witness :
  findSplitPosition (lit "One. Two. Three") 12 sentence = 10%nat /\
  endsWithMarker (markersOf sentence) (take 10 (lit "One. Two. Three")).
Proof.
  split; [vm_compute; reflexivity|].
  apply (split_position_behind_marker (lit "One. Two. Three") 12 sentence).
  - discriminate.
  - vm_compute. lia.
Defined.

End BoundaryFacts.

(** ** Manifest comment: embedding and stripping *)

Module EmbeddingFacts.
Import Js Hashing Manifest Pipeline Samples Predicates.

Lemma startsWith_app m r : startsWith (m ++ r) m = true.
Proof.
  induction m as [|c m IH]; [by destruct r|]. cbn [startsWith app].
  unfold unit_eqb. by rewrite Z.eqb_refl, IH.
Qed.

Lemma indexOfFrom_None_base s m : forall b b',
  indexOfFrom s m b = None -> indexOfFrom s m b' = None.
Proof.
  induction s as [|u s IH]; intros b b'; cbn [indexOfFrom].
  - by destruct (startsWith [] m).
  - destruct (startsWith (u :: s) m); [discriminate|]. apply IH.
Qed.

(** A text that does not include [m] has no suffix starting with [m]. *)
Lemma includes_false_suffix m : forall pre y,
  includes (pre ++ y) m = false -> startsWith y m = false.
Proof.
  unfold includes. induction pre as [|u pre IH]; intros y H.
  - cbn [app] in H. destruct y as [|v y]; cbn [indexOfFrom] in H.
    + by destruct (startsWith [] m).
    + by destruct (startsWith (v :: y) m).
  - cbn [app indexOfFrom] in H.
    destruct (startsWith (u :: pre ++ y) m); [discriminate|].
    apply IH. destruct (indexOfFrom (pre ++ y) m 1) eqn:E; [discriminate|].
    by rewrite (indexOfFrom_None_base _ _ 1%nat 0%nat E).
Qed.

(** A match of a pattern without line feed cannot run across a line feed. *)
Lemma startsWith_before_line_feed : forall m y t,
  Forall (fun c => c <> LF) m ->
  startsWith (y ++ LF :: t) m = true -> startsWith y m = true.
Proof.
  induction m as [|c m IH]; intros y t Hm H; [by destruct y|].
  inversion Hm as [|? ? Hc Hm']; subst.
  destruct y as [|d y]; cbn [app startsWith] in H |- *.
  - apply andb_true_iff in H as [H _]. unfold unit_eqb in H.
    apply Z.eqb_eq in H. done.
  - apply andb_true_iff in H as [H1 H2]. rewrite H1. cbn [andb]. by eapply IH.
Qed.

Lemma manifestOpen_no_line_feed : Forall (fun c => c <> LF) manifestOpen.
Proof. unfold manifestOpen. cbn. repeat constructor; discriminate. Qed.

(** Skipping line feeds stops inside a text that does not end in one. *)
Lemma skipLineFeeds_app x t :
  x <> [] -> last x <> Some LF ->
  exists pre y, x = pre ++ y /\ skipLineFeeds (x ++ t) = y ++ t.
Proof.
  induction x as [|u x IH]; intros Hne Hlast; [done|].
  cbn [app skipLineFeeds].
  destruct (Z.eqb_spec u LF) as [->|Hu].
  - destruct x as [|v x]; [done|].
    destruct IH as (pre & y & E & Hs); [done | by rewrite last_cons_cons in Hlast |].
    exists (LF :: pre), y. split; [by rewrite E | exact Hs].
  - by exists [], (u :: x).
Qed.

(** No match starts inside the content. *)
Lemma matchManifestAt_inside x json :
  x <> [] -> last x <> Some LF ->
  includes x manifestOpen = false ->
  matchManifestAt (x ++ manifestComment json) = None.
Proof.
  intros Hne Hlast Hinc. unfold matchManifestAt. cbv zeta.
  destruct (skipLineFeeds_app x (manifestComment json) Hne Hlast) as (pre & y & E & ->).
  subst x. apply includes_false_suffix in Hinc.
  destruct (startsWith (y ++ manifestComment json) manifestOpen) eqn:Es; [|done].
  unfold manifestComment in Es. cbn [app] in Es.
  apply startsWith_before_line_feed in Es; [congruence | apply manifestOpen_no_line_feed].
Qed.

Lemma manifestClose_units : manifestClose = [45; 45; 62].
Proof. reflexivity. Qed.

Lemma startsWith_closer_across u json :
  startsWith (u :: json) [45; 45; 62] = false ->
  startsWith (u :: json ++ [45; 45; 62]) [45; 45; 62] = false.
Proof.
  destruct json as [|a [|c json]]; cbn [app startsWith]; unfold unit_eqb.
  - intros _. by destruct (45 =? u).
  - intros _. by destruct (45 =? u), (45 =? a).
  - intros H. destruct json; cbn [app startsWith] in H |- *; exact H.
Qed.

(** The closer appended to a text without closer is the first one. *)
Lemma indexOfFrom_closer json : forall b,
  includes json manifestClose = false ->
  indexOfFrom (json ++ manifestClose) manifestClose b = Some (b + length json)%nat.
Proof.
  rewrite manifestClose_units.
  unfold includes. induction json as [|u json IH]; intros b H.
  - cbn. f_equal. lia.
  - cbn [indexOfFrom] in H.
    destruct (startsWith (u :: json) [45; 45; 62]) eqn:Es; [discriminate|].
    destruct (indexOfFrom json [45; 45; 62] 1) eqn:E; [discriminate|].
    apply (indexOfFrom_None_base _ _ 1%nat 0%nat) in E.
    cbn [app indexOfFrom].
    rewrite (startsWith_closer_across u json Es), IH by (by rewrite E).
    f_equal. cbn [length]. lia.
Qed.

(** The comment the pipeline appends is one match, with nothing after it. *)
Lemma matchManifestAt_comment json :
  includes json manifestClose = false ->
  matchManifestAt (manifestComment json) = Some [].
Proof.
  intros Hj. unfold matchManifestAt, manifestComment. cbv zeta.
  change (skipLineFeeds ([LF; LF] ++ lit "<!--ARCHIVE-MANIFEST:" ++ json ++ lit "-->"))
    with (manifestOpen ++ json ++ manifestClose).
  rewrite startsWith_app, (drop_app_length manifestOpen), indexOfFrom_closer by done.
  cbn [Nat.add]. rewrite <- length_app. by rewrite drop_all.
Qed.

Lemma stripLoop_nil fuel : stripLoop fuel [] = [].
Proof. by destruct fuel. Qed.

Lemma stripLoop_embedding json : includes json manifestClose = false ->
  forall x fuel,
    (length x < fuel)%nat ->
    x = [] \/ last x <> Some LF ->
    includes x manifestOpen = false ->
    stripLoop fuel (x ++ manifestComment json) = x.
Proof.
  intros Hj. induction x as [|u x IH]; intros fuel Hf Hlast Hinc.
  - destruct fuel as [|fuel]; [cbn in Hf; lia|].
    cbn [app stripLoop]. rewrite matchManifestAt_comment by done. apply stripLoop_nil.
  - destruct fuel as [|fuel]; [cbn in Hf; lia|]. cbn [length] in Hf.
    destruct Hlast as [|Hlast]; [done|].
    cbn [stripLoop].
    rewrite (matchManifestAt_inside (u :: x) json) by done.
    cbn [app]. f_equal. apply IH; [lia| |].
    + destruct x as [|v x]; [by left | right]. by rewrite last_cons_cons in Hlast.
    + apply (includes_false_suffix manifestOpen [u] x) in Hinc as Hs.
      unfold includes in *. cbn [indexOfFrom] in Hinc.
      destruct (startsWith (u :: x) manifestOpen); [discriminate|].
      destruct (indexOfFrom x manifestOpen 1) eqn:E; [discriminate|].
      by rewrite (indexOfFrom_None_base _ _ 1%nat 0%nat E).
Qed.

Lemma stripManifestComment_embedding (content json : jsstring) :
  includes content manifestOpen = false ->
  last content <> Some LF ->
  includes json manifestClose = false ->
  stripManifestComment (Str (content ++ manifestComment json)) = Str content.
Proof.
  intros Hc Hlast Hj. unfold stripManifestComment.
  assert (Ht : truthy (Str (content ++ manifestComment json)) = true).
  { unfold manifestComment. by destruct content. }
  rewrite Ht. f_equal. unfold stripManifestText.
  apply stripLoop_embedding; try done.
  - rewrite length_app. unfold manifestComment. cbn [app length]. lia.
  - by right.
Qed.

(** Stripping undoes the embedding: for a content that holds no comment
    opener and does not end in a line feed, and a compact manifest that
    holds no comment closer, stripping the body built for the post gives
    the content back. *)
Theorem strip_undoes_embedding (content json : jsstring) :
  includes content manifestOpen = false ->
  last content <> Some LF ->
  includes json manifestClose = false ->
  stripManifestComment (Str (content ++ manifestComment json)) = Str content.
Proof. apply stripManifestComment_embedding. Qed.

Lemma strip_undoes_embedding_witness :
  stripManifestComment (Str (lit "First part." ++ manifestComment (lit "{}")))
  = Str (lit "First part.").
Proof.
  apply (strip_undoes_embedding (lit "First part.") (lit "{}")).
  - vm_compute. reflexivity.
  - vm_compute. discriminate.
  - vm_compute. reflexivity.
Defined.

(** The body built for a part object strips back to the part's content. *)
Theorem payload_body_strips_to_content pf st n p payload :
  _generatePostPayload pf st n (contentOf (PartObject p)) = inr payload ->
  includes (Splitter.content p) manifestOpen = false ->
  last (Splitter.content p) <> Some LF ->
  includes (JSON_stringify pf (compactOf (manifest st) n)) manifestClose = false ->
  stripManifestComment (Str (pl_body payload)) = Str (Splitter.content p).
Proof.
  unfold _generatePostPayload, compactManifestForPost. cbv zeta.
  destruct (_ <? _); [discriminate|].
  cbn [contentOf interpolate].
  intros H Hc Hl Hj.
  assert (pl_body payload
          = Splitter.content p
            ++ manifestComment (JSON_stringify pf (compactOf (manifest st) n))) as ->.
  { destruct (n =? 1); [by injection H as <-|].
    destruct (negb (truthy (rootPermlink st))); [discriminate|]. by injection H as <-. }
  by apply stripManifestComment_embedding.
Qed.

Lemma payload_body_strips_to_content_witness :
  exists payload,
    _generatePostPayload samplePlatform sampleState 1
      (contentOf (PartObject (samplePart 1 (lit "Third part.")))) = inr payload /\
    stripManifestComment (Str (pl_body payload)) = Str (lit "Third part.").
Proof.
  destruct (_generatePostPayload samplePlatform sampleState 1
              (contentOf (PartObject (samplePart 1 (lit "Third part.")))))
    as [t|payload] eqn:E.
  - exfalso. revert E. vm_compute. discriminate.
  - exists payload. split; [reflexivity|].
    apply (payload_body_strips_to_content samplePlatform sampleState 1
             (samplePart 1 (lit "Third part.")) payload E).
    + vm_compute. reflexivity.
    + vm_compute. discriminate.
    + vm_compute. reflexivity.
Defined.

End EmbeddingFacts.

(** ** Stripping twice *)

Module IdempotenceFacts.
Import Js Hashing Samples Predicates.

(** *** Suffixes *)

Lemma skipLineFeeds_suffix s : exists pre, s = pre ++ skipLineFeeds s.
Proof.
  induction s as [|u s IH]; [by exists []|]. cbn [skipLineFeeds].
  destruct (u =? LF).
  - destruct IH as [pre E]. exists (u :: pre). cbn. by rewrite <- E.
  - by exists [].
Qed.

Lemma indexOfFrom_None_suffix m : forall pre z b b',
  indexOfFrom (pre ++ z) m b = None -> indexOfFrom z m b' = None.
Proof.
  induction pre as [|u pre IH]; intros z b b' H.
  - by apply (EmbeddingFacts.indexOfFrom_None_base z m b b').
  - cbn [app indexOfFrom] in H.
    destruct (startsWith (u :: pre ++ z) m); [discriminate|]. by eapply IH.
Qed.

Lemma hasSplitOpener_cons u s :
  hasSplitOpener (u :: s) = false -> hasSplitOpener s = false.
Proof. cbn [hasSplitOpener]. intros H. by apply orb_false_iff in H as [_ H]. Qed.

Lemma hasSplitOpener_suffix : forall pre z,
  hasSplitOpener (pre ++ z) = false -> hasSplitOpener z = false.
Proof.
  induction pre as [|u pre IH]; intros z H; [done|].
  apply IH. by apply (hasSplitOpener_cons u).
Qed.

Lemma hasSplitOpener_here i s :
  (1 <= i < length manifestOpen)%nat ->
  commentAfter i s = true -> hasSplitOpener s = true.
Proof.
  intros Hi Ho.
  assert (existsb (fun i => commentAfter i s) (seq 1 (length manifestOpen - 1)) = true) as E.
  { apply existsb_exists. exists i. split; [|done]. apply in_seq. lia. }
  destruct s; cbn [hasSplitOpener]; by rewrite E.
Qed.

(** *** What a match at the head of a text is *)

Lemma matchManifestAt_Some s rest :
  matchManifestAt s = Some rest ->
  startsWith (skipLineFeeds s) manifestOpen = true /\
  exists pre, s = pre ++ rest /\ pre <> [].
Proof.
  unfold matchManifestAt. cbv zeta.
  destruct (startsWith (skipLineFeeds s) manifestOpen) eqn:Es; [|discriminate].
  destruct (indexOfFrom _ _ _) as [k|]; [|discriminate].
  intros [= <-]. split; [done|].
  destruct (skipLineFeeds_suffix s) as [pre E].
  set (s1 := skipLineFeeds s) in *.
  exists (pre ++ take (length manifestOpen) s1
          ++ take (k + length manifestClose) (drop (length manifestOpen) s1)).
  split.
  - rewrite <- !app_assoc, take_drop, take_drop. exact E.
  - apply BoundaryFacts.startsWith_take in Es.
    intros Hnil. apply app_eq_nil in Hnil as [_ Hnil].
    apply app_eq_nil in Hnil as [Hnil _]. rewrite Es in Hnil. discriminate Hnil.
Qed.

Lemma matchManifestAt_line_feed s : matchManifestAt (LF :: s) = matchManifestAt s.
Proof. reflexivity. Qed.

Lemma matchManifestAt_no_closer s :
  indexOfFrom s manifestClose 0 = None -> matchManifestAt s = None.
Proof.
  intros H. unfold matchManifestAt. cbv zeta.
  destruct (startsWith _ _); [|done].
  destruct (skipLineFeeds_suffix s) as [pre E].
  rewrite E, <- (take_drop (length manifestOpen) (skipLineFeeds s)), app_assoc in H.
  by rewrite (indexOfFrom_None_suffix _ _ _ 0%nat 0%nat H).
Qed.

Lemma no_closer_clean : forall s,
  indexOfFrom s manifestClose 0 = None -> hasManifestComment s = false.
Proof.
  induction s as [|u s IH]; intros H; cbn [hasManifestComment];
    rewrite (matchManifestAt_no_closer _ H); [done|].
  apply IH. by apply (indexOfFrom_None_suffix manifestClose [u] s 0%nat 0%nat).
Qed.

(** Behind an opener whose comment is never closed nothing is removed. *)
Lemma opener_tail_clean w :
  indexOfFrom w manifestClose 0 = None ->
  hasManifestComment (drop 1 manifestOpen ++ w) = false.
Proof.
  intros H. change (hasManifestComment (drop 1 manifestOpen ++ w))
    with (hasManifestComment w). by apply no_closer_clean.
Qed.

(** *** An opener is not completed across a removed comment *)

Lemma opener_not_completed : forall pat i t fuel,
  drop i manifestOpen = pat ->
  (0 < i)%nat ->
  hasSplitOpener (take i manifestOpen ++ t) = false ->
  startsWith (stripLoop fuel t) pat = true ->
  startsWith t pat = true.
Proof.
  induction pat as [|c pat IH]; intros i t fuel Hd Hi Hsplit Hs; [by destruct t|].
  assert (i < length manifestOpen)%nat as Hlt.
  { destruct (decide (i < length manifestOpen)%nat); [done|].
    rewrite drop_ge in Hd by lia. discriminate Hd. }
  assert (matchManifestAt t = None) as Hm.
  { destruct (matchManifestAt t) as [rest|] eqn:E; [|done].
    rewrite (hasSplitOpener_here i) in Hsplit; [done | lia |].
    unfold commentAfter. rewrite EmbeddingFacts.startsWith_app.
    rewrite drop_app_length' by (rewrite length_take; lia). by rewrite E. }
  destruct fuel as [|fuel]; cbn [stripLoop] in Hs.
  - exact Hs.
  - rewrite Hm in Hs. destruct t as [|v t]; [discriminate Hs|].
    cbn [startsWith] in Hs |- *.
    apply andb_true_iff in Hs as [Hc Hs]. rewrite Hc. cbn [andb].
    unfold unit_eqb in Hc. apply Z.eqb_eq in Hc as <-.
    assert (manifestOpen !! i = Some c) as Hi'.
    { rewrite <- (Nat.add_0_r i), <- lookup_drop, Hd. reflexivity. }
    apply (IH (S i) t fuel).
    + rewrite (drop_S _ _ _ Hi') in Hd. by injection Hd.
    + lia.
    + rewrite (take_S_r _ _ _ Hi'), <- app_assoc. exact Hsplit.
    + exact Hs.
Qed.

(** *** Where no comment starts, none starts after stripping *)

Lemma stripLoop_head_kept : forall s fuel,
  matchManifestAt s = None ->
  hasSplitOpener s = false ->
  matchManifestAt (stripLoop fuel s) = None.
Proof.
  induction s as [|u s IH]; intros fuel Hm Hsplit; [by destruct fuel|].
  destruct fuel as [|fuel]; [exact Hm|].
  cbn [stripLoop]. rewrite Hm.
  destruct (Z.eqb_spec u LF) as [->|Hu].
  - rewrite matchManifestAt_line_feed in Hm |- *.
    apply IH; [exact Hm | by apply (hasSplitOpener_cons LF)].
  - assert (Hskip : forall z, skipLineFeeds (u :: z) = u :: z).
    { intros z. cbn [skipLineFeeds]. by destruct (Z.eqb_spec u LF). }
    destruct (startsWith (u :: stripLoop fuel s) manifestOpen) eqn:Es.
    2:{ unfold matchManifestAt. cbv zeta. by rewrite Hskip, Es. }
    assert (startsWith (u :: s) manifestOpen = true) as Hs.
    { change manifestOpen with (60 :: drop 1 manifestOpen) in Es |- *.
      cbn [startsWith] in Es |- *.
      apply andb_true_iff in Es as [Hc Es]. rewrite Hc. cbn [andb].
      unfold unit_eqb in Hc. apply Z.eqb_eq in Hc as <-.
      apply (opener_not_completed (drop 1 manifestOpen) 1 s fuel);
        [reflexivity | lia | exact Hsplit | exact Es]. }
    assert (indexOfFrom (drop (length manifestOpen) (u :: s)) manifestClose 0 = None)
      as Hclose.
    { unfold matchManifestAt in Hm. cbv zeta in Hm. rewrite Hskip, Hs in Hm.
      by destruct (indexOfFrom _ _ _). }
    rewrite (HashingFacts.stripLoop_clean fuel s); [exact Hm|].
    apply BoundaryFacts.startsWith_take in Hs.
    pose proof (take_drop (length manifestOpen) (u :: s)) as Hshape.
    rewrite Hs in Hshape.
    remember (drop (length manifestOpen) (u :: s)) as w eqn:Hw. clear Hw.
    change (manifestOpen ++ w) with (60 :: drop 1 manifestOpen ++ w) in Hshape.
    injection Hshape as _ <-. by apply opener_tail_clean.
Qed.

(** *** The stripped text holds no comment *)

Lemma stripLoop_leaves_clean : forall fuel s,
  (length s <= fuel)%nat ->
  hasSplitOpener s = false ->
  hasManifestComment (stripLoop fuel s) = false.
Proof.
  induction fuel as [|fuel IH]; intros s Hn Hsplit.
  - destruct s; [reflexivity | cbn in Hn; lia].
  - cbn [stripLoop].
    destruct (matchManifestAt s) as [rest|] eqn:Hm.
    + apply matchManifestAt_Some in Hm as (_ & pre & -> & Hpre).
      apply IH.
      * rewrite length_app in Hn. destruct pre; [done|]. cbn in Hn. lia.
      * by apply (hasSplitOpener_suffix pre).
    + destruct s as [|u s]; [reflexivity|].
      cbn [hasManifestComment].
      pose proof (stripLoop_head_kept (u :: s) (S fuel) Hm Hsplit) as Hk.
      cbn [stripLoop] in Hk. rewrite Hm in Hk. rewrite Hk.
      apply IH; [cbn in Hn; lia | by apply (hasSplitOpener_cons u)].
Qed.

Lemma stripManifestText_idempotent s :
  hasSplitOpener s = false ->
  stripManifestText (stripManifestText s) = stripManifestText s.
Proof.
  intros H. apply HashingFacts.stripManifestText_clean.
  by apply stripLoop_leaves_clean.
Qed.

(** The nested comment of [nestedMarker] is a split opener. *)
Lemma nestedMarker_split : hasSplitOpener nestedMarker = true.
Proof. vm_compute. reflexivity. Qed.

(** C10, for texts in which no opener is split: when no manifest comment
    stands directly behind a proper non-empty beginning of the opener
    [<!--ARCHIVE-MANIFEST:], stripping the stripped value again returns the
    same value.  The condition is on the argument alone; values that are
    not strings are returned as they are. *)
Theorem strip_idempotent_unsplit (x : jsval) :
  unsplitValue x ->
  stripManifestComment (stripManifestComment x) = stripManifestComment x.
Proof.
  destruct x as [| |s]; try reflexivity.
  destruct s as [|u s]; [reflexivity|].
  cbn [stripManifestComment truthy unsplitValue]. intros Hc.
  destruct (stripManifestText (u :: s)) as [|v t] eqn:E; [reflexivity|].
  cbn [stripManifestComment truthy]. f_equal. rewrite <- E.
  by apply stripManifestText_idempotent.
Qed.

Lemma strip_idempotent_unsplit_witness :
  unsplitValue (Str twoComments) /\
  stripManifestComment (Str twoComments) = Str (lit "abc") /\
  stripManifestComment (stripManifestComment (Str twoComments))
  = stripManifestComment (Str twoComments).
Proof.
  split; [vm_compute; reflexivity|].
  split; [vm_compute; reflexivity|].
  apply (strip_idempotent_unsplit (Str twoComments)). vm_compute. reflexivity.
Defined.

End IdempotenceFacts.

(** ** Hash engine: what is hashed, and what verification detects *)

Module DigestFacts.
Import Js Hashing Samples Predicates.

Section Loaded.
Context (env : HashEnv) (md5f : jsstring -> jsstring).
Hypothesis md5_loaded : md5lib env = Some md5f.

Lemma hashString_loaded input :
  hashString env input = HOk (digestOf env md5f input).
Proof. unfold hashString. by rewrite md5_loaded. Qed.

Lemma hashParts_loaded parts : forall i,
  hashParts env i parts
  = HOk (imap (fun j p => mkPartHash (i + Z.of_nat j + 1) (digestOf env md5f p)) parts).
Proof.
  induction parts as [|p parts IH]; intros i; cbn [hashParts imap]; [done|].
  rewrite hashString_loaded, IH. f_equal. f_equal.
  - f_equal. lia.
  - apply imap_ext. intros j q _. cbn. f_equal. lia.
Qed.

Lemma hashMultiPartContent_loaded parts :
  parts <> [] ->
  hashMultiPartContent env parts
  = HOk (mkHashes
           (imap (fun j p => mkPartHash (Z.of_nat j + 1) (digestOf env md5f p)) parts)
           (HashObject (digestOf env md5f (concat parts)))).
Proof.
  intros Hne. unfold hashMultiPartContent. destruct parts as [|p parts]; [done|].
  rewrite hashParts_loaded, hashString_loaded. do 3 f_equal.
Qed.

Lemma verifyParts_lookup : forall actual expected i j a e,
  actual !! j = Some a -> expected !! j = Some e ->
  verifyParts i actual expected !! j
  = Some (mkPartVerification (i + Z.of_nat j + 1)
            (allMatch (compareTriples (hashes a) (hashes e)))
            (compareTriples (hashes a) (hashes e))).
Proof.
  induction actual as [|a0 actual IH]; intros expected i j a e Ha He;
    [by rewrite lookup_nil in Ha|].
  destruct expected as [|e0 expected]; [by rewrite lookup_nil in He|].
  cbn [verifyParts]. destruct j as [|j].
  - injection Ha as <-. injection He as <-.
    change (Z.of_nat 0) with 0. by rewrite Z.add_0_r.
  - etrans; [exact (IH expected (i + 1) j a e Ha He)|]. do 2 f_equal. lia.
Qed.

End Loaded.

Lemma verifyParts_length : forall (a e : list PartHash) i,
  length a = length e -> length (verifyParts i a e) = length a.
Proof.
  induction a as [|a0 a IH]; intros [|e0 e] i Hl; cbn [verifyParts length] in *;
    try done.
  rewrite IH; lia.
Qed.

(** The hashes of a non-empty list of parts: one entry per part, numbered
    from 1, holding the digests of that part, and the digests of the
    concatenation of all parts. *)
Theorem hashMultiPartContent_digests (env : HashEnv) (parts : list jsstring)
    (md5f : jsstring -> jsstring) :
  md5lib env = Some md5f -> parts <> [] ->
  exists hs full,
    hashMultiPartContent env parts = HOk (mkHashes hs (HashObject full)) /\
    length hs = length parts /\
    (forall j p, parts !! j = Some p ->
       hs !! j = Some (mkPartHash (Z.of_nat j + 1)
                         (mkTriple (Str (sha256Hex env p))
                            (blake2b (digestOf env md5f p)) (Str (md5f p))))) /\
    sha256 full = Str (sha256Hex env (concat parts)) /\
    md5 full = Str (md5f (concat parts)).
Proof.
  intros Hmd5 Hne. eexists _, _.
  split; [by apply hashMultiPartContent_loaded|].
  split; [by rewrite length_imap|]. split; [|done].
  intros j p Hj. rewrite list_lookup_imap, Hj. reflexivity.
Qed.

Lemma hashMultiPartContent_digests_witness :
  exists hs full,
    hashMultiPartContent sampleEnv sampleTexts = HOk (mkHashes hs (HashObject full)) /\
    length hs = 3%nat /\
    sha256 full = Str (lit "sha256:First part. Second part. Third part.").
Proof.
  destruct (hashMultiPartContent_digests sampleEnv sampleTexts
              (fun s => lit "md5:" ++ s) eq_refl) as (hs & full & H1 & H2 & _ & H4 & _).
  - discriminate.
  - exists hs, full. split; [exact H1|]. split; [exact H2 | exact H4].
Defined.

(** Hashing fails exactly for an empty list of parts and when the MD5
    library is missing. *)
Theorem hashMultiPartContent_fails (env : HashEnv) (parts : list jsstring) (e : HashError) :
  hashMultiPartContent env parts = HThrow e <->
  (parts = [] /\ e = EmptyContentParts) \/
  (parts <> [] /\ md5lib env = None /\ e = Md5NotLoaded).
Proof.
  destruct parts as [|p parts].
  - cbn. split.
    + intros [= <-]. by left.
    + intros [[_ ->]|[? _]]; done.
  - destruct (md5lib env) as [md5f|] eqn:Hmd5.
    + rewrite (hashMultiPartContent_loaded env md5f Hmd5) by done. split; [done|].
      intros [[? _]|(_ & ? & _)]; done.
    + cbn [hashMultiPartContent hashParts]. unfold hashString. rewrite Hmd5. split.
      * intros [= <-]. by right.
      * intros [[? _]|(_ & _ & ->)]; done.
Qed.

(** Verification against hashes of another number of parts reports the
    count mismatch and compares nothing. *)
Theorem verify_reports_count_mismatch (env : HashEnv) (parts : list jsstring)
    (expected : MultiPartHashes) :
  parts <> [] -> is_Some (md5lib env) ->
  length (partHashes expected) <> length parts ->
  verifyMultiPartContent env parts expected
  = HOk (PartCountMismatch (length (partHashes expected)) (length parts)).
Proof.
  intros Hne [md5f Hmd5] Hlen. unfold verifyMultiPartContent.
  rewrite (hashMultiPartContent_loaded env md5f Hmd5) by done.
  cbn [partHashes]. rewrite length_imap.
  destruct (Nat.eqb_spec (length parts) (length (partHashes expected))); [lia|].
  reflexivity.
Qed.

Lemma verify_reports_count_mismatch_witness :
  verifyMultiPartContent sampleEnv (take 2 sampleTexts) sampleHashes
  = HOk (PartCountMismatch 3 2).
Proof.
  apply (verify_reports_count_mismatch sampleEnv (take 2 sampleTexts) sampleHashes).
  - discriminate.
  - eexists. reflexivity.
  - vm_compute. discriminate.
Defined.

(** A changed part is detected: when the texts have as many parts as the
    hashes were made from and some part has another SHA-256 digest than
    the part it replaces, verification reports invalid and marks that part. *)
Theorem verify_detects_changed_part (env : HashEnv) (original changed : list jsstring)
    (hashes : MultiPartHashes) (j : nat) (a b : jsstring) :
  hashMultiPartContent env original = HOk hashes ->
  length changed = length original ->
  original !! j = Some a -> changed !! j = Some b ->
  sha256Hex env b <> sha256Hex env a ->
  exists pvs fullMatches fullValid pv,
    verifyMultiPartContent env changed hashes
      = HOk (Verification false pvs fullMatches false fullValid) /\
    pvs !! j = Some pv /\ pv_partNumber pv = Z.of_nat j + 1 /\ pv_valid pv = false.
Proof.
  intros Hh Hlen Ha Hb Hne.
  assert (original <> []) as Ho by (intros ->; by rewrite lookup_nil in Ha).
  assert (changed <> []) as Hc by (intros ->; by rewrite lookup_nil in Hb).
  destruct (md5lib env) as [md5f|] eqn:Hmd5.
  2:{ destruct original; [done|]. cbn in Hh. unfold hashString in Hh.
      by rewrite Hmd5 in Hh. }
  rewrite (hashMultiPartContent_loaded env md5f Hmd5) in Hh by done.
  injection Hh as <-.
  unfold verifyMultiPartContent.
  rewrite (hashMultiPartContent_loaded env md5f Hmd5) by done.
  cbn [partHashes fullContentHash]. rewrite !length_imap, Hlen, Nat.eqb_refl.
  cbn [negb].
  set (actual := imap _ changed). set (expected := imap _ original).
  assert (Hpv : verifyParts 0 actual expected !! j
                = Some (mkPartVerification (Z.of_nat j + 1) false
                          (compareTriples (digestOf env md5f b) (digestOf env md5f a)))).
  { rewrite (verifyParts_lookup actual expected 0 j
               (mkPartHash (Z.of_nat j + 1) (digestOf env md5f b))
               (mkPartHash (Z.of_nat j + 1) (digestOf env md5f a))).
    - cbn [hashes]. do 2 f_equal.
      unfold allMatch, compareTriples, digestOf. cbn.
      unfold strictEq at 1. rewrite bool_decide_eq_false_2; [done|].
      intros [= E]. done.
    - unfold actual. by rewrite list_lookup_imap, Hb.
    - unfold expected. by rewrite list_lookup_imap, Ha. }
  assert (Hall : forallb pv_valid (verifyParts 0 actual expected) = false).
  { apply not_true_is_false. intros Hall. rewrite forallb_forall in Hall.
    specialize (Hall _ (proj1 (list_elem_of_In _ _) (list_elem_of_lookup_2 _ _ _ Hpv))).
    discriminate Hall. }
  destruct (verifyFullHash _ _) as [fullMatches fullValid].
  rewrite Hall. cbn [andb].
  eexists _, _, _, _. split; [reflexivity|]. split; [exact Hpv|]. done.
Qed.

Lemma verify_detects_changed_part_witness :
  exists pvs fullMatches fullValid pv,
    verifyMultiPartContent sampleEnv
      [lit "First part. "; lit "Another part. "; lit "Third part."] sampleHashes
      = HOk (Verification false pvs fullMatches false fullValid) /\
    pvs !! 1%nat = Some pv /\ pv_partNumber pv = 2 /\ pv_valid pv = false.
Proof.
  apply (verify_detects_changed_part sampleEnv sampleTexts
           [lit "First part. "; lit "Another part. "; lit "Third part."]
           sampleHashes 1 (lit "Second part. ") (lit "Another part. ")).
  - vm_compute. reflexivity.
  - reflexivity.
  - reflexivity.
  - reflexivity.
  - vm_compute. discriminate.
Defined.

(** Hashes in the legacy layout, a SHA-256 digest per part and a bare
    SHA-256 string for the whole content, verify the content they were
    made from. *)
Theorem verify_accepts_legacy_hashes (env : HashEnv) (parts : list jsstring) :
  parts <> [] -> is_Some (md5lib env) ->
  exists pvs,
    verifyMultiPartContent env parts
      (mkHashes
         (imap (fun j p => mkPartHash (Z.of_nat j + 1)
                             (mkTriple (Str (sha256Hex env p)) Undefined Undefined))
            parts)
         (LegacyHash (sha256Hex env (concat parts))))
    = HOk (Verification true pvs (mkMatches true None None) true true) /\
    length pvs = length parts.
Proof.
  intros Hne [md5f Hmd5]. unfold verifyMultiPartContent.
  rewrite (hashMultiPartContent_loaded env md5f Hmd5) by done.
  cbn [partHashes fullContentHash verifyFullHash]. rewrite !length_imap, Nat.eqb_refl.
  cbn [negb].
  set (actual := imap _ parts). set (expected := imap _ parts).
  assert (Hv : forall j pv, verifyParts 0 actual expected !! j = Some pv ->
                 pv_valid pv = true).
  { intros j pv Hpv.
    assert (j < length parts)%nat as Hj.
    { apply lookup_lt_Some in Hpv.
      rewrite verifyParts_length in Hpv; unfold actual, expected in *;
        rewrite ?length_imap in *; done. }
    destruct (lookup_lt_is_Some_2 parts j Hj) as [p Hp].
    rewrite (verifyParts_lookup actual expected 0 j
               (mkPartHash (Z.of_nat j + 1) (digestOf env md5f p))
               (mkPartHash (Z.of_nat j + 1)
                  (mkTriple (Str (sha256Hex env p)) Undefined Undefined))) in Hpv.
    - injection Hpv as <-. cbn.
      unfold allMatch, compareTriples, strictEq. cbn.
      by rewrite bool_decide_eq_true_2.
    - unfold actual. by rewrite list_lookup_imap, Hp.
    - unfold expected. by rewrite list_lookup_imap, Hp. }
  assert (Hall : forallb pv_valid (verifyParts 0 actual expected) = true).
  { apply forallb_forall. intros pv Hin. apply list_elem_of_In in Hin.
    apply list_elem_of_lookup_1 in Hin as [j Hj]. by eapply Hv. }
  assert (Hlen : length (verifyParts 0 actual expected) = length parts).
  { rewrite verifyParts_length; unfold actual, expected; by rewrite !length_imap. }
  rewrite Hall. unfold strictEq, digestOf. cbn [sha256].
  rewrite bool_decide_eq_true_2 by done.
  eexists. split; [reflexivity | exact Hlen].
Qed.

Lemma verify_accepts_legacy_hashes_witness :
  exists pvs,
    verifyMultiPartContent sampleEnv sampleTexts
      (mkHashes
         (imap (fun j p => mkPartHash (Z.of_nat j + 1)
                             (mkTriple (Str (sha256Hex sampleEnv p)) Undefined Undefined))
            sampleTexts)
         (LegacyHash (sha256Hex sampleEnv (concat sampleTexts))))
    = HOk (Verification true pvs (mkMatches true None None) true true) /\
    length pvs = length sampleTexts.
Proof.
  apply (verify_accepts_legacy_hashes sampleEnv sampleTexts).
  - discriminate.
  - eexists. reflexivity.
Defined.

End DigestFacts.

(** ** Series manifest *)

Module ManifestFacts.
Import Js Hashing Manifest Samples Predicates.

(** *** [validateManifest] *)

Lemma checkParts_None ps : forall index,
  checkParts index ps = None ->
  forall j p, ps !! j = Some p ->
    pr_part_number p = index + Z.of_nat j + 1 /\
    validStatus (status p) = true /\
    partInvariant p.
Proof.
  induction ps as [|q ps IH]; intros index Hc j p Hj; [by rewrite lookup_nil in Hj|].
  cbn [checkParts] in Hc.
  destruct (pr_part_number q =? 0); [discriminate|].
  destruct (Z.eqb_spec (pr_part_number q) (index + 1)); [|discriminate]. cbn [negb] in Hc.
  destruct (statusTruthy (status q)); [|discriminate]. cbn [negb] in Hc.
  destruct (validStatus (status q)) eqn:Hv; [|discriminate]. cbn [negb] in Hc.
  destruct (bool_decide (status q = StPosted) && negb (truthy (permlink q))) eqn:Hp;
    [discriminate|].
  destruct (bool_decide (status q = StPosted) && negb (truthy (Manifest.author q))) eqn:Ha;
    [discriminate|].
  destruct j as [|j]; cbn in Hj.
  - injection Hj as <-. split; [lia|]. split; [done|].
    intros Hst. rewrite bool_decide_eq_true_2 in Hp, Ha by done.
    cbn [andb] in Hp, Ha. split; by apply negb_false_iff.
  - destruct (IH (index + 1) Hc j p Hj) as (Hn & Hv' & Hi).
    split; [lia|]. done.
Qed.

Lemma checkPartHashes_None hs : forall index,
  checkPartHashes index hs = None ->
  forall j h, hs !! j = Some h ->
    part_number h = index + Z.of_nat j + 1 /\ truthy (sha256 (hashes h)) = true.
Proof.
  induction hs as [|q hs IH]; intros index Hc j h Hj; [by rewrite lookup_nil in Hj|].
  cbn [checkPartHashes] in Hc.
  destruct (part_number q =? 0); [discriminate|]. cbn [orb] in Hc.
  destruct (truthy (sha256 (hashes q))) eqn:Ht; [|discriminate]. cbn [negb] in Hc.
  destruct (Z.eqb_spec (part_number q) (index + 1)); [|discriminate]. cbn [negb] in Hc.
  destruct j as [|j]; cbn in Hj.
  - injection Hj as <-. split; [lia|done].
  - destruct (IH (index + 1) Hc j h Hj). split; [lia|done].
Qed.

Lemma validateManifest_inv m b :
  validateManifest m = MOk b ->
  b = true /\
  uuidRegexTest (series_id m) = true /\
  1 <= total_parts m <= 100 /\
  Z.of_nat (length (parts m)) = total_parts m /\
  Z.of_nat (length (part_hashes m)) = total_parts m /\
  checkPartHashes 0 (part_hashes m) = None /\
  checkParts 0 (parts m) = None.
Proof.
  unfold validateManifest.
  destruct (checkRequired m); [discriminate|].
  destruct (uuidRegexTest (series_id m)); [|discriminate]. cbn [negb].
  destruct (Z.ltb_spec (total_parts m) 1); [discriminate|].
  destruct (Z.ltb_spec 100 (total_parts m)); [discriminate|]. cbn [orb].
  destruct (Z.eqb_spec (Z.of_nat (length (parts m))) (total_parts m)); [|discriminate].
  cbn [negb].
  destruct (match content_hash_full m with
            | LegacyHash _ => false
            | HashObject h => negb (truthy (sha256 h))
            end); [discriminate|].
  destruct (Z.eqb_spec (Z.of_nat (length (part_hashes m))) (total_parts m)); [|discriminate].
  cbn [negb].
  destruct (checkPartHashes 0 (part_hashes m)); [discriminate|].
  destruct (checkParts 0 (parts m)); [discriminate|].
  destruct (_ && _); [discriminate|].
  intros [= <-]. repeat split; (done || lia).
Qed.

Lemma validateManifest_invariant m b :
  validateManifest m = MOk b ->
  1 <= total_parts m <= 100 /\
  Z.of_nat (length (parts m)) = total_parts m /\
  manifestInvariant m.
Proof.
  intros H. apply validateManifest_inv in H as (_ & _ & Ht & Hp & _ & _ & Hcp).
  split; [done|]. split; [done|].
  apply Forall_lookup. intros j p Hj.
  by destruct (checkParts_None _ 0 Hcp j p Hj) as (_ & _ & ?).
Qed.

Lemma sampleManifest_valid : validateManifest sampleManifest = MOk true.
Proof. vm_compute. reflexivity. Qed.

Lemma sampleManifest_invariant : manifestInvariant sampleManifest.
Proof.
  by destruct (validateManifest_invariant _ _ sampleManifest_valid) as (_ & _ & ?).
Qed.

(** A manifest that passes validation has between 1 and 100 parts, as many
    part records and part hashes as parts, both numbered from 1 in order,
    a well-formed series id, and every part marked posted carries a
    permlink and an author. *)
Theorem validated_manifest_wellformed (m : SeriesManifest) (b : bool) :
  validateManifest m = MOk b ->
  b = true /\
  uuidRegexTest (series_id m) = true /\
  1 <= total_parts m <= 100 /\
  Z.of_nat (length (parts m)) = total_parts m /\
  Z.of_nat (length (part_hashes m)) = total_parts m /\
  (forall j p, parts m !! j = Some p ->
     pr_part_number p = Z.of_nat j + 1 /\ validStatus (status p) = true) /\
  (forall j h, part_hashes m !! j = Some h ->
     part_number h = Z.of_nat j + 1 /\ truthy (sha256 (hashes h)) = true) /\
  manifestInvariant m.
Proof.
  intros H. pose proof (validateManifest_invariant m b H) as (_ & _ & Hinv).
  apply validateManifest_inv in H as (Hb & Hu & Ht & Hp & Hh & Hch & Hcp).
  split; [done|]. split; [done|]. split; [done|]. split; [done|]. split; [done|].
  split; [|split; [|done]].
  - intros j p Hj. by destruct (checkParts_None _ 0 Hcp j p Hj) as (-> & ? & _).
  - intros j h Hj. by destruct (checkPartHashes_None _ 0 Hch j h Hj) as (-> & ?).
Qed.

Lemma validated_manifest_wellformed_witness :
  validateManifest sampleManifest = MOk true /\
  1 <= total_parts sampleManifest <= 100 /\
  manifestInvariant sampleManifest.
Proof.
  split; [vm_compute; reflexivity|].
  destruct (validated_manifest_wellformed sampleManifest true)
    as (_ & _ & H1 & _ & _ & _ & _ & H6).
  - vm_compute. reflexivity.
  - split; [exact H1 | exact H6].
Defined.

(** Validation rejects a part count outside 1..100, a [parts] array of
    another length, and a part marked posted without its permlink or
    without its author. *)
Theorem validateManifest_rejects (m : SeriesManifest) :
  total_parts m < 1 \/ 100 < total_parts m
  \/ Z.of_nat (length (parts m)) <> total_parts m
  \/ (exists p, p ∈ parts m /\ status p = StPosted /\
                (truthy (permlink p) = false \/ truthy (Manifest.author p) = false)) ->
  exists e, validateManifest m = MThrow e.
Proof.
  intros Hbad. destruct (validateManifest m) as [b|e] eqn:E; [|eauto].
  exfalso. apply validateManifest_invariant in E as (Ht & Hp & Hinv).
  destruct Hbad as [?|[?|[?|(p & Hin & Hst & Hpl)]]]; try lia.
  unfold manifestInvariant in Hinv. rewrite Forall_forall in Hinv.
  destruct (Hinv p Hin Hst) as [Hperm Hau]. destruct Hpl; congruence.
Qed.

Lemma validateManifest_rejects_witness :
  exists e, validateManifest
              (setParts sampleManifest
                 (mkPartRecord 1 Null (Str (lit "alice")) StPosted Undefined
                  :: drop 1 (parts sampleManifest))) = MThrow e.
Proof.
  apply validateManifest_rejects. right. right. right.
  eexists. split; [apply list_elem_of_here|]. split; [reflexivity|].
  left. reflexivity.
Defined.

(** *** [createManifest] *)

Lemma freshParts_lookup total author j p :
  freshParts total author !! j = Some p ->
  p = mkPartRecord (Z.of_nat j + 1) Null author StPending Undefined.
Proof.
  unfold freshParts. rewrite list_lookup_fmap.
  destruct (seq 0 (Z.to_nat total) !! j) as [i|] eqn:E; [|discriminate].
  apply lookup_seq in E as [-> _]. by intros [= <-].
Qed.

(** Without caller-supplied part records a created manifest has exactly
    [totalParts] records, numbered from 1, all pending and without permlink,
    and an unset root permlink. *)
Theorem createManifest_fresh (pf : Platform) (config : ManifestConfig) (m : SeriesManifest) :
  cfg_parts config = None ->
  createManifest pf config = MOk m ->
  total_parts m = cfg_totalParts config /\
  Z.of_nat (length (parts m)) = total_parts m /\
  Z.of_nat (length (part_hashes m)) = total_parts m /\
  root_permlink m = Null /\
  (forall j p, parts m !! j = Some p ->
     pr_part_number p = Z.of_nat j + 1 /\ status p = StPending /\ permlink p = Null) /\
  manifestInvariant m.
Proof.
  intros Hnone. unfold createManifest. rewrite Hnone.
  destruct (cfg_contentHashFull config) as [hashFull|]; [|discriminate].
  destruct (cfg_partHashes config) as [hs|]; [|discriminate].
  destruct (_ || _); [discriminate|].
  destruct (Z.eqb_spec (Z.of_nat (length hs)) (cfg_totalParts config)); [|discriminate].
  cbn [negb].
  destruct (_ || _); [discriminate|].
  intros [= <-]. unfold buildManifest. cbn.
  repeat split.
  - unfold freshParts. rewrite length_map, length_seq. lia.
  - done.
  - by apply freshParts_lookup in H as ->.
  - by apply freshParts_lookup in H as ->.
  - by apply freshParts_lookup in H as ->.
  - apply Forall_lookup. intros j p Hj. apply freshParts_lookup in Hj as ->.
    intros Hst. discriminate Hst.
Qed.

Lemma createManifest_fresh_witness :
  total_parts sampleManifest = 3 /\
  root_permlink sampleManifest = Null /\
  manifestInvariant sampleManifest.
Proof.
  destruct (createManifest_fresh samplePlatform sampleConfig sampleManifest)
    as (H1 & _ & _ & H4 & _ & H6).
  - reflexivity.
  - vm_compute. reflexivity.
  - split; [exact H1|]. split; [exact H4 | exact H6].
Defined.

(** *** [updateManifestWithPost] *)

(** A part number outside [1..total_parts] is refused and nothing is written. *)
Theorem updateManifestWithPost_out_of_range pf m n info :
  n < 1 \/ total_parts m < n ->
  updateManifestWithPost pf m n info = InvalidPartNumber n.
Proof.
  intros H. unfold updateManifestWithPost. cbv zeta.
  destruct (Z.ltb_spec (n - 1) 0); [done|].
  destruct (Z.leb_spec (total_parts m) (n - 1)); [done|]. lia.
Qed.

Lemma updateManifestWithPost_out_of_range_witness :
  updateManifestWithPost samplePlatform sampleManifest 4
    (mkPostInfo (Str (lit "x")) (Str (lit "alice"))) = InvalidPartNumber 4.
Proof.
  apply updateManifestWithPost_out_of_range. right. vm_compute. reflexivity.
Defined.

(** In range, exactly the record of that part is replaced by a posted
    record with the given locators; the manifest keeps its invariant when
    both locators are present. *)
Theorem updateManifestWithPost_in_range pf m n info :
  1 <= n <= total_parts m ->
  Z.of_nat (length (parts m)) = total_parts m ->
  exists m',
    updateManifestWithPost pf m n info = Updated m' /\
    total_parts m' = total_parts m /\
    length (parts m') = length (parts m) /\
    parts m' !! Z.to_nat (n - 1)
      = Some (mkPartRecord n (pi_permlink info) (pi_author info) StPosted
                (Str (nowISO pf))) /\
    (forall j, j <> Z.to_nat (n - 1) -> parts m' !! j = parts m !! j) /\
    (manifestInvariant m ->
     truthy (pi_permlink info) = true -> truthy (pi_author info) = true ->
     manifestInvariant m').
Proof.
  intros Hn Hlen. unfold updateManifestWithPost. cbv zeta.
  destruct (Z.ltb_spec (n - 1) 0); [lia|].
  destruct (Z.leb_spec (total_parts m) (n - 1)); [lia|]. cbn [orb].
  unfold arrayStore. case_decide; [|lia].
  eexists. split; [reflexivity|]. cbn [parts setParts total_parts].
  split; [done|]. split; [by rewrite length_insert|].
  split; [by apply list_lookup_insert_eq|].
  split; [intros j Hj; by apply list_lookup_insert_ne|].
  intros Hinv Hp Ha. unfold manifestInvariant in *. cbn [parts setParts].
  apply Forall_insert; [done|]. by intros _.
Qed.

Lemma updateManifestWithPost_in_range_witness :
  exists m',
    updateManifestWithPost samplePlatform sampleManifest 2
      (mkPostInfo (Str (lit "permlink-1")) (Str (lit "alice"))) = Updated m' /\
    manifestInvariant m'.
Proof.
  destruct (updateManifestWithPost_in_range samplePlatform sampleManifest 2
              (mkPostInfo (Str (lit "permlink-1")) (Str (lit "alice"))))
    as (m' & Hu & _ & _ & _ & _ & Hinv).
  - vm_compute. split; discriminate.
  - vm_compute. reflexivity.
  - exists m'. split; [exact Hu|]. apply Hinv; [|reflexivity|reflexivity].
    exact sampleManifest_invariant.
Defined.

Lemma checkParts_intro ps : forall index,
  0 <= index ->
  (forall j p, ps !! j = Some p ->
     pr_part_number p = index + Z.of_nat j + 1 /\
     validStatus (status p) = true /\
     partInvariant p) ->
  checkParts index ps = None.
Proof.
  induction ps as [|q ps IH]; intros index Hi H; [reflexivity|].
  cbn [checkParts].
  destruct (H 0%nat q eq_refl) as (Hn & Hv & Hinv).
  change (Z.of_nat 0) with 0 in Hn.
  destruct (Z.eqb_spec (pr_part_number q) 0); [lia|].
  destruct (Z.eqb_spec (pr_part_number q) (index + 1)); [|lia]. cbn [negb].
  assert (statusTruthy (status q) = true) as -> by (by destruct (status q)).
  rewrite Hv. cbn [negb].
  assert (bool_decide (status q = StPosted) && negb (truthy (permlink q)) = false
          /\ bool_decide (status q = StPosted) && negb (truthy (Manifest.author q)) = false)
    as [-> ->].
  { case_bool_decide as Hst; [|done].
    destruct (Hinv Hst) as [-> ->]. done. }
  apply IH; [lia|]. intros j p Hj.
  destruct (H (S j) p Hj) as (Hn' & ? & ?). split; [lia|done].
Qed.

Lemma validateManifest_setParts m ps b :
  validateManifest m = MOk b ->
  length ps = length (parts m) ->
  checkParts 0 ps = None ->
  validateManifest (setParts m ps) = MOk true.
Proof.
  destruct m. unfold validateManifest, checkRequired, setParts.
  cbn [Manifest.series_id Manifest.version Manifest.total_parts
       Manifest.content_hash_full Manifest.source_url Manifest.parts
       Manifest.part_hashes Manifest.architecture].
  intros Hv Hlen Hcp. rewrite Hlen, Hcp.
  repeat match type of Hv with
         | (if ?c then _ else _) = _ => destruct c; [discriminate Hv|]
         | match (if ?c then _ else _) with _ => _ end = _ =>
             destruct c; [discriminate Hv|]
         | match ?c with Some _ => _ | None => _ end = _ =>
             destruct c; [discriminate Hv|]
         end.
  reflexivity.
Qed.

(** Posting a part with both locators keeps a valid manifest valid. *)
Theorem updateManifestWithPost_keeps_valid pf m n info b :
  validateManifest m = MOk b ->
  1 <= n <= total_parts m ->
  truthy (pi_permlink info) = true ->
  truthy (pi_author info) = true ->
  exists m',
    updateManifestWithPost pf m n info = Updated m' /\
    validateManifest m' = MOk true.
Proof.
  intros Hv Hn Hp Ha.
  pose proof (validateManifest_inv m b Hv) as (_ & _ & _ & Hlen & _ & _ & Hcp).
  unfold updateManifestWithPost. cbv zeta.
  destruct (Z.ltb_spec (n - 1) 0); [lia|].
  destruct (Z.leb_spec (total_parts m) (n - 1)); [lia|]. cbn [orb].
  unfold arrayStore. case_decide; [|lia].
  eexists. split; [reflexivity|].
  apply (validateManifest_setParts m _ b Hv); [by rewrite length_insert|].
  apply checkParts_intro; [lia|]. intros j p Hj.
  destruct (decide (j = Z.to_nat (n - 1))) as [->|Hne].
  - rewrite list_lookup_insert_eq in Hj by lia. injection Hj as <-.
    cbn. split; [lia|]. split; [done|]. by intros _.
  - rewrite list_lookup_insert_ne in Hj by done.
    destruct (checkParts_None _ 0 Hcp j p Hj) as (? & ? & ?). done.
Qed.

Lemma updateManifestWithPost_keeps_valid_witness :
  exists m',
    updateManifestWithPost samplePlatform sampleManifest 2
      (mkPostInfo (Str (lit "permlink-1")) (Str (lit "alice"))) = Updated m' /\
    validateManifest m' = MOk true.
Proof.
  apply (updateManifestWithPost_keeps_valid samplePlatform sampleManifest 2
           (mkPostInfo (Str (lit "permlink-1")) (Str (lit "alice"))) true).
  - vm_compute. reflexivity.
  - vm_compute. split; discriminate.
  - reflexivity.
  - reflexivity.
Defined.

(** *** [compactManifestForPost] *)

(** The compact manifest is the platform's serialisation when it has at
    most 16384 code units, and an error otherwise. *)
Lemma compactManifestForPost_limit pf m n :
  match compactManifestForPost pf m n with
  | CompactJson json =>
      json = JSON_stringify pf (compactOf m n) /\ Z.of_nat (length json) <= 16384
  | ManifestTooLarge size =>
      size = length (JSON_stringify pf (compactOf m n)) /\ 16384 < Z.of_nat size
  end.
Proof.
  unfold compactManifestForPost. cbv zeta.
  destruct (Z.ltb_spec MANIFEST_SIZE_LIMIT
              (Z.of_nat (length (JSON_stringify pf (compactOf m n)))));
    (split; [reflexivity|]); unfold MANIFEST_SIZE_LIMIT in *; lia.
Qed.

End ManifestFacts.

(** ** Resume verifier *)

Module VerifierFacts.
Import Js Hashing Manifest Verifier Samples Predicates.

Lemma truthy_app_r (a b : jsstring) : b <> [] -> truthy (Str (a ++ b)) = true.
Proof. destruct a, b; done. Qed.

(** What the verifier does with a fetched, non-empty body: it hashes the
    body as fetched and compares the primary digests. *)
Lemma checkPostedPart_fetched env f fetch hs i part expected body digest results :
  md5lib env = Some f ->
  fetch (author part) (permlink part) = Post (Str body) ->
  body <> [] ->
  hs !! i = Some expected ->
  sha256 (hashes expected) = Str digest ->
  checkPostedPart env fetch (Some hs) i part results =
    if bool_decide (sha256Hex env body = digest)
    then pushVerified results (pr_part_number part)
    else pushFailed results (pr_part_number part).
Proof.
  intros Hmd5 Hfetch Hbody Hexp Hsha. unfold checkPostedPart.
  rewrite Hfetch. destruct body as [|u body]; [done|]. cbn [truthy negb].
  cbn [mbind option_bind]. rewrite Hexp.
  unfold hashString. rewrite Hmd5. cbn [interpolate sha256].
  rewrite Hsha. unfold strictEq.
  destruct (decide (sha256Hex env (u :: body) = digest)) as [->|Hne].
  - rewrite !bool_decide_eq_true_2 by done. reflexivity.
  - rewrite !bool_decide_eq_false_2 by congruence. reflexivity.
Qed.

(** C2 fails on the code: the verifier hashes the fetched body as it is,
    manifest comment included, so a posted part whose body is the part's
    content followed by the comment the pipeline appends is reported failed
    although the expected digest is that of the content. *)
Theorem verifier_hashes_body_with_manifest_comment
    (env : HashEnv) (fetch : Fetcher) (m : SeriesManifest) (part : PartRecord)
    (expected : PartHash) (content compactManifest : jsstring) :
  is_Some (md5lib env) ->
  parts m = [part] ->
  status part = StPosted ->
  fetch (author part) (permlink part)
    = Post (Str (content ++ Pipeline.manifestComment compactManifest)) ->
  sha256 (hashes expected) = Str (sha256Hex env content) ->
  sha256Hex env (content ++ Pipeline.manifestComment compactManifest)
    <> sha256Hex env content ->
  verifyCompletedParts env fetch m (Some [expected])
    = mkResults [] [pr_part_number part] [] 1.
Proof.
  intros [f Hf] Hparts Hposted Hfetch Hexp Hne.
  unfold verifyCompletedParts. rewrite Hparts. cbn [verifyLoop].
  rewrite Hposted. rewrite bool_decide_eq_true_2 by done. cbn [negb].
  rewrite (checkPostedPart_fetched env f fetch [expected] 0 part expected
             (content ++ Pipeline.manifestComment compactManifest)
             (sha256Hex env content)); try done.
  - by rewrite bool_decide_eq_false_2.
  - unfold Pipeline.manifestComment. by destruct content.
Qed.

Lemma verifier_hashes_body_with_manifest_comment_witness :
  let part := mkPartRecord 1 (Str (lit "permlink-0")) (Str (lit "alice")) StPosted Undefined in
  let m := setParts sampleManifest [part] in
  let body := lit "Hello" ++ Pipeline.manifestComment (lit "{}") in
  let expected := mkPartHash 1 (mkTriple (Str (sha256Hex sampleEnv (lit "Hello"))) Null Null) in
  verifyCompletedParts sampleEnv (fun _ _ => Post (Str body)) m (Some [expected])
    = mkResults [] [1] [] 1.
Proof.
  intros part m body expected.
  apply (verifier_hashes_body_with_manifest_comment sampleEnv (fun _ _ => Post (Str body))
           m part expected (lit "Hello") (lit "{}")).
  - eexists. reflexivity.
  - reflexivity.
  - reflexivity.
  - reflexivity.
  - reflexivity.
  - vm_compute. discriminate.
Defined.

(** Stripping first would not rescue a part that ends in a line feed: the
    pattern also eats the line feeds before the comment. *)
Lemma strip_eats_trailing_line_feeds :
  stripManifestComment
    (Str (lit "Intro." ++ [LF; LF] ++ Pipeline.manifestComment (lit "{}")))
  = Str (lit "Intro.").
Proof. vm_compute. reflexivity. Qed.

Lemma verifyLoop_app env fetch hs : forall ps qs i r,
  verifyLoop env fetch hs i (ps ++ qs) r
  = verifyLoop env fetch hs (i + length ps) qs (verifyLoop env fetch hs i ps r).
Proof.
  induction ps as [|p ps IH]; intros qs i r; cbn [verifyLoop app length].
  - by rewrite Nat.add_0_r.
  - rewrite IH. f_equal. lia.
Qed.

(** When no part is marked posted, every part is reported missing, nothing
    is fetched or checked. *)
Theorem unposted_parts_are_missing env fetch hs (m : SeriesManifest) :
  Forall (fun p => status p <> StPosted) (parts m) ->
  verifyCompletedParts env fetch m hs
    = mkResults [] [] (map pr_part_number (parts m)) 0.
Proof.
  unfold verifyCompletedParts.
  enough (H : forall ps i r, Forall (fun p => status p <> StPosted) ps ->
            verifyLoop env fetch hs i ps r
            = mkResults (verified r) (failed r) (missing r ++ map pr_part_number ps)
                (totalChecked r)).
  { intros Hall. by rewrite H. }
  induction ps as [|p ps IH]; intros i r Hall; cbn [verifyLoop map].
  - rewrite app_nil_r. by destruct r.
  - inversion Hall as [|? ? Hp Hps]; subst.
    rewrite bool_decide_eq_false_2 by done. cbn [negb].
    rewrite IH by done. unfold pushMissing. cbn. by rewrite <- app_assoc.
Qed.

Lemma unposted_parts_are_missing_witness :
  verifyCompletedParts sampleEnv (fun _ _ => FetchThrows) pendingManifest None
  = mkResults [] [] [1; 2] 0.
Proof.
  apply (unposted_parts_are_missing sampleEnv (fun _ _ => FetchThrows) None
           pendingManifest).
  repeat constructor; discriminate.
Defined.

(** A posted part whose fetch throws, finds no post or finds a post
    without body is reported failed, whatever the expected hashes are. *)
Theorem unreachable_posted_parts_fail env fetch hs (m : SeriesManifest) :
  Forall (fun p => status p = StPosted /\ unreachable fetch p) (parts m) ->
  verifyCompletedParts env fetch m hs
    = mkResults [] (map pr_part_number (parts m)) []
        (Z.of_nat (length (parts m))).
Proof.
  unfold verifyCompletedParts.
  enough (H : forall ps i r,
            Forall (fun p => status p = StPosted /\ unreachable fetch p) ps ->
            verifyLoop env fetch hs i ps r
            = mkResults (verified r) (failed r ++ map pr_part_number ps) (missing r)
                (totalChecked r + Z.of_nat (length ps))).
  { intros Hall. by rewrite H. }
  induction ps as [|p ps IH]; intros i r Hall; cbn [verifyLoop map length].
  - rewrite app_nil_r, Z.add_0_r. by destruct r.
  - inversion Hall as [|? ? [Hp Hun] Hps]; subst.
    rewrite bool_decide_eq_true_2 by done. cbn [negb].
    rewrite IH by done.
    assert (Hc : checkPostedPart env fetch hs i p (countChecked r)
                 = pushFailed (countChecked r) (pr_part_number p)).
    { unfold checkPostedPart, unreachable in *.
      destruct (fetch (author p) (permlink p)) as [| |body]; try reflexivity.
      by rewrite Hun. }
    rewrite Hc. cbn. rewrite <- app_assoc. f_equal. lia.
Qed.

Lemma unreachable_posted_parts_fail_witness :
  verifyCompletedParts sampleEnv (fun _ _ => NoPost)
    (setParts sampleManifest
       [mkPartRecord 1 (Str (lit "permlink-0")) (Str (lit "alice")) StPosted Undefined])
    None
  = mkResults [] [1] [] 1.
Proof.
  apply (unreachable_posted_parts_fail sampleEnv (fun _ _ => NoPost) None
           (setParts sampleManifest
              [mkPartRecord 1 (Str (lit "permlink-0")) (Str (lit "alice"))
                 StPosted Undefined])).
  constructor; [|constructor]. split; reflexivity.
Defined.

(** Whatever the fetches return, the parts reported missing are exactly the
    parts not marked posted, in manifest order, and the number of parts
    checked is the number of parts marked posted. *)
Theorem verifier_accounts_for_unposted env fetch hs (m : SeriesManifest) :
  missing (verifyCompletedParts env fetch m hs)
    = map pr_part_number (filter (fun p => status p <> StPosted) (parts m)) /\
  totalChecked (verifyCompletedParts env fetch m hs)
    = Z.of_nat (length (filter (fun p => status p = StPosted) (parts m))).
Proof.
  unfold verifyCompletedParts.
  assert (Hc : forall i p r,
            missing (checkPostedPart env fetch hs i p r) = missing r /\
            totalChecked (checkPostedPart env fetch hs i p r) = totalChecked r).
  { intros i p r. unfold checkPostedPart.
    destruct (fetch (author p) (permlink p)) as [| |body]; try done.
    destruct (negb (truthy body)); [done|].
    destruct (hs ≫= _); [|done].
    destruct (hashString env (interpolate body)); [|done].
    destruct (negb _); [|done]. by destruct (sha256 _). }
  enough (H : forall ps i r,
            missing (verifyLoop env fetch hs i ps r)
              = missing r ++ map pr_part_number
                               (filter (fun p => status p <> StPosted) ps) /\
            totalChecked (verifyLoop env fetch hs i ps r)
              = totalChecked r
                + Z.of_nat (length (filter (fun p => status p = StPosted) ps))).
  { destruct (H (parts m) 0%nat (mkResults [] [] [] 0)) as [H1 H2]. by rewrite H1, H2. }
  induction ps as [|p ps IH]; intros i r; cbn [verifyLoop].
  - cbn. rewrite app_nil_r. split; [done|lia].
  - destruct (IH (S i)
                (if negb (bool_decide (status p = StPosted))
                 then pushMissing r (pr_part_number p)
                 else checkPostedPart env fetch hs i p (countChecked r))) as [-> ->].
    destruct (decide (status p = StPosted)) as [Hp|Hp].
    + rewrite bool_decide_eq_true_2 by done. cbn [negb].
      destruct (Hc i p (countChecked r)) as [-> ->].
      rewrite (filter_cons_False (fun p => status p <> StPosted)) by (by intros ?).
      rewrite filter_cons_True by done.
      cbn. split; [done|lia].
    + rewrite bool_decide_eq_false_2 by done. cbn [negb].
      rewrite filter_cons_True, filter_cons_False by done.
      cbn. by rewrite <- app_assoc.
Qed.

(** Without expected hashes every posted part that can be fetched with a
    non-empty body counts as verified: nothing is hashed. *)
Theorem fetched_parts_verified_without_hashes env fetch (m : SeriesManifest) :
  Forall (fun p => status p = StPosted /\
                   exists body, fetch (author p) (permlink p) = Post body /\
                                truthy body = true) (parts m) ->
  verifyCompletedParts env fetch m None
    = mkResults (map pr_part_number (parts m)) [] []
        (Z.of_nat (length (parts m))).
Proof.
  unfold verifyCompletedParts.
  enough (H : forall ps i r,
            Forall (fun p => status p = StPosted /\
                     exists body, fetch (author p) (permlink p) = Post body /\
                                  truthy body = true) ps ->
            verifyLoop env fetch None i ps r
            = mkResults (verified r ++ map pr_part_number ps) (failed r) (missing r)
                (totalChecked r + Z.of_nat (length ps))).
  { intros Hall. by rewrite H. }
  induction ps as [|p ps IH]; intros i r Hall; cbn [verifyLoop map length].
  - rewrite app_nil_r, Z.add_0_r. by destruct r.
  - inversion Hall as [|? ? (Hp & body & Hf & Hb) Hps]; subst.
    rewrite bool_decide_eq_true_2 by done. cbn [negb].
    rewrite IH by done. unfold checkPostedPart. rewrite Hf, Hb. cbn.
    rewrite <- app_assoc. f_equal. lia.
Qed.

Lemma fetched_parts_verified_without_hashes_witness :
  verifyCompletedParts sampleEnv (fun _ _ => Post (Str (lit "anything")))
    (setParts sampleManifest
       [mkPartRecord 1 (Str (lit "permlink-0")) (Str (lit "alice")) StPosted Undefined])
    None
  = mkResults [1] [] [] 1.
Proof.
  apply (fetched_parts_verified_without_hashes sampleEnv
           (fun _ _ => Post (Str (lit "anything")))
           (setParts sampleManifest
              [mkPartRecord 1 (Str (lit "permlink-0")) (Str (lit "alice"))
                 StPosted Undefined])).
  constructor; [|constructor]. split; [reflexivity|].
  eexists. split; reflexivity.
Defined.

End VerifierFacts.

(** ** Posting pipeline *)

Module PipelineFacts.
Import Js Hashing Manifest Pipeline Samples Predicates.

Ltac fields :=
  cbn [manifest contentParts Pipeline.author currentPart attempts cancelled
       paused errors rootPermlink calls trace withManifest withCurrentPart
       withAttempts withFlags withErrors withRootPermlink withCalls emit
       appendTrace _saveState markAsPaused] in *.

(** *** Fields of the states the pipeline passes through *)

Create Rewrite HintDb pipeline_fields.

Lemma manifest_emit (st : State) (e : Effect) :
  manifest (emit st e) = manifest st.
Proof. reflexivity. Qed.

Lemma contentParts_emit (st : State) (e : Effect) :
  contentParts (emit st e) = contentParts st.
Proof. reflexivity. Qed.

Lemma author_emit (st : State) (e : Effect) :
  Pipeline.author (emit st e) = Pipeline.author st.
Proof. reflexivity. Qed.

Lemma currentPart_emit (st : State) (e : Effect) :
  currentPart (emit st e) = currentPart st.
Proof. reflexivity. Qed.

Lemma attempts_emit (st : State) (e : Effect) :
  attempts (emit st e) = attempts st.
Proof. reflexivity. Qed.

Lemma cancelled_emit (st : State) (e : Effect) :
  cancelled (emit st e) = cancelled st.
Proof. reflexivity. Qed.

Lemma paused_emit (st : State) (e : Effect) :
  paused (emit st e) = paused st.
Proof. reflexivity. Qed.

Lemma errors_emit (st : State) (e : Effect) :
  errors (emit st e) = errors st.
Proof. reflexivity. Qed.

Lemma rootPermlink_emit (st : State) (e : Effect) :
  rootPermlink (emit st e) = rootPermlink st.
Proof. reflexivity. Qed.

Lemma calls_emit (st : State) (e : Effect) :
  calls (emit st e) = calls st.
Proof. reflexivity. Qed.

Lemma trace_emit (st : State) (e : Effect) :
  trace (emit st e) = trace st ++ [e].
Proof. reflexivity. Qed.

Lemma manifest_rejectedState (pf : Platform) (st : State) (n a : Z) (e : JsError) :
  manifest (rejectedState pf st n a e) = manifest st.
Proof. reflexivity. Qed.

Lemma contentParts_rejectedState (pf : Platform) (st : State) (n a : Z) (e : JsError) :
  contentParts (rejectedState pf st n a e) = contentParts st.
Proof. reflexivity. Qed.

Lemma author_rejectedState (pf : Platform) (st : State) (n a : Z) (e : JsError) :
  Pipeline.author (rejectedState pf st n a e) = Pipeline.author st.
Proof. reflexivity. Qed.

Lemma currentPart_rejectedState (pf : Platform) (st : State) (n a : Z) (e : JsError) :
  currentPart (rejectedState pf st n a e) = currentPart st.
Proof. reflexivity. Qed.

Lemma attempts_rejectedState (pf : Platform) (st : State) (n a : Z) (e : JsError) :
  attempts (rejectedState pf st n a e) = <[n := a]> (attempts st).
Proof. reflexivity. Qed.

Lemma cancelled_rejectedState (pf : Platform) (st : State) (n a : Z) (e : JsError) :
  cancelled (rejectedState pf st n a e) = cancelled st.
Proof. reflexivity. Qed.

Lemma paused_rejectedState (pf : Platform) (st : State) (n a : Z) (e : JsError) :
  paused (rejectedState pf st n a e) = paused st.
Proof. reflexivity. Qed.

Lemma errors_rejectedState (pf : Platform) (st : State) (n a : Z) (e : JsError) :
  errors (rejectedState pf st n a e) = errors st ++ [mkErrorEntry n a (errMessage e) (nowISO pf)].
Proof. reflexivity. Qed.

Lemma rootPermlink_rejectedState (pf : Platform) (st : State) (n a : Z) (e : JsError) :
  rootPermlink (rejectedState pf st n a e) = rootPermlink st.
Proof. reflexivity. Qed.

Lemma calls_rejectedState (pf : Platform) (st : State) (n a : Z) (e : JsError) :
  calls (rejectedState pf st n a e) = S (calls st).
Proof. reflexivity. Qed.

Lemma trace_rejectedState (pf : Platform) (st : State) (n a : Z) (e : JsError) :
  trace (rejectedState pf st n a e) = trace st ++ [Progress (if 1 <? a then RETRYING else POSTING) n a PS_IN_PROGRESS].
Proof. reflexivity. Qed.

Lemma manifest_markAsPaused (st : State) :
  manifest (markAsPaused st) = manifest st.
Proof. reflexivity. Qed.

Lemma contentParts_markAsPaused (st : State) :
  contentParts (markAsPaused st) = contentParts st.
Proof. reflexivity. Qed.

Lemma author_markAsPaused (st : State) :
  Pipeline.author (markAsPaused st) = Pipeline.author st.
Proof. reflexivity. Qed.

Lemma currentPart_markAsPaused (st : State) :
  currentPart (markAsPaused st) = currentPart st.
Proof. reflexivity. Qed.

Lemma attempts_markAsPaused (st : State) :
  attempts (markAsPaused st) = attempts st.
Proof. reflexivity. Qed.

Lemma cancelled_markAsPaused (st : State) :
  cancelled (markAsPaused st) = cancelled st.
Proof. reflexivity. Qed.

Lemma paused_markAsPaused (st : State) :
  paused (markAsPaused st) = true.
Proof. reflexivity. Qed.

Lemma errors_markAsPaused (st : State) :
  errors (markAsPaused st) = errors st.
Proof. reflexivity. Qed.

Lemma rootPermlink_markAsPaused (st : State) :
  rootPermlink (markAsPaused st) = rootPermlink st.
Proof. reflexivity. Qed.

Lemma calls_markAsPaused (st : State) :
  calls (markAsPaused st) = calls st.
Proof. reflexivity. Qed.

Lemma trace_markAsPaused (st : State) :
  trace (markAsPaused st) = trace st ++ [SaveState (_getStatus (withFlags st (cancelled st) true)) (currentPart st)].
Proof. reflexivity. Qed.

Lemma manifest_saveState (st : State) :
  manifest (_saveState st) = manifest st.
Proof. reflexivity. Qed.

Lemma contentParts_saveState (st : State) :
  contentParts (_saveState st) = contentParts st.
Proof. reflexivity. Qed.

Lemma author_saveState (st : State) :
  Pipeline.author (_saveState st) = Pipeline.author st.
Proof. reflexivity. Qed.

Lemma currentPart_saveState (st : State) :
  currentPart (_saveState st) = currentPart st.
Proof. reflexivity. Qed.

Lemma attempts_saveState (st : State) :
  attempts (_saveState st) = attempts st.
Proof. reflexivity. Qed.

Lemma cancelled_saveState (st : State) :
  cancelled (_saveState st) = cancelled st.
Proof. reflexivity. Qed.

Lemma paused_saveState (st : State) :
  paused (_saveState st) = paused st.
Proof. reflexivity. Qed.

Lemma errors_saveState (st : State) :
  errors (_saveState st) = errors st.
Proof. reflexivity. Qed.

Lemma rootPermlink_saveState (st : State) :
  rootPermlink (_saveState st) = rootPermlink st.
Proof. reflexivity. Qed.

Lemma calls_saveState (st : State) :
  calls (_saveState st) = calls st.
Proof. reflexivity. Qed.

Lemma trace_saveState (st : State) :
  trace (_saveState st) = trace st ++ [SaveState (_getStatus st) (currentPart st)].
Proof. reflexivity. Qed.

Lemma manifest_withCurrentPart (st : State) (k : Z) :
  manifest (withCurrentPart st k) = manifest st.
Proof. reflexivity. Qed.

Lemma contentParts_withCurrentPart (st : State) (k : Z) :
  contentParts (withCurrentPart st k) = contentParts st.
Proof. reflexivity. Qed.

Lemma author_withCurrentPart (st : State) (k : Z) :
  Pipeline.author (withCurrentPart st k) = Pipeline.author st.
Proof. reflexivity. Qed.

Lemma currentPart_withCurrentPart (st : State) (k : Z) :
  currentPart (withCurrentPart st k) = k.
Proof. reflexivity. Qed.

Lemma attempts_withCurrentPart (st : State) (k : Z) :
  attempts (withCurrentPart st k) = attempts st.
Proof. reflexivity. Qed.

Lemma cancelled_withCurrentPart (st : State) (k : Z) :
  cancelled (withCurrentPart st k) = cancelled st.
Proof. reflexivity. Qed.

Lemma paused_withCurrentPart (st : State) (k : Z) :
  paused (withCurrentPart st k) = paused st.
Proof. reflexivity. Qed.

Lemma errors_withCurrentPart (st : State) (k : Z) :
  errors (withCurrentPart st k) = errors st.
Proof. reflexivity. Qed.

Lemma rootPermlink_withCurrentPart (st : State) (k : Z) :
  rootPermlink (withCurrentPart st k) = rootPermlink st.
Proof. reflexivity. Qed.

Lemma calls_withCurrentPart (st : State) (k : Z) :
  calls (withCurrentPart st k) = calls st.
Proof. reflexivity. Qed.

Lemma trace_withCurrentPart (st : State) (k : Z) :
  trace (withCurrentPart st k) = trace st.
Proof. reflexivity. Qed.

Lemma manifest_withFlags (st : State) (c p : bool) :
  manifest (withFlags st c p) = manifest st.
Proof. reflexivity. Qed.

Lemma contentParts_withFlags (st : State) (c p : bool) :
  contentParts (withFlags st c p) = contentParts st.
Proof. reflexivity. Qed.

Lemma author_withFlags (st : State) (c p : bool) :
  Pipeline.author (withFlags st c p) = Pipeline.author st.
Proof. reflexivity. Qed.

Lemma currentPart_withFlags (st : State) (c p : bool) :
  currentPart (withFlags st c p) = currentPart st.
Proof. reflexivity. Qed.

Lemma attempts_withFlags (st : State) (c p : bool) :
  attempts (withFlags st c p) = attempts st.
Proof. reflexivity. Qed.

Lemma cancelled_withFlags (st : State) (c p : bool) :
  cancelled (withFlags st c p) = c.
Proof. reflexivity. Qed.

Lemma paused_withFlags (st : State) (c p : bool) :
  paused (withFlags st c p) = p.
Proof. reflexivity. Qed.

Lemma errors_withFlags (st : State) (c p : bool) :
  errors (withFlags st c p) = errors st.
Proof. reflexivity. Qed.

Lemma rootPermlink_withFlags (st : State) (c p : bool) :
  rootPermlink (withFlags st c p) = rootPermlink st.
Proof. reflexivity. Qed.

Lemma calls_withFlags (st : State) (c p : bool) :
  calls (withFlags st c p) = calls st.
Proof. reflexivity. Qed.

Lemma trace_withFlags (st : State) (c p : bool) :
  trace (withFlags st c p) = trace st.
Proof. reflexivity. Qed.

Lemma contentParts_postedState (pf : Platform) (st : State) (n a : Z) (p : jsstring) :
  contentParts (postedState pf st n a p) = contentParts st.
Proof. reflexivity. Qed.

Lemma author_postedState (pf : Platform) (st : State) (n a : Z) (p : jsstring) :
  Pipeline.author (postedState pf st n a p) = Pipeline.author st.
Proof. reflexivity. Qed.

Lemma currentPart_postedState (pf : Platform) (st : State) (n a : Z) (p : jsstring) :
  currentPart (postedState pf st n a p) = currentPart st.
Proof. reflexivity. Qed.

Lemma attempts_postedState (pf : Platform) (st : State) (n a : Z) (p : jsstring) :
  attempts (postedState pf st n a p) = delete n (<[n := a]> (attempts st)).
Proof. reflexivity. Qed.

Lemma cancelled_postedState (pf : Platform) (st : State) (n a : Z) (p : jsstring) :
  cancelled (postedState pf st n a p) = cancelled st.
Proof. reflexivity. Qed.

Lemma paused_postedState (pf : Platform) (st : State) (n a : Z) (p : jsstring) :
  paused (postedState pf st n a p) = paused st.
Proof. reflexivity. Qed.

Lemma errors_postedState (pf : Platform) (st : State) (n a : Z) (p : jsstring) :
  errors (postedState pf st n a p) = errors st.
Proof. reflexivity. Qed.

Lemma rootPermlink_postedState (pf : Platform) (st : State) (n a : Z) (p : jsstring) :
  rootPermlink (postedState pf st n a p) = if n =? 1 then Str p else rootPermlink st.
Proof. reflexivity. Qed.

Lemma calls_postedState (pf : Platform) (st : State) (n a : Z) (p : jsstring) :
  calls (postedState pf st n a p) = S (calls st).
Proof. reflexivity. Qed.

Lemma trace_postedState (pf : Platform) (st : State) (n a : Z) (p : jsstring) :
  trace (postedState pf st n a p) = (trace st ++ [Progress (if 1 <? a then RETRYING else POSTING) n a PS_IN_PROGRESS]) ++ [Progress POSTING n a PS_POSTED].
Proof. reflexivity. Qed.

Lemma manifest_initAttempts (st : State) (n : Z) :
  manifest (initAttempts st n) = manifest st.
Proof.
  unfold initAttempts. destruct (attempts st !! n) as [a|]; [destruct (a =? 0)|]; reflexivity.
Qed.

Lemma contentParts_initAttempts (st : State) (n : Z) :
  contentParts (initAttempts st n) = contentParts st.
Proof.
  unfold initAttempts. destruct (attempts st !! n) as [a|]; [destruct (a =? 0)|]; reflexivity.
Qed.

Lemma author_initAttempts (st : State) (n : Z) :
  Pipeline.author (initAttempts st n) = Pipeline.author st.
Proof.
  unfold initAttempts. destruct (attempts st !! n) as [a|]; [destruct (a =? 0)|]; reflexivity.
Qed.

Lemma currentPart_initAttempts (st : State) (n : Z) :
  currentPart (initAttempts st n) = currentPart st.
Proof.
  unfold initAttempts. destruct (attempts st !! n) as [a|]; [destruct (a =? 0)|]; reflexivity.
Qed.

Lemma cancelled_initAttempts (st : State) (n : Z) :
  cancelled (initAttempts st n) = cancelled st.
Proof.
  unfold initAttempts. destruct (attempts st !! n) as [a|]; [destruct (a =? 0)|]; reflexivity.
Qed.

Lemma paused_initAttempts (st : State) (n : Z) :
  paused (initAttempts st n) = paused st.
Proof.
  unfold initAttempts. destruct (attempts st !! n) as [a|]; [destruct (a =? 0)|]; reflexivity.
Qed.

Lemma errors_initAttempts (st : State) (n : Z) :
  errors (initAttempts st n) = errors st.
Proof.
  unfold initAttempts. destruct (attempts st !! n) as [a|]; [destruct (a =? 0)|]; reflexivity.
Qed.

Lemma rootPermlink_initAttempts (st : State) (n : Z) :
  rootPermlink (initAttempts st n) = rootPermlink st.
Proof.
  unfold initAttempts. destruct (attempts st !! n) as [a|]; [destruct (a =? 0)|]; reflexivity.
Qed.

Lemma calls_initAttempts (st : State) (n : Z) :
  calls (initAttempts st n) = calls st.
Proof.
  unfold initAttempts. destruct (attempts st !! n) as [a|]; [destruct (a =? 0)|]; reflexivity.
Qed.

Lemma trace_initAttempts (st : State) (n : Z) :
  trace (initAttempts st n) = trace st.
Proof.
  unfold initAttempts. destruct (attempts st !! n) as [a|]; [destruct (a =? 0)|]; reflexivity.
Qed.

#[export] Hint Rewrite
  manifest_emit contentParts_emit author_emit currentPart_emit
  attempts_emit cancelled_emit paused_emit errors_emit
  rootPermlink_emit calls_emit trace_emit manifest_rejectedState
  contentParts_rejectedState author_rejectedState currentPart_rejectedState attempts_rejectedState
  cancelled_rejectedState paused_rejectedState errors_rejectedState rootPermlink_rejectedState
  calls_rejectedState trace_rejectedState manifest_markAsPaused contentParts_markAsPaused
  author_markAsPaused currentPart_markAsPaused attempts_markAsPaused cancelled_markAsPaused
  paused_markAsPaused errors_markAsPaused rootPermlink_markAsPaused calls_markAsPaused
  trace_markAsPaused manifest_saveState contentParts_saveState author_saveState
  currentPart_saveState attempts_saveState cancelled_saveState paused_saveState
  errors_saveState rootPermlink_saveState calls_saveState trace_saveState
  manifest_withCurrentPart contentParts_withCurrentPart author_withCurrentPart currentPart_withCurrentPart
  attempts_withCurrentPart cancelled_withCurrentPart paused_withCurrentPart errors_withCurrentPart
  rootPermlink_withCurrentPart calls_withCurrentPart trace_withCurrentPart manifest_withFlags
  contentParts_withFlags author_withFlags currentPart_withFlags attempts_withFlags
  cancelled_withFlags paused_withFlags errors_withFlags rootPermlink_withFlags
  calls_withFlags trace_withFlags contentParts_postedState author_postedState
  currentPart_postedState attempts_postedState cancelled_postedState paused_postedState
  errors_postedState rootPermlink_postedState calls_postedState trace_postedState
  manifest_initAttempts contentParts_initAttempts author_initAttempts currentPart_initAttempts
  cancelled_initAttempts paused_initAttempts errors_initAttempts rootPermlink_initAttempts
  calls_initAttempts trace_initAttempts
  : pipeline_fields.

Lemma manifest_appendTrace (st : State) (evs : list Effect) :
  manifest (appendTrace st evs) = manifest st.
Proof. reflexivity. Qed.

Lemma contentParts_appendTrace (st : State) (evs : list Effect) :
  contentParts (appendTrace st evs) = contentParts st.
Proof. reflexivity. Qed.

Lemma author_appendTrace (st : State) (evs : list Effect) :
  Pipeline.author (appendTrace st evs) = Pipeline.author st.
Proof. reflexivity. Qed.

Lemma currentPart_appendTrace (st : State) (evs : list Effect) :
  currentPart (appendTrace st evs) = currentPart st.
Proof. reflexivity. Qed.

Lemma attempts_appendTrace (st : State) (evs : list Effect) :
  attempts (appendTrace st evs) = attempts st.
Proof. reflexivity. Qed.

Lemma cancelled_appendTrace (st : State) (evs : list Effect) :
  cancelled (appendTrace st evs) = cancelled st.
Proof. reflexivity. Qed.

Lemma paused_appendTrace (st : State) (evs : list Effect) :
  paused (appendTrace st evs) = paused st.
Proof. reflexivity. Qed.

Lemma errors_appendTrace (st : State) (evs : list Effect) :
  errors (appendTrace st evs) = errors st.
Proof. reflexivity. Qed.

Lemma rootPermlink_appendTrace (st : State) (evs : list Effect) :
  rootPermlink (appendTrace st evs) = rootPermlink st.
Proof. reflexivity. Qed.

Lemma calls_appendTrace (st : State) (evs : list Effect) :
  calls (appendTrace st evs) = calls st.
Proof. reflexivity. Qed.

Lemma trace_appendTrace (st : State) (evs : list Effect) :
  trace (appendTrace st evs) = trace st ++ evs.
Proof. reflexivity. Qed.

#[export] Hint Rewrite
  manifest_appendTrace contentParts_appendTrace author_appendTrace currentPart_appendTrace
  attempts_appendTrace cancelled_appendTrace paused_appendTrace errors_appendTrace
  rootPermlink_appendTrace calls_appendTrace trace_appendTrace
  : pipeline_fields.

Ltac goal_fields :=
  cbn [manifest contentParts Pipeline.author currentPart attempts cancelled
       paused errors rootPermlink calls trace withManifest withCurrentPart
       withAttempts withFlags withErrors withRootPermlink withCalls emit
       appendTrace _saveState markAsPaused].

Section Run.
Context (pf : Platform) (transport : Transport).

(** *** Payload generation *)

Lemma compactManifestForPost_fits m n :
  compactFits pf m -> 1 <= n <= total_parts m ->
  compactManifestForPost pf m n = CompactJson (JSON_stringify pf (compactOf m n)).
Proof.
  intros H Hn. unfold compactManifestForPost. cbv zeta.
  destruct (Z.ltb_spec MANIFEST_SIZE_LIMIT
              (Z.of_nat (length (JSON_stringify pf (compactOf m n))))); [|done].
  specialize (H n Hn). lia.
Qed.

Lemma generatePostPayload_ok st n content :
  compactFits pf (manifest st) ->
  1 <= n <= total_parts (manifest st) ->
  (n = 1 \/ truthy (rootPermlink st) = true) ->
  exists payload, _generatePostPayload pf st n content = inr payload.
Proof.
  intros Hfit Hn Hroot. unfold _generatePostPayload. cbv zeta.
  rewrite compactManifestForPost_fits by done.
  destruct (Z.eqb_spec n 1); [eauto|].
  destruct Hroot as [? | ->]; [done|]. cbn [negb]. eauto.
Qed.

(** *** One rejected attempt *)

Lemma rejectsAt_throwsAt k e :
  rejectsAt transport k e -> throwsAt transport k (TransportRejected e).
Proof. intros H payload. by rewrite H. Qed.

Lemma tryPost_rejected st n content a t :
  compactFits pf (manifest st) ->
  1 <= n <= total_parts (manifest st) ->
  (n = 1 \/ truthy (rootPermlink st) = true) ->
  throwsAt transport (calls st) t ->
  tryPost pf transport st n content a
  = TryThrows t (withCalls st (S (calls st))).
Proof.
  intros Hfit Hn Hroot Hrej. unfold tryPost.
  destruct (generatePostPayload_ok st n content Hfit Hn Hroot) as [payload ->].
  specialize (Hrej payload).
  destruct (transport (calls st) payload) as [[permlink|]|e].
  - destruct Hrej as [Hp ->]. by rewrite Hp.
  - by subst.
  - by subst.
Qed.

Lemma attemptLoop_transient st n content a r t :
  cancelled st = false ->
  compactFits pf (manifest st) ->
  1 <= n <= total_parts (manifest st) ->
  (n = 1 \/ truthy (rootPermlink st) = true) ->
  throwsAt transport (calls st) t ->
  classifyError pf (thrownError t) = TRANSIENT ->
  attemptLoop pf transport (S r) a n content st
  = if a <? maxAttempts
    then attemptLoop pf transport r (a + 1) n content
           (emit (rejectedState pf st n a (thrownError t)) (BackoffSleep (backoffDelay a)))
    else Some (PostFailure (errMessage (thrownError t)) true,
               emit (markAsPaused (rejectedState pf st n a (thrownError t)))
                 (Progress PAUSED n a PS_PAUSED)).
Proof.
  intros Hc Hfit Hn Hroot Hrej Hcls. cbn [attemptLoop]. rewrite Hc. cbv zeta.
  rewrite (tryPost_rejected _ n content a t); fields; try done.
  rewrite Hcls. cbn [isCancelledType orb]. fields.
  rewrite Hc. reflexivity.
Qed.

Lemma attemptLoop_permanent st n content a r t :
  cancelled st = false ->
  compactFits pf (manifest st) ->
  1 <= n <= total_parts (manifest st) ->
  (n = 1 \/ truthy (rootPermlink st) = true) ->
  throwsAt transport (calls st) t ->
  classifyError pf (thrownError t) = PERMANENT ->
  attemptLoop pf transport (S r) a n content st
  = Some (PostFailure (errMessage (thrownError t)) false, rejectedState pf st n a (thrownError t)).
Proof.
  intros Hc Hfit Hn Hroot Hrej Hcls. cbn [attemptLoop]. rewrite Hc. cbv zeta.
  rewrite (tryPost_rejected _ n content a t); fields; try done.
  by rewrite Hcls.
Qed.

Lemma postPartWithRetry_unfold st n part :
  1 <= n ->
  contentParts st !! Z.to_nat (n - 1) = Some part ->
  _postPartWithRetry pf transport st n
  = match attemptLoop pf transport (Z.to_nat maxAttempts) 1 n (contentOf part)
            (initAttempts st n) with
    | Some (outcome, st') => Returned outcome st'
    | None => Unmodelled
    end.
Proof.
  intros Hn Hpart. unfold _postPartWithRetry. cbv zeta.
  destruct (Z.ltb_spec (n - 1) 0); [lia|]. rewrite Hpart. reflexivity.
Qed.

(** *** One successful attempt *)

Lemma attemptLoop_resolved st n content a r p :
  cancelled st = false ->
  compactFits pf (manifest st) ->
  (n = 1 \/ truthy (rootPermlink st) = true) ->
  resolvesAt transport (calls st) p -> p <> [] ->
  1 <= n <= total_parts (manifest st) ->
  Z.of_nat (length (parts (manifest st))) = total_parts (manifest st) ->
  1 <= a ->
  attemptLoop pf transport (S r) a n content st
  = Some (PostSuccess (mkPostInfo (Str p) (Str (Pipeline.author st))),
          postedState pf st n a p).
Proof.
  intros Hc Hfit Hroot Hres Hp Hn Hlen Ha. cbn [attemptLoop]. rewrite Hc. cbv zeta.
  unfold tryPost.
  edestruct (generatePostPayload_ok) as [payload ->]; fields;
    [exact Hfit|exact Hn|exact Hroot|].
  fields. rewrite Hres.
  destruct p as [|u p]; [done|]. cbn [truthy negb].
  unfold updateManifestWithPost. cbv zeta.
  destruct (Z.ltb_spec (n - 1) 0); [lia|].
  destruct (Z.leb_spec (total_parts (manifest st)) (n - 1)); [lia|]. cbn [orb].
  unfold arrayStore. case_decide; [|lia].
  assert (Ha0 : (a =? 0) = false) by (apply Z.eqb_neq; lia).
  unfold markPostedUpTo, postedState. cbv zeta.
  destruct (n =? 1) eqn:En; fields;
    cbn [parts setParts setRootPermlink pi_permlink pi_author];
    (case_decide as Hl; [|rewrite length_insert in Hl; lia]);
    fields; rewrite lookup_insert_eq, Ha0; reflexivity.
Qed.

(** *** Traces *)

Lemma backoffs_app l1 l2 : backoffs (l1 ++ l2) = backoffs l1 ++ backoffs l2.
Proof. unfold backoffs. apply omap_app. Qed.

Lemma phases_app l1 l2 : phases (l1 ++ l2) = phases l1 ++ phases l2.
Proof. unfold phases. apply omap_app. Qed.

Ltac state_fields := autorewrite with pipeline_fields.

Lemma getStatus_paused st :
  cancelled st = false -> paused st = true -> _getStatus st = paused_status.
Proof. intros Hc Hp. unfold _getStatus. by rewrite Hc, Hp. Qed.

(** *** Three transient failures in a row *)

Lemma postPartWithRetry_transient st n part t1 t2 t3 :
  1 <= n <= total_parts (manifest st) ->
  contentParts st !! Z.to_nat (n - 1) = Some part ->
  cancelled st = false ->
  compactFits pf (manifest st) ->
  (n = 1 \/ truthy (rootPermlink st) = true) ->
  throwsAt transport (calls st) t1 ->
  throwsAt transport (S (calls st)) t2 ->
  throwsAt transport (S (S (calls st))) t3 ->
  classifyError pf (thrownError t1) = TRANSIENT ->
  classifyError pf (thrownError t2) = TRANSIENT ->
  classifyError pf (thrownError t3) = TRANSIENT ->
  exists st',
    _postPartWithRetry pf transport st n
      = Returned (PostFailure (errMessage (thrownError t3)) true) st' /\
    manifest st' = manifest st /\
    contentParts st' = contentParts st /\
    currentPart st' = currentPart st /\
    rootPermlink st' = rootPermlink st /\
    cancelled st' = false /\
    paused st' = true /\
    attempts st' !! n = Some 3 /\
    calls st' = (calls st + 3)%nat /\
    length (errors st') = (length (errors st) + 3)%nat /\
    trace st' = trace st ++
      [Progress POSTING n 1 PS_IN_PROGRESS; BackoffSleep 1000;
       Progress RETRYING n 2 PS_IN_PROGRESS; BackoffSleep 3000;
       Progress RETRYING n 3 PS_IN_PROGRESS;
       SaveState paused_status (currentPart st);
       Progress PAUSED n 3 PS_PAUSED].
Proof.
  intros Hn Hpart Hc Hfit Hroot H1 H2 H3 C1 C2 C3.
  rewrite (postPartWithRetry_unfold st n part (proj1 Hn) Hpart).
  change (Z.to_nat maxAttempts) with 3%nat.
  rewrite (attemptLoop_transient _ n _ 1 2 t1) by (state_fields; done).
  change (1 <? maxAttempts) with true. cbv iota.
  rewrite (attemptLoop_transient _ n _ (1 + 1) 1 t2) by (state_fields; done).
  change (1 + 1 <? maxAttempts) with true. cbv iota.
  rewrite (attemptLoop_transient _ n _ (1 + 1 + 1) 0 t3) by (state_fields; done).
  change (1 + 1 + 1 <? maxAttempts) with false. cbv iota.
  eexists. split; [reflexivity|].
  state_fields.
  rewrite getStatus_paused by (state_fields; done).
  split; [reflexivity|]. split; [reflexivity|]. split; [reflexivity|].
  split; [reflexivity|]. split; [exact Hc|]. split; [reflexivity|].
  split; [apply lookup_insert_eq|]. split; [lia|].
  split; [rewrite !length_app; cbn [length]; lia|].
  rewrite <- !app_assoc. reflexivity.
Qed.

(** *** A permanent failure *)

Lemma postPartWithRetry_permanent st n part t :
  1 <= n <= total_parts (manifest st) ->
  contentParts st !! Z.to_nat (n - 1) = Some part ->
  cancelled st = false ->
  compactFits pf (manifest st) ->
  (n = 1 \/ truthy (rootPermlink st) = true) ->
  throwsAt transport (calls st) t ->
  classifyError pf (thrownError t) = PERMANENT ->
  exists st',
    _postPartWithRetry pf transport st n
      = Returned (PostFailure (errMessage (thrownError t)) false) st' /\
    manifest st' = manifest st /\
    contentParts st' = contentParts st /\
    currentPart st' = currentPart st /\
    cancelled st' = false /\
    paused st' = paused st /\
    attempts st' !! n = Some 1 /\
    calls st' = S (calls st) /\
    trace st' = trace st ++ [Progress POSTING n 1 PS_IN_PROGRESS].
Proof.
  intros Hn Hpart Hc Hfit Hroot H1 C1.
  rewrite (postPartWithRetry_unfold st n part (proj1 Hn) Hpart).
  change (Z.to_nat maxAttempts) with 3%nat.
  rewrite (attemptLoop_permanent _ n _ 1 2 t) by (state_fields; done).
  eexists. split; [reflexivity|].
  state_fields.
  split; [reflexivity|]. split; [reflexivity|]. split; [reflexivity|].
  split; [exact Hc|]. split; [reflexivity|].
  split; [apply lookup_insert_eq|]. split; reflexivity.
Qed.

(** *** The loop of [start] *)

Lemma postedState_parts st n a p :
  parts (manifest (postedState pf st n a p))
  = map setPosted
      (take (Z.to_nat n)
         (<[Z.to_nat (n - 1) :=
              mkPartRecord n (Str p) (Str (Pipeline.author st)) StPosted
                (Str (nowISO pf))]> (parts (manifest st))))
    ++ drop (Z.to_nat n)
         (<[Z.to_nat (n - 1) :=
              mkPartRecord n (Str p) (Str (Pipeline.author st)) StPosted
                (Str (nowISO pf))]> (parts (manifest st))).
Proof. unfold postedState. cbv zeta. by destruct (n =? 1). Qed.

Lemma postedState_total_parts st n a p :
  total_parts (manifest (postedState pf st n a p)) = total_parts (manifest st).
Proof. unfold postedState. cbv zeta. by destruct (n =? 1). Qed.

Lemma postedState_compactOf st n a p j :
  compactOf (manifest (postedState pf st n a p)) j = compactOf (manifest st) j.
Proof. unfold postedState. cbv zeta. by destruct (n =? 1). Qed.

Lemma setPosted_posted q : status q = StPosted -> setPosted q = q.
Proof. intros H. unfold setPosted. by rewrite bool_decide_eq_true_2. Qed.

Lemma postedUpTo_step ps k record :
  (k < length ps)%nat ->
  postedUpTo k ps ->
  status record = StPosted ->
  truthy (permlink record) = true ->
  truthy (Manifest.author record) = true ->
  postedUpTo (S k)
    (map setPosted (take (S k) (<[k := record]> ps)) ++ drop (S k) (<[k := record]> ps)).
Proof.
  intros Hk Hps Hst Hpl Hau i q Hi Hlook.
  rewrite lookup_app_l in Hlook
    by (rewrite length_map, length_take, length_insert; lia).
  rewrite list_lookup_fmap, lookup_take_lt in Hlook by lia.
  destruct (decide (i = k)) as [->|Hne].
  - rewrite list_lookup_insert_eq in Hlook by done.
    injection Hlook as <-. by rewrite setPosted_posted.
  - rewrite list_lookup_insert_ne in Hlook by done.
    destruct (ps !! i) as [q0|] eqn:Hq0; [|discriminate].
    injection Hlook as <-.
    destruct (Hps i q0 ltac:(lia) Hq0) as (H1 & H2 & H3).
    by rewrite setPosted_posted.
Qed.

Lemma cooldown_spec r : forall st,
  cancelled st = false ->
  exists evs, cooldown r st = appendTrace st evs /\ backoffs evs = [].
Proof.
  induction r as [|r IH]; intros st Hc.
  - exists []. split; [|done]. destruct st. unfold appendTrace. cbn.
    by rewrite app_nil_r.
  - cbn [cooldown]. state_fields. rewrite Hc.
    destruct (IH (emit (emit st (Progress COOLDOWN (currentPart st) 0 PS_COOLDOWN))
                    (CooldownSleep 1000))) as (evs & -> & Hb).
    { by state_fields. }
    exists ([Progress COOLDOWN (currentPart st) 0 PS_COOLDOWN; CooldownSleep 1000] ++ evs).
    split.
    + unfold appendTrace, emit. cbn. f_equal. by rewrite <- !app_assoc.
    + rewrite backoffs_app, Hb. reflexivity.
Qed.

(** What the round of the loop for part [k] leaves when the part goes
    through at the first attempt. *)
Lemma atPart_next st k p st2 :
  atPart pf st k ->
  k <= total_parts (manifest st) ->
  p <> [] ->
  manifest st2 = manifest (postedState pf (initAttempts st k) k 1 p) ->
  contentParts st2 = contentParts st ->
  Pipeline.author st2 = Pipeline.author st ->
  cancelled st2 = false ->
  paused st2 = false ->
  rootPermlink st2 = (if k =? 1 then Str p else rootPermlink st) ->
  calls st2 = S (calls st) ->
  backoffs (trace st2) = [] ->
  atPart pf (_saveState (withCurrentPart st2 (k + 1))) (k + 1).
Proof.
  intros [Hcur H1 Hc Hpa Hparts Hcont Hposted Hroot Hau Hfit Hb Hcalls]
         Hk Hp Em Ecp Eau Ecan Epa Ero Ecal Ebk.
  split; state_fields.
  - reflexivity.
  - lia.
  - exact Ecan.
  - exact Epa.
  - rewrite Em, postedState_parts, postedState_total_parts. state_fields.
    rewrite length_app, length_map, length_take, length_drop, length_insert. lia.
  - rewrite Em, Ecp, postedState_total_parts. by state_fields.
  - rewrite Em, postedState_parts. state_fields.
    replace (Z.to_nat (k + 1 - 1)) with (S (Z.to_nat (k - 1))) by lia.
    replace (Z.to_nat k) with (S (Z.to_nat (k - 1))) by lia.
    apply postedUpTo_step; try done.
    + lia.
    + by destruct p.
  - intros _. rewrite Ero. destruct (Z.eqb_spec k 1); [by destruct p|].
    apply Hroot. lia.
  - by rewrite Eau.
  - intros j Hj. rewrite Em, postedState_total_parts in Hj.
    rewrite Em, postedState_compactOf. autorewrite with pipeline_fields in *.
    by apply Hfit.
  - rewrite backoffs_app, Ebk. reflexivity.
  - rewrite Ecal. lia.
Qed.

Lemma atPart_part st k :
  atPart pf st k -> k <= total_parts (manifest st) ->
  exists part, contentParts st !! Z.to_nat (k - 1) = Some part.
Proof.
  intros H Hk. destruct H.
  apply lookup_lt_is_Some. lia.
Qed.

Lemma atPart_root st k :
  atPart pf st k -> k = 1 \/ truthy (rootPermlink st) = true.
Proof.
  intros H. destruct (decide (k = 1)); [by left|right].
  destruct H. apply at_root0. lia.
Qed.

(** A part that goes through at the first attempt moves the loop on. *)
Lemma startLoop_success_step st k p f :
  atPart pf st k ->
  k <= total_parts (manifest st) ->
  resolvesAt transport (calls st) p -> p <> [] ->
  exists st',
    startLoop pf transport (S f) st = startLoop pf transport f st' /\
    atPart pf st' (k + 1) /\
    total_parts (manifest st') = total_parts (manifest st).
Proof.
  intros Hat Hk Hres Hp.
  destruct (atPart_part st k Hat Hk) as [part Hpart].
  pose proof (atPart_root st k Hat) as Hroot.
  pose proof Hat as [Hcur H1 Hc Hpa Hparts Hcont Hposted _ Hau Hfit Hb Hcalls].
  cbn [startLoop]. rewrite Hcur.
  destruct (Z.leb_spec k (total_parts (manifest st))); [|lia]. cbn [negb].
  rewrite Hc, Hpa.
  rewrite (postPartWithRetry_unfold st k part H1 Hpart).
  change (Z.to_nat maxAttempts) with 3%nat.
  rewrite (attemptLoop_resolved (initAttempts st k) k _ 1 2 p)
    by (state_fields; first [done | lia]).
  cbv zeta.
  set (st1 := postedState pf (initAttempts st k) k 1 p).
  assert (Ecan1 : cancelled st1 = false) by (unfold st1; by state_fields).
  assert (Ecur1 : currentPart st1 = k) by (unfold st1; by state_fields).
  assert (Etot : total_parts (manifest st1) = total_parts (manifest st)).
  { unfold st1. rewrite postedState_total_parts. by state_fields. }
  destruct (currentPart st1 =? total_parts (manifest st1)).
  - rewrite Ecan1, Ecur1.
    eexists. split; [reflexivity|]. split.
    + apply (atPart_next st k p st1 Hat Hk Hp); unfold st1; state_fields;
        try done. rewrite backoffs_app, backoffs_app, Hb. reflexivity.
    + state_fields. exact Etot.
  - destruct (cooldown_spec 20 st1 Ecan1) as (evs & -> & Hevs).
    state_fields. rewrite Ecan1, Ecur1.
    eexists. split; [reflexivity|]. split.
    + apply (atPart_next st k p (appendTrace st1 evs) Hat Hk Hp);
        unfold st1; state_fields; try done.
      rewrite !backoffs_app, Hb, Hevs. reflexivity.
    + state_fields. exact Etot.
Qed.

(** [j] parts in a row that go through at the first attempt. *)
Lemma startLoop_prefix : forall (j : nat) st k f,
  atPart pf st k ->
  k + Z.of_nat j - 1 <= total_parts (manifest st) ->
  (forall i, (calls st <= i < calls st + j)%nat ->
     exists p, resolvesAt transport i p /\ p <> []) ->
  exists st',
    startLoop pf transport (j + f) st = startLoop pf transport f st' /\
    atPart pf st' (k + Z.of_nat j) /\
    total_parts (manifest st') = total_parts (manifest st).
Proof.
  induction j as [|j IH]; intros st k f Hat Hk Hres.
  - exists st. split; [reflexivity|]. split; [|reflexivity].
    by replace (k + Z.of_nat 0) with k by lia.
  - destruct (Hres (calls st) ltac:(lia)) as (p & Hp & Hne).
    destruct (startLoop_success_step st k p (j + f) Hat ltac:(lia) Hp Hne)
      as (st1 & Hstep & Hat1 & Htot).
    destruct (IH st1 (k + 1) f Hat1) as (st2 & Hrun & Hat2 & Htot2).
    { rewrite Htot. lia. }
    { intros i Hi. apply Hres.
      pose proof (at_calls _ _ _ Hat). pose proof (at_calls _ _ _ Hat1). lia. }
    exists st2. split; [|split].
    + change (S j + f)%nat with (S (j + f)). by rewrite Hstep.
    + by replace (k + Z.of_nat (S j)) with (k + 1 + Z.of_nat j) by lia.
    + congruence.
Qed.

(** *** From the constructor to the first round *)

Lemma construct_inv m cps au st0 :
  construct (Some m) (Some cps) au = inr st0 ->
  st0 = mkState m cps (interpolate au) 1 ∅ false false [] Null 0 [] /\
  truthy au = true /\
  Z.of_nat (length cps) = total_parts m /\
  Z.of_nat (length (parts m)) = total_parts m /\
  1 <= total_parts m <= 100 /\
  manifestInvariant m.
Proof.
  unfold construct.
  destruct (Z.eqb_spec (Z.of_nat (length cps)) (total_parts m)); [|discriminate].
  cbn [negb]. destruct (truthy au) eqn:Hau; [|discriminate]. cbn [negb].
  destruct (validateManifest m) as [b|] eqn:Hv; [|discriminate].
  intros [= <-].
  apply ManifestFacts.validateManifest_invariant in Hv as (Ht & Hp & Hinv).
  done.
Qed.

Lemma start_unfold st :
  start pf transport st
  = startLoop pf transport
      (Z.to_nat (total_parts (manifest st) - currentPart st + 1))
      (emit (withFlags st false false) (Progress PREPARING (currentPart st) 0 PS_PENDING)).
Proof. reflexivity. Qed.

Lemma constructed_atPart m cps au st0 :
  construct (Some m) (Some cps) au = inr st0 ->
  compactFits pf m ->
  atPart pf (emit (withFlags st0 false false)
               (Progress PREPARING (currentPart st0) 0 PS_PENDING)) 1 /\
  manifest st0 = m /\ currentPart st0 = 1.
Proof.
  intros Hc Hfit.
  apply construct_inv in Hc as (-> & Hau & Hcps & Hparts & Ht & Hinv).
  split; [|done].
  split; state_fields; cbn; try done.
  - intros i p Hi. change (Z.to_nat (1 - 1)) with 0%nat in Hi. lia.
  - by destruct au as [| |[|]].
Qed.

(** *** The round that meets a permanent error *)

Lemma startLoop_permanent st k f t :
  atPart pf st k ->
  k <= total_parts (manifest st) ->
  throwsAt transport (calls st) t ->
  classifyError pf (thrownError t) = PERMANENT ->
  exists st',
    startLoop pf transport (S f) st = (StartPartFailed k (errMessage (thrownError t)), st') /\
    paused st' = false /\
    cancelled st' = false /\
    currentPart st' = k /\
    attempts st' !! k = Some 1 /\
    calls st' = S (calls st) /\
    backoffs (trace st') = [] /\
    manifest st' = manifest st /\
    phases (trace st')
      = phases (trace st) ++ [(POSTING, k, 1); (FAILED, k, 1)].
Proof.
  intros Hat Hk H1 C1.
  destruct (atPart_part st k Hat Hk) as [part Hpart].
  pose proof (atPart_root st k Hat) as Hroot.
  pose proof Hat as [Hcur Hk1 Hc Hpa Hparts Hcont Hposted _ Hau Hfit Hb Hcalls].
  cbn [startLoop]. rewrite Hcur.
  destruct (Z.leb_spec k (total_parts (manifest st))); [|lia]. cbn [negb].
  rewrite Hc, Hpa.
  destruct (postPartWithRetry_permanent st k part t)
    as (st' & -> & Em & Ecp & Ecur & Ecan & Epa & Eat & Ecal & Etr);
    try done.
  unfold attemptsOf. rewrite Ecur, Hcur, Eat. cbn [default].
  eexists. split; [reflexivity|]. state_fields.
  split; [congruence|]. split; [done|]. split; [congruence|].
  split; [done|]. split; [done|].
  split; [|split; [done|]].
  - rewrite Etr, !backoffs_app, Hb. reflexivity.
  - rewrite Etr, !phases_app. cbn. by rewrite <- !app_assoc.
Qed.

(** *** Whole runs *)

Lemma start_reaches m cps au st0 n :
  construct (Some m) (Some cps) au = inr st0 ->
  compactFits pf m ->
  1 <= n <= total_parts m ->
  (forall i, (i < Z.to_nat (n - 1))%nat ->
     exists p, resolvesAt transport i p /\ p <> []) ->
  exists st f,
    start pf transport st0 = startLoop pf transport (S f) st /\
    atPart pf st n /\
    total_parts (manifest st) = total_parts m.
Proof.
  intros Hc Hfit Hn Hres.
  destruct (constructed_atPart m cps au st0 Hc Hfit) as (Hat & Hm & Hcur).
  rewrite start_unfold, Hm, Hcur. rewrite Hcur in Hat.
  set (st1 := emit _ _) in *.
  assert (Htot : total_parts (manifest st1) = total_parts m).
  { unfold st1. state_fields. by rewrite Hm. }
  replace (Z.to_nat (total_parts m - 1 + 1))
    with (Z.to_nat (n - 1) + S (Z.to_nat (total_parts m - n)))%nat by lia.
  destruct (startLoop_prefix (Z.to_nat (n - 1)) st1 1
              (S (Z.to_nat (total_parts m - n))) Hat) as (st2 & Hrun & Hat2 & Htot2).
  - rewrite Htot. lia.
  - intros i Hi. apply Hres. pose proof (at_calls _ _ _ Hat). lia.
  - exists st2, (Z.to_nat (total_parts m - n)). split; [done|]. split; [|congruence].
    by replace (1 + Z.of_nat (Z.to_nat (n - 1))) with n in Hat2 by lia.
Qed.

(** When the transport publishes every part at the first attempt, [start]
    reports success after exactly one transport call per part and without
    any backoff; every part record is then posted with its permlink and
    author, and the saved state is cleared last. *)
Theorem every_part_posted m cps au st0 :
  construct (Some m) (Some cps) au = inr st0 ->
  compactFits pf m ->
  (forall i, (i < Z.to_nat (total_parts m))%nat ->
     exists p, resolvesAt transport i p /\ p <> []) ->
  exists st',
    start pf transport st0 = (StartSuccess (total_parts m), st') /\
    calls st' = Z.to_nat (total_parts m) /\
    backoffs (trace st') = [] /\
    Z.of_nat (length (parts (manifest st'))) = total_parts m /\
    Forall (fun p => status p = StPosted /\ truthy (permlink p) = true
                     /\ truthy (Manifest.author p) = true)
      (parts (manifest st')) /\
    truthy (rootPermlink st') = true /\
    last (trace st') = Some ClearState.
Proof.
  intros Hc Hfit Hres.
  destruct (constructed_atPart m cps au st0 Hc Hfit) as (Hat & Hm & Hcur).
  apply construct_inv in Hc as (_ & _ & _ & _ & Ht & _).
  rewrite start_unfold, Hm, Hcur. rewrite Hcur in Hat.
  set (st1 := emit _ _) in *.
  assert (Htot : total_parts (manifest st1) = total_parts m).
  { unfold st1. state_fields. by rewrite Hm. }
  replace (Z.to_nat (total_parts m - 1 + 1))
    with (Z.to_nat (total_parts m) + 0)%nat by lia.
  destruct (startLoop_prefix (Z.to_nat (total_parts m)) st1 1 0%nat Hat)
    as (st2 & -> & Hat2 & Htot2).
  - rewrite Htot. lia.
  - intros i Hi. apply Hres. pose proof (at_calls _ _ _ Hat). lia.
  - replace (1 + Z.of_nat (Z.to_nat (total_parts m))) with (total_parts m + 1)
      in Hat2 by lia.
    pose proof Hat2 as [Hcur2 _ _ _ Hparts Hcont Hposted Hroot _ _ Hb Hcalls].
    cbn [startLoop]. rewrite Hcur2, Htot2, Htot.
    destruct (Z.leb_spec (total_parts m + 1) (total_parts m)); [lia|]. cbn [negb].
    eexists. split; [reflexivity|]. state_fields.
    split; [lia|]. split; [by rewrite !backoffs_app, Hb|].
    split; [congruence|]. split; [|split; [apply Hroot; lia|]].
    + apply Forall_lookup. intros i p Hi. apply (Hposted i p); [|done].
      apply lookup_lt_Some in Hi. lia.
    + by rewrite last_snoc.
Qed.

(** A transport result without permlink is not retried: the error the
    pipeline throws for it carries the word [invalid], which [classifyError]
    takes for a validation failure, so [start] reports the part as failed
    after a single call and without backoff. *)
Theorem missing_permlink_fails_at_once m cps au st0 n :
  construct (Some m) (Some cps) au = inr st0 ->
  compactFits pf m ->
  1 <= n <= total_parts m ->
  (forall i, (i < Z.to_nat (n - 1))%nat ->
     exists p, resolvesAt transport i p /\ p <> []) ->
  throwsAt transport (Z.to_nat (n - 1)) InvalidTransportResult ->
  toLowerCase pf invalidResultMessage
    = lit "transport function returned invalid result (missing permlink)" ->
  exists st' earlier,
    start pf transport st0 = (StartPartFailed n invalidResultMessage, st') /\
    phases (trace st') = earlier ++ [(POSTING, n, 1); (FAILED, n, 1)] /\
    attempts st' !! n = Some 1 /\
    calls st' = S (Z.to_nat (n - 1)) /\
    backoffs (trace st') = [] /\
    paused st' = false.
Proof.
  intros Hc Hfit Hn Hres H1 Hlow.
  destruct (start_reaches m cps au st0 n Hc Hfit Hn Hres)
    as (st & f & -> & Hat & Htot).
  assert (Hcalls : calls st = Z.to_nat (n - 1)).
  { pose proof (at_calls _ _ _ Hat). lia. }
  destruct (startLoop_permanent st n f InvalidTransportResult Hat) as
    (st' & -> & Hpa & _ & Hcur & Hatt & Hcal & Hb & Hm & Hph).
  - lia.
  - by rewrite Hcalls.
  - unfold classifyError. cbv zeta.
    change (errMessage (thrownError InvalidTransportResult)) with invalidResultMessage.
    rewrite Hlow. vm_compute. reflexivity.
  - exists st', (phases (trace st)). split; [done|]. split; [done|].
    split; [done|]. split; [lia|]. done.
Qed.

End Run.

(** *** The sample runs *)

Lemma sampleManifest_fits : compactFits samplePlatform sampleManifest.
Proof.
  intros n Hn. change (total_parts sampleManifest) with 3 in Hn.
  assert (n = 1 \/ n = 2 \/ n = 3) as [-> | [-> | ->]] by lia;
    vm_compute; discriminate.
Qed.

(** C5 as stated fails: when the three attempts on part 3 time out, only
    the 1000 ms and 3000 ms delays are slept; no 9000 ms delay follows the
    third attempt. *)
Lemma third_backoff_never_slept :
  rejectsAt flakyTransport 2 timeoutError /\
  rejectsAt flakyTransport 3 timeoutError /\
  rejectsAt flakyTransport 4 timeoutError /\
  classifyError samplePlatform timeoutError = TRANSIENT /\
  attempts (start samplePlatform flakyTransport sampleState).2 !! 3 = Some 3 /\
  calls (start samplePlatform flakyTransport sampleState).2 = 5%nat /\
  backoffs (trace (start samplePlatform flakyTransport sampleState).2)
    = [1000; 3000] /\
  backoffs (trace (start samplePlatform flakyTransport sampleState).2)
    <> [1000; 3000; 9000].
Proof.
  split; [intros payload; reflexivity|].
  split; [intros payload; reflexivity|].
  split; [intros payload; reflexivity|].
  split; [vm_compute; reflexivity|].
  split; [vm_compute; reflexivity|].
  split; [vm_compute; reflexivity|].
  split; [vm_compute; reflexivity|].
  vm_compute; discriminate.
Qed.

Lemma every_part_posted_witness :
  exists st',
    start samplePlatform alwaysSucceeds sampleState = (StartSuccess 3, st') /\
    calls st' = 3%nat /\
    backoffs (trace st') = [] /\
    Z.of_nat (length (parts (manifest st'))) = 3 /\
    Forall (fun p => status p = StPosted /\ truthy (permlink p) = true
                     /\ truthy (Manifest.author p) = true)
      (parts (manifest st')) /\
    truthy (rootPermlink st') = true /\
    last (trace st') = Some ClearState.
Proof.
  apply (every_part_posted samplePlatform alwaysSucceeds sampleManifest
           sampleParts (Str (lit "alice")) sampleState).
  - vm_compute. reflexivity.
  - exact sampleManifest_fits.
  - intros i _. eexists. split; [intros payload; reflexivity|].
    unfold lit. cbn [app]. discriminate.
Defined.

Lemma missing_permlink_fails_at_once_witness :
  exists st' earlier,
    start samplePlatform silentTransport sampleState
      = (StartPartFailed 2 invalidResultMessage, st') /\
    phases (trace st') = earlier ++ [(POSTING, 2, 1); (FAILED, 2, 1)] /\
    attempts st' !! 2 = Some 1 /\
    calls st' = 2%nat /\
    backoffs (trace st') = [] /\
    paused st' = false.
Proof.
  apply (missing_permlink_fails_at_once samplePlatform silentTransport sampleManifest
           sampleParts (Str (lit "alice")) sampleState 2).
  - vm_compute. reflexivity.
  - exact sampleManifest_fits.
  - vm_compute. split; discriminate.
  - intros i Hi. change (Z.to_nat (2 - 1)) with 1%nat in Hi.
    destruct i as [|i]; [|lia].
    eexists; split; [intros payload; reflexivity | discriminate].
  - intros payload. cbn. split; reflexivity.
  - vm_compute. reflexivity.
Defined.


(** C7 fails on the code: a two-part manifest with both parts pending keeps
    the invariant; after a restore that points at part 2 and a successful
    post, the status correction has marked part 1 posted although it has no
    permlink, and [validateManifest] rejects the manifest for it. *)
Theorem status_correction_breaks_invariant :
  manifestInvariant pendingManifest /\
  validateManifest pendingManifest = MOk true /\
  (start samplePlatform alwaysSucceeds (restoreState pendingState staleSavedState)).1
    = StartSuccess 2 /\
  (exists p,
     parts (manifest (start samplePlatform alwaysSucceeds
                        (restoreState pendingState staleSavedState)).2) !! 0%nat
       = Some p /\
     status p = StPosted /\ permlink p = Null) /\
  ~ manifestInvariant
      (manifest (start samplePlatform alwaysSucceeds
                   (restoreState pendingState staleSavedState)).2) /\
  validateManifest
    (manifest (start samplePlatform alwaysSucceeds
                 (restoreState pendingState staleSavedState)).2)
    = MThrow (PostedWithoutPermlink 1).
Proof.
  split.
  { apply Forall_lookup. intros i p.
    destruct i as [|[|i]]; vm_compute; intros [= <-]; discriminate. }
  split; [vm_compute; reflexivity|].
  split; [vm_compute; reflexivity|].
  split; [eexists; split; [vm_compute; reflexivity|]; split; reflexivity|].
  split; [|vm_compute; reflexivity].
  intros Hinv. unfold manifestInvariant in Hinv. rewrite Forall_lookup in Hinv.
  destruct (Hinv 0%nat (mkPartRecord 1 Null (Str (lit "alice")) StPosted Undefined))
    as [Hp _]; [vm_compute; reflexivity | reflexivity | discriminate Hp].
Qed.




End PipelineFacts.

(** ** Runs of the pipeline *)

Module RunFacts.
Import Js Hashing Manifest Pipeline Samples Predicates SampleRuns.
Import PipelineFacts.

Ltac run_fields := autorewrite with pipeline_fields.

Section Attempts.
Context (pf : Platform) (transport : Transport).

(** *** What one attempt leaves behind *)


Lemma tryPost_throws_inv st n content a t st' :
  tryPost pf transport st n content a = TryThrows t st' ->
  (st' = st /\ _generatePostPayload pf st n content = inl t) \/
  (st' = withCalls st (S (calls st)) /\
   exists payload, _generatePostPayload pf st n content = inr payload).
Proof.
  unfold tryPost.
  destruct (_generatePostPayload pf st n content) as [t0|payload].
  { intros [= <- <-]. by left. }
  intros H. right. split; [|by eexists].
  destruct (transport (calls st) payload) as [[v|]|e]; [| by injection H | by injection H].
  destruct (negb (truthy v)); [by injection H|].
  cbv zeta in H.
  destruct (updateManifestWithPost pf _ n _) as [m1|k|]; [| by injection H | discriminate H].
  destruct (markPostedUpTo n _); discriminate H.
Qed.

Lemma tryPost_ok_inv st n content a st' info :
  tryPost pf transport st n content a = TryOk st' info ->
  exists p ps1,
    p <> [] /\
    info = mkPostInfo (Str p) (Str (Pipeline.author st)) /\
    1 <= n <= total_parts (manifest st) /\
    arrayStore (parts (manifest st)) (Z.to_nat (n - 1))
      (mkPartRecord n (Str p) (Str (Pipeline.author st)) StPosted (Str (nowISO pf)))
      = Some ps1 /\
    (Z.to_nat n <= length ps1)%nat /\
    parts (manifest st')
      = map setPosted (take (Z.to_nat n) ps1) ++ drop (Z.to_nat n) ps1 /\
    total_parts (manifest st') = total_parts (manifest st) /\
    (forall j, compactOf (manifest st') j = compactOf (manifest st) j) /\
    contentParts st' = contentParts st /\
    Pipeline.author st' = Pipeline.author st /\
    currentPart st' = currentPart st /\
    cancelled st' = cancelled st /\
    paused st' = paused st /\
    rootPermlink st' = (if n =? 1 then Str p else rootPermlink st) /\
    calls st' = S (calls st).
Proof.
  unfold tryPost.
  destruct (_generatePostPayload pf st n content) as [t0|payload]; [discriminate|].
  destruct (transport (calls st) payload) as [[v|]|e]; [|discriminate|discriminate].
  destruct v as [| |p]; try discriminate.
  destruct p as [|u p]; [discriminate|].
  cbn [truthy negb]. cbv zeta.
  unfold updateManifestWithPost. cbv zeta. fields.
  destruct (Z.ltb_spec (n - 1) 0) as [|Hlo]; [discriminate|].
  destruct (Z.leb_spec (total_parts (manifest st)) (n - 1)) as [|Hhi]; [discriminate|].
  cbn [orb pi_permlink pi_author].
  destruct (arrayStore _ _ _) as [ps1|] eqn:Hstore; [|discriminate].
  unfold markPostedUpTo. cbv zeta.
  destruct (n =? 1) eqn:En; fields; cbn [parts setParts setRootPermlink];
    (case_decide as Hlen; [|discriminate]);
    (destruct (attempts _ !! n) as [a0|]; [destruct (a0 =? 0)|]);
    intros [= <- <-]; exists (u :: p), ps1; fields;
    cbn [parts setParts setRootPermlink total_parts compactOf series_id version
         content_hash_full source_url];
    (split; [discriminate|]); (split; [reflexivity|]); (split; [lia|]);
    (split; [exact Hstore|]); (split; [exact Hlen|]);
    repeat split.
Qed.

(** *** What the attempts on one part leave behind *)

Lemma attemptLoop_frame n content : forall r a st outcome st',
  attemptLoop pf transport r a n content st = Some (outcome, st') ->
  contentParts st' = contentParts st /\
  Pipeline.author st' = Pipeline.author st /\
  currentPart st' = currentPart st /\
  cancelled st' = cancelled st /\
  total_parts (manifest st') = total_parts (manifest st) /\
  (forall j, compactOf (manifest st') j = compactOf (manifest st) j) /\
  (calls st <= calls st')%nat /\
  match outcome with
  | PostSuccess info =>
      paused st' = paused st /\
      exists stA aA,
        tryPost pf transport stA n content aA = TryOk st' info /\
        manifest stA = manifest st /\
        Pipeline.author stA = Pipeline.author st /\
        rootPermlink stA = rootPermlink st /\
        (calls st <= calls stA)%nat
  | PostFailure _ _ =>
      manifest st' = manifest st /\ rootPermlink st' = rootPermlink st
  end.
Proof.
  induction r as [|r IH]; intros a st outcome st' H; cbn [attemptLoop] in H.
  { injection H as <- <-. done. }
  destruct (cancelled st) eqn:Hc; [injection H as <- <-; done|].
  cbv zeta in H.
  destruct (tryPost pf transport _ n content a) as [stO info|t stT|] eqn:Etry;
    [| |discriminate H].
  - injection H as <- <-.
    pose proof Etry as Hinv.
    apply tryPost_ok_inv in Hinv
      as (p & ps1 & _ & _ & _ & _ & _ & _ & Ht & Hco & Hcp & Hau & Hcur & Hcan & Hpa & _ & Hcal).
    fields.
    split; [done|]. split; [done|]. split; [done|]. split; [congruence|].
    split; [done|]. split; [done|]. split; [lia|]. split; [done|].
    eexists _, a. split; [exact Etry|]. fields.
    split; [done|]. split; [done|]. split; [done|]. lia.
  - assert (contentParts stT = contentParts st /\
            Pipeline.author stT = Pipeline.author st /\
            currentPart stT = currentPart st /\
            cancelled stT = false /\
            paused stT = paused st /\
            manifest stT = manifest st /\
            rootPermlink stT = rootPermlink st /\
            (calls st <= calls stT)%nat)
      as (Hcp & Hau & Hcur & Hcan & Hpa & Hm & Hro & Hcal).
    { apply tryPost_throws_inv in Etry as [[-> _] | [-> _]]; fields;
        repeat split; (done || lia). }
    clear Etry.
    assert (Hfin : forall pausedFlag msg stF,
              contentParts stF = contentParts stT ->
              Pipeline.author stF = Pipeline.author stT ->
              currentPart stF = currentPart stT ->
              cancelled stF = cancelled stT ->
              manifest stF = manifest stT ->
              rootPermlink stF = rootPermlink stT ->
              calls stF = calls stT ->
              Some (PostFailure msg pausedFlag, stF) = Some (outcome, st') ->
              contentParts st' = contentParts st /\
              Pipeline.author st' = Pipeline.author st /\
              currentPart st' = currentPart st /\
              cancelled st' = false /\
              total_parts (manifest st') = total_parts (manifest st) /\
              (forall j, compactOf (manifest st') j = compactOf (manifest st) j) /\
              (calls st <= calls st')%nat /\
              match outcome with
              | PostSuccess info =>
                  paused st' = paused st /\
                  exists stA aA,
                    tryPost pf transport stA n content aA = TryOk st' info /\
                    manifest stA = manifest st /\
                    Pipeline.author stA = Pipeline.author st /\
                    rootPermlink stA = rootPermlink st /\
                    (calls st <= calls stA)%nat
              | PostFailure _ _ =>
                  manifest st' = manifest st /\ rootPermlink st' = rootPermlink st
              end).
    { intros pausedFlag msg stF E1 E2 E3 E4 E5 E6 E7 [= <- <-].
      rewrite E1, E2, E3, E4, E5, E6, E7. repeat split; (congruence || lia). }
    destruct (classifyError pf (thrownError t)).
    + destruct (isCancelledType TRANSIENT || cancelled _);
        [by eapply Hfin; [..|exact H]|].
      destruct (a <? maxAttempts).
      * apply IH in H. revert H. fields.
        intros (F1 & F2 & F3 & F4 & F5 & F6 & F7 & F8).
        rewrite F1, F2, F3, F4, F5.
        split; [done|]. split; [done|]. split; [done|]. split; [done|].
        split; [by rewrite Hm|]. split; [intros j; by rewrite F6, Hm|].
        split; [lia|].
        destruct outcome as [info|msg flag].
        -- destruct F8 as (G1 & stA & aA & G2 & G3 & G4 & G5 & G6).
           split; [congruence|]. exists stA, aA.
           split; [done|]. split; [congruence|]. split; [congruence|].
           split; [congruence|]. lia.
        -- destruct F8 as (G1 & G2). split; congruence.
      * by eapply Hfin; [..|exact H].
    + by eapply Hfin; [..|exact H].
    + destruct (isCancelledType CANCELLED || cancelled _);
        [by eapply Hfin; [..|exact H]|].
      destruct (a <? maxAttempts).
      * apply IH in H. revert H. fields.
        intros (F1 & F2 & F3 & F4 & F5 & F6 & F7 & F8).
        rewrite F1, F2, F3, F4, F5.
        split; [done|]. split; [done|]. split; [done|]. split; [done|].
        split; [by rewrite Hm|]. split; [intros j; by rewrite F6, Hm|].
        split; [lia|].
        destruct outcome as [info|msg flag].
        -- destruct F8 as (G1 & stA & aA & G2 & G3 & G4 & G5 & G6).
           split; [congruence|]. exists stA, aA.
           split; [done|]. split; [congruence|]. split; [congruence|].
           split; [congruence|]. lia.
        -- destruct F8 as (G1 & G2). split; congruence.
      * by eapply Hfin; [..|exact H].
Qed.

(** *** The attempts return *)




(** *** The transport sees one payload *)




(** *** A payload that cannot be built *)


End Attempts.
(** *** One part *)

Section Rounds.
Context (pf : Platform) (transport : Transport).

Lemma postPartWithRetry_inv st n outcome st1 :
  _postPartWithRetry pf transport st n = Returned outcome st1 ->
  exists part,
    1 <= n /\
    contentParts st !! Z.to_nat (n - 1) = Some part /\
    attemptLoop pf transport (Z.to_nat maxAttempts) 1 n (contentOf part)
      (initAttempts st n) = Some (outcome, st1).
Proof.
  unfold _postPartWithRetry. cbv zeta.
  destruct (Z.ltb_spec (n - 1) 0) as [|Hn]; [discriminate|].
  destruct (contentParts st !! Z.to_nat (n - 1)) as [part|]; [|discriminate].
  destruct (attemptLoop _ _ _ _ _ _ _) as [[o s]|] eqn:E; [|discriminate].
  intros [= <- <-]. exists part. split; [lia|]. done.
Qed.


(** What a posted part leaves: the part's record, and every record before
    it, posted; the root permlink set by part 1. *)
Lemma postPartWithRetry_posted st n info st1 :
  _postPartWithRetry pf transport st n = Returned (PostSuccess info) st1 ->
  Z.of_nat (length (parts (manifest st))) = total_parts (manifest st) ->
  exists p,
    p <> [] /\
    1 <= n <= total_parts (manifest st) /\
    parts (manifest st1)
    = map setPosted
        (take (Z.to_nat n)
           (<[Z.to_nat (n - 1) :=
                mkPartRecord n (Str p) (Str (Pipeline.author st)) StPosted
                  (Str (nowISO pf))]> (parts (manifest st))))
      ++ drop (Z.to_nat n)
           (<[Z.to_nat (n - 1) :=
                mkPartRecord n (Str p) (Str (Pipeline.author st)) StPosted
                  (Str (nowISO pf))]> (parts (manifest st))) /\
    rootPermlink st1 = (if n =? 1 then Str p else rootPermlink st) /\
    total_parts (manifest st1) = total_parts (manifest st) /\
    (forall j, compactOf (manifest st1) j = compactOf (manifest st) j) /\
    contentParts st1 = contentParts st /\
    Pipeline.author st1 = Pipeline.author st /\
    currentPart st1 = currentPart st /\
    cancelled st1 = cancelled st /\
    paused st1 = paused st /\
    (calls st < calls st1)%nat.
Proof.
  intros H Hlen.
  apply postPartWithRetry_inv in H as (part & Hn & Hpart & H).
  apply attemptLoop_frame in H
    as (F1 & F2 & F3 & F4 & F5 & F6 & F7 & F8 & stA & aA & Htry & Em & Eau & Ero & Ecal).
  autorewrite with pipeline_fields in *.
  apply tryPost_ok_inv in Htry
    as (p & ps1 & Hp & _ & Hrange & Hstore & _ & Hparts & _ & _ & _ & _ & _ & _ & _ & Hroot & Hcal).
  rewrite Em, Eau in Hstore. rewrite Em in Hrange. rewrite Ero in Hroot.
  unfold arrayStore in Hstore. case_decide as Hin; [|exfalso; lia].
  injection Hstore as <-.
  exists p. split; [done|]. split; [done|]. split; [done|]. split; [done|].
  repeat split; try done. lia.
Qed.

(** What a part that is not posted leaves. *)
Lemma postPartWithRetry_failed st n msg flag st1 :
  _postPartWithRetry pf transport st n = Returned (PostFailure msg flag) st1 ->
  manifest st1 = manifest st /\
  rootPermlink st1 = rootPermlink st /\
  contentParts st1 = contentParts st /\
  Pipeline.author st1 = Pipeline.author st /\
  currentPart st1 = currentPart st /\
  cancelled st1 = cancelled st.
Proof.
  intros H.
  apply postPartWithRetry_inv in H as (part & Hn & Hpart & H).
  apply attemptLoop_frame in H as (F1 & F2 & F3 & F4 & F5 & F6 & F7 & F8 & F9).
  autorewrite with pipeline_fields in *. done.
Qed.

(** *** One round of the loop *)

Lemma startLoop_postedRound st st' f :
  postedRound pf transport st = Some st' ->
  startLoop pf transport (S f) st = startLoop pf transport f st'.
Proof.
  unfold postedRound. cbn [startLoop].
  destruct (negb (currentPart st <=? total_parts (manifest st))); [discriminate|].
  destruct (cancelled st); [discriminate|].
  destruct (paused st); [discriminate|].
  destruct (_postPartWithRetry pf transport st (currentPart st))
    as [[info|msg flag] st1|st1|]; [|discriminate|discriminate|discriminate].
  cbv zeta.
  destruct (cancelled (if currentPart st1 =? total_parts (manifest st1)
                       then st1 else cooldown 20 st1));
    [intros H; discriminate H|].
  intros H. apply (inj Some) in H. subst st'. reflexivity.
Qed.



Lemma setPosted_noFailed q : status (setPosted q) <> StFailed.
Proof.
  unfold setPosted. case_bool_decide as Hs; cbn [negb]; [by rewrite Hs|done].
Qed.

Lemma postedRound_inv st st' :
  postedRound pf transport st = Some st' ->
  wellStarted st ->
  wellStarted st' /\
  cancelled st' = false /\
  paused st' = false /\
  total_parts (manifest st') = total_parts (manifest st) /\
  currentPart st' = currentPart st + 1 /\
  currentPart st <= total_parts (manifest st) /\
  (forall j, compactOf (manifest st') j = compactOf (manifest st) j) /\
  (Forall (fun q => status q <> StFailed) (parts (manifest st)) ->
   Forall (fun q => status q <> StFailed) (parts (manifest st'))).
Proof.
  unfold postedRound.
  destruct (Z.leb_spec (currentPart st) (total_parts (manifest st))) as [Hle|];
    [|discriminate]. cbn [negb].
  destruct (cancelled st) eqn:Hc; [discriminate|].
  destruct (paused st) eqn:Hpa; [discriminate|].
  destruct (_postPartWithRetry pf transport st (currentPart st))
    as [[info|msg flag] st1|st1|] eqn:Hpost; [|discriminate|discriminate|discriminate].
  cbv zeta. intros H [Hfirst Hparts Hcont Hposted Hroot Hau].
  apply postPartWithRetry_posted in Hpost
    as (p & Hp & Hrange & Eparts & Ero & Etot & Eco & Ecp & Eau & Ecur & Ecan & Epa & _);
    [|exact Hparts].
  set (n := currentPart st) in *.
  set (record := mkPartRecord n (Str p) (Str (Pipeline.author st)) StPosted
                   (Str (nowISO pf))) in *.
  assert (exists st2,
            st' = _saveState (withCurrentPart st2 (currentPart st2 + 1)) /\
            manifest st2 = manifest st1 /\ contentParts st2 = contentParts st1 /\
            Pipeline.author st2 = Pipeline.author st1 /\
            currentPart st2 = currentPart st1 /\
            cancelled st2 = false /\ paused st2 = paused st1 /\
            rootPermlink st2 = rootPermlink st1) as (st2 & -> & G1 & G2 & G3 & G4 & G5 & G6 & G7).
  { destruct (currentPart st1 =? total_parts (manifest st1)).
    - destruct (cancelled st1) eqn:Hc1; [discriminate H|].
      apply (inj Some) in H. subst st'. by exists st1.
    - destruct (cooldown_spec 20 st1) as (evs & Hcool & _); [congruence|].
      rewrite Hcool in H. revert H. run_fields.
      destruct (cancelled st1) eqn:Hc1; [intros H; discriminate H|].
      intros H. apply (inj Some) in H. subst st'.
      exists (appendTrace st1 evs). split; [by run_fields|]. by run_fields. }
  run_fields. rewrite G1, G4, G6, Ecur, Etot, Epa.
  split; [|split; [done|]; split; [done|]; split; [done|]; split; [done|];
           split; [done|]; split; [done|]].
  - split; run_fields; rewrite ?G1, ?G2, ?G3, ?G4, ?G7, ?Ecp, ?Eau, ?Ecur, ?Etot.
    + lia.
    + rewrite Eparts, length_app, length_map, length_take, length_drop, length_insert.
      lia.
    + done.
    + rewrite Eparts.
      replace (Z.to_nat (n + 1 - 1)) with (S (Z.to_nat (n - 1))) by lia.
      replace (Z.to_nat n) with (S (Z.to_nat (n - 1))) by lia.
      apply postedUpTo_step; try done.
      * lia.
      * by destruct p.
      * cbn. by destruct (Pipeline.author st).
    + intros _. rewrite Ero. destruct (Z.eqb_spec n 1); [by destruct p|].
      apply Hroot. lia.
    + done.
  - intros Hno. rewrite Eparts. apply Forall_app. split.
    + apply Forall_fmap, Forall_forall. intros q _. apply setPosted_noFailed.
    + apply Forall_drop, Forall_insert; [exact Hno|discriminate].
Qed.

(** *** Runs *)

Lemma entered_wellStarted st0 : wellStarted st0 -> wellStarted (entered st0).
Proof. intros [H1 H2 H3 H4 H5 H6]. unfold entered. split; by run_fields. Qed.

Lemma afterRounds_inv : forall rounds st st',
  afterRounds pf transport rounds st = Some st' ->
  wellStarted st -> cancelled st = false -> paused st = false ->
  wellStarted st' /\
  cancelled st' = false /\
  paused st' = false /\
  total_parts (manifest st') = total_parts (manifest st) /\
  currentPart st' = currentPart st + Z.of_nat rounds /\
  (forall j, compactOf (manifest st') j = compactOf (manifest st) j) /\
  (Forall (fun q => status q <> StFailed) (parts (manifest st)) ->
   Forall (fun q => status q <> StFailed) (parts (manifest st'))) /\
  (forall f, startLoop pf transport (rounds + f) st = startLoop pf transport f st').
Proof.
  induction rounds as [|rounds IH]; intros st st' H Hws Hc Hpa; cbn [afterRounds] in H.
  - apply (inj Some) in H. subst st'.
    split; [done|]. split; [done|]. split; [done|]. split; [done|].
    split; [lia|]. done.
  - destruct (postedRound pf transport st) as [st1|] eqn:Hround; [|discriminate H].
    pose proof (fun f => startLoop_postedRound st st1 f Hround) as Hstep.
    apply postedRound_inv in Hround
      as (Hws1 & Hc1 & Hpa1 & Htot1 & Hcur1 & _ & Hco1 & Hno1); [|exact Hws].
    apply IH in H as (Hws' & Hc' & Hpa' & Htot' & Hcur' & Hco' & Hno' & Hloop);
      [|done|done|done].
    split; [done|]. split; [done|]. split; [done|].
    split; [congruence|]. split; [lia|].
    split; [intros j; by rewrite Hco', Hco1|].
    split; [auto|].
    intros f. change (S rounds + f)%nat with (S (rounds + f)).
    by rewrite Hstep, Hloop.
Qed.

(** A run that comes to a part still to be posted goes on as the loop from
    there; the pipeline is well started there as it was at the start. *)
Lemma reaches_inv st0 st :
  wellStarted st0 ->
  reaches pf transport st0 st ->
  currentPart st <= total_parts (manifest st) ->
  wellStarted st /\
  cancelled st = false /\
  paused st = false /\
  total_parts (manifest st) = total_parts (manifest st0) /\
  (forall j, compactOf (manifest st) j = compactOf (manifest st0) j) /\
  (Forall (fun q => status q <> StFailed) (parts (manifest st0)) ->
   Forall (fun q => status q <> StFailed) (parts (manifest st))) /\
  exists f, start pf transport st0 = startLoop pf transport (S f) st.
Proof.
  intros Hws [rounds Hrounds] Hle.
  apply afterRounds_inv in Hrounds
    as (Hws' & Hc' & Hpa' & Htot' & Hcur' & Hco' & Hno' & Hloop);
    [|by apply entered_wellStarted|by unfold entered; run_fields
     |by unfold entered; run_fields].
  change (manifest (entered st0)) with (manifest st0) in Htot', Hco', Hno'.
  change (currentPart (entered st0)) with (currentPart st0) in Hcur'.
  split; [done|]. split; [done|]. split; [done|]. split; [done|].
  split; [done|]. split; [done|].
  exists (Z.to_nat (total_parts (manifest st) - currentPart st)).
  rewrite (start_unfold pf transport st0). fold (entered st0).
  rewrite <- Hloop. f_equal. lia.
Qed.

Lemma compactFits_transfer m m' :
  total_parts m' = total_parts m ->
  (forall j, compactOf m' j = compactOf m j) ->
  compactFits pf m -> compactFits pf m'.
Proof. intros Ht Hco H j Hj. rewrite Hco. apply H. by rewrite <- Ht. Qed.

Lemma wellStarted_part st :
  wellStarted st -> currentPart st <= total_parts (manifest st) ->
  exists part, contentParts st !! Z.to_nat (currentPart st - 1) = Some part.
Proof. intros [H1 H2 H3 H4 H5 H6] Hle. apply lookup_lt_is_Some. lia. Qed.

Lemma wellStarted_root st :
  wellStarted st -> currentPart st = 1 \/ truthy (rootPermlink st) = true.
Proof.
  intros [H1 H2 H3 H4 H5 H6].
  destruct (decide (currentPart st = 1)); [by left|right]. apply H5. lia.
Qed.

(** A stopped run is well started again when the manifest and the
    position are what they were at the head of its last round. *)
Lemma wellStarted_stopped st st' :
  wellStarted st ->
  manifest st' = manifest st -> contentParts st' = contentParts st ->
  Pipeline.author st' = Pipeline.author st -> currentPart st' = currentPart st ->
  rootPermlink st' = rootPermlink st ->
  wellStarted st'.
Proof.
  intros [H1 H2 H3 H4 H5 H6] Em Ecp Eau Ecur Ero.
  split; rewrite ?Em, ?Ecp, ?Eau, ?Ecur, ?Ero; done.
Qed.

End Rounds.

(** *** The claims about runs *)

Section Claims.
Context (pf : Platform) (transport : Transport).




(** C5, leaving open what [start] reports after the pause: in every run of
    a well-started pipeline that comes to part n, whichever attempts the
    earlier parts took, when the transport rejects the three calls made
    for part n with transient errors, these three calls are the only ones,
    1000 ms and 3000 ms are slept between them and nothing after the
    third, and the run stops with the pipeline paused: paused flag set,
    status paused saved and notified, current part n, attempt count 3,
    every earlier part posted with its locators. *)
Theorem exhausted_attempts_pause st0 st n e1 e2 e3 :
  wellStarted st0 ->
  compactFits pf (manifest st0) ->
  reaches pf transport st0 st ->
  currentPart st = n ->
  n <= total_parts (manifest st) ->
  rejectsAt transport (calls st) e1 ->
  rejectsAt transport (S (calls st)) e2 ->
  rejectsAt transport (S (S (calls st))) e3 ->
  classifyError pf e1 = TRANSIENT ->
  classifyError pf e2 = TRANSIENT ->
  classifyError pf e3 = TRANSIENT ->
  exists result st' later,
    start pf transport st0 = (result, st') /\
    calls st' = (calls st + 3)%nat /\
    trace st'
    = trace st ++
      [Progress POSTING n 1 PS_IN_PROGRESS; BackoffSleep 1000;
       Progress RETRYING n 2 PS_IN_PROGRESS; BackoffSleep 3000;
       Progress RETRYING n 3 PS_IN_PROGRESS;
       SaveState paused_status n;
       Progress PAUSED n 3 PS_PAUSED] ++ later /\
    backoffs later = [] /\
    backoffs (trace st') = backoffs (trace st) ++ [1000; 3000] /\
    paused st' = true /\
    cancelled st' = false /\
    _getStatus st' = paused_status /\
    currentPart st' = n /\
    attempts st' !! n = Some 3 /\
    manifest st' = manifest st /\
    postedUpTo (Z.to_nat (n - 1)) (parts (manifest st')) /\
    wellStarted st'.
Proof.
  intros Hws Hfit Hreach Hcur Hle H1 H2 H3 C1 C2 C3. subst n.
  destruct (reaches_inv pf transport st0 st Hws Hreach Hle)
    as (Hws' & Hc & Hpa & Htot & Hco & _ & f & ->).
  destruct (wellStarted_part st Hws' Hle) as [part Hpart].
  pose proof (wellStarted_root st Hws') as Hroot.
  pose proof (compactFits_transfer pf _ _ Htot Hco Hfit) as Hfit'.
  pose proof (ws_first _ Hws') as Hfirst.
  destruct (postPartWithRetry_transient pf transport st (currentPart st) part
              (TransportRejected e1) (TransportRejected e2) (TransportRejected e3))
    as (st1 & Hpost & Em & Ecp & Ecur & Ero & Ecan & Epa & Eat & Ecal & Eer & Etr);
    try done; try (by apply rejectsAt_throwsAt).
  pose proof (postPartWithRetry_failed pf transport _ _ _ _ _ Hpost)
    as (_ & _ & _ & Eau & _ & _).
  cbn [startLoop].
  destruct (Z.leb_spec (currentPart st) (total_parts (manifest st))); [|lia].
  cbn [negb]. rewrite Hc, Hpa, Hpost.
  eexists _, _, _. split; [reflexivity|]. run_fields.
  assert (Hst : _getStatus (emit st1 (Progress FAILED (currentPart st1)
                  (attemptsOf st1 (currentPart st1)) PS_FAILED)) = paused_status).
  { apply getStatus_paused; by run_fields. }
  split; [done|].
  split; [rewrite Etr, <- !app_assoc; reflexivity|].
  split; [reflexivity|].
  split; [rewrite Etr, !backoffs_app; cbn; by rewrite ?app_nil_r|].
  split; [done|]. split; [done|].
  split; [apply getStatus_paused; by run_fields|].
  split; [done|]. split; [done|]. split; [done|].
  split; [rewrite Em; apply (ws_posted _ Hws')|].
  apply (wellStarted_stopped st); [done|by run_fields..].
Qed.


End Claims.

(** *** Pipelines as the constructor makes them *)

Lemma construct_wellStarted m cps au st0 :
  construct (Some m) (Some cps) au = inr st0 -> wellStarted st0.
Proof.
  intros Hc. apply construct_inv in Hc as (-> & Hau & Hcps & Hparts & Ht & Hinv).
  split; cbn [currentPart manifest contentParts Pipeline.author rootPermlink];
    try done.
  - intros i q Hi. change (Z.to_nat (1 - 1)) with 0%nat in Hi. lia.
  - by destruct au as [| |[|]].
Qed.

Lemma sampleState_wellStarted : wellStarted sampleState.
Proof.
  apply (construct_wellStarted sampleManifest sampleParts (Str (lit "alice"))).
  vm_compute. reflexivity.
Qed.

(** *** The sample runs *)


(** The body the sample transport is handed for part 1, read back from
    the permlink it answers with. *)
Lemma first_part_body_posted :
  exists st' marker,
    _postPartWithRetry samplePlatform bodyEcho sampleState 1
    = Returned
        (PostSuccess (mkPostInfo (Str (lit "First part. " ++ LF :: LF :: marker))
                        (Str (lit "alice")))) st' /\
    take 21 marker = manifestOpen.
Proof. eexists _, _. split; vm_compute; reflexivity. Qed.

Lemma exhausted_attempts_pause_witness :
  exists result st' later,
    start samplePlatform bumpyTransport sampleState = (result, st') /\
    calls st' = (calls bumpyAtThree + 3)%nat /\
    trace st'
    = trace bumpyAtThree ++
      [Progress POSTING 3 1 PS_IN_PROGRESS; BackoffSleep 1000;
       Progress RETRYING 3 2 PS_IN_PROGRESS; BackoffSleep 3000;
       Progress RETRYING 3 3 PS_IN_PROGRESS;
       SaveState paused_status 3;
       Progress PAUSED 3 3 PS_PAUSED] ++ later /\
    backoffs later = [] /\
    backoffs (trace st') = backoffs (trace bumpyAtThree) ++ [1000; 3000] /\
    paused st' = true /\
    cancelled st' = false /\
    _getStatus st' = paused_status /\
    currentPart st' = 3 /\
    attempts st' !! 3 = Some 3 /\
    manifest st' = manifest bumpyAtThree /\
    postedUpTo (Z.to_nat (3 - 1)) (parts (manifest st')) /\
    wellStarted st'.
Proof.
  apply (exhausted_attempts_pause samplePlatform bumpyTransport sampleState
           bumpyAtThree 3 timeoutError timeoutError timeoutError).
  - exact sampleState_wellStarted.
  - exact sampleManifest_fits.
  - exists 2%nat. vm_compute. reflexivity.
  - vm_compute. reflexivity.
  - vm_compute. discriminate.
  - intros payload. vm_compute. reflexivity.
  - intros payload. vm_compute. reflexivity.
  - intros payload. vm_compute. reflexivity.
  - vm_compute. reflexivity.
  - vm_compute. reflexivity.
  - vm_compute. reflexivity.
Defined.

(** The sample run of [bumpyTransport]: part 2 took two attempts, so four
    calls and three delays in all, none of them of 9000 ms. *)
Lemma bumpy_run :
  calls bumpyAtThree = 3%nat /\
  backoffs (trace bumpyAtThree) = [1000] /\
  calls (start samplePlatform bumpyTransport sampleState).2 = 6%nat /\
  backoffs (trace (start samplePlatform bumpyTransport sampleState).2)
  = [1000; 1000; 3000].
Proof. repeat split; vm_compute; reflexivity. Qed.


(** After the permanent failure on part 2 a second [start] takes the run up
    at part 2 and posts the remaining parts. *)
Lemma second_start_completes :
  (start samplePlatform refusedOnce sampleState).1
  = StartPartFailed 2 (lit "Missing posting authority") /\
  _getStatus (start samplePlatform refusedOnce sampleState).2 = in_progress /\
  failedParts (getState (start samplePlatform refusedOnce sampleState).2) = 0%nat /\
  (start samplePlatform refusedOnce
     (start samplePlatform refusedOnce sampleState).2).1 = StartSuccess 3.
Proof. repeat split; vm_compute; reflexivity. Qed.

End RunFacts.

(** ** Pipeline: construction, state view and controls *)

Module ControlFacts.
Import Js Hashing Manifest Pipeline Samples Predicates.

(** *** The constructor *)

(** The constructor accepts exactly a valid manifest with one content part
    per manifest part and a non-empty author; the pipeline then stands at
    part 1, neither paused nor cancelled, without attempts, errors or root
    permlink. *)
Theorem construct_accepts (m : SeriesManifest) (cps : list ContentInput) (au : jsval)
    (st : State) :
  construct (Some m) (Some cps) au = inr st <->
  Z.of_nat (length cps) = total_parts m /\
  truthy au = true /\
  validateManifest m = MOk true /\
  st = mkState m cps (interpolate au) 1 ∅ false false [] Null 0 [].
Proof.
  unfold construct. split.
  - destruct (Z.eqb_spec (Z.of_nat (length cps)) (total_parts m)); [|discriminate].
    cbn [negb]. destruct (truthy au); [|discriminate]. cbn [negb].
    destruct (validateManifest m) as [b|] eqn:Hv; [|discriminate].
    intros [= <-].
    by destruct (ManifestFacts.validateManifest_inv m b Hv) as (-> & _).
  - intros (Hl & Ha & Hv & ->).
    rewrite Hl, Z.eqb_refl, Ha, Hv. reflexivity.
Qed.

(** *** [getState] *)

Lemma countStatus_cons s p ps :
  countStatus s (p :: ps)
  = ((if bool_decide (status p = s) then 1 else 0) + countStatus s ps)%nat.
Proof.
  unfold countStatus. case_bool_decide.
  - by rewrite filter_cons_True.
  - by rewrite filter_cons_False.
Qed.

Lemma countStatus_partition ps :
  Forall (fun p => validStatus (status p) = true) ps ->
  (countStatus StPosted ps + countStatus StPending ps + countStatus StFailed ps
   = length ps)%nat.
Proof.
  induction 1 as [|p ps Hp _ IH]; [reflexivity|].
  rewrite !countStatus_cons. cbn [length].
  destruct (status p); try discriminate Hp;
    repeat case_bool_decide; try congruence; lia.
Qed.

(** For a pipeline whose manifest passes validation, the posted, pending
    and failed counts that [getState] reports add up to the part count. *)
Theorem getState_counts_add_up (st : State) (b : bool) :
  validateManifest (manifest st) = MOk b ->
  Z.of_nat (postedParts (getState st) + pendingParts (getState st)
            + failedParts (getState st))
  = v_totalParts (getState st).
Proof.
  intros Hv. cbn [getState postedParts pendingParts failedParts v_totalParts].
  apply ManifestFacts.validateManifest_inv in Hv as (_ & _ & _ & Hlen & _ & _ & Hcp).
  rewrite countStatus_partition; [done|].
  apply Forall_lookup. intros j p Hj.
  by destruct (ManifestFacts.checkParts_None _ 0 Hcp j p Hj) as (_ & ? & _).
Qed.

Lemma getState_counts_add_up_witness :
  Z.of_nat (postedParts (getState sampleState) + pendingParts (getState sampleState)
            + failedParts (getState sampleState))
  = v_totalParts (getState sampleState).
Proof.
  apply (getState_counts_add_up sampleState true). vm_compute. reflexivity.
Defined.

(** *** [pause], [resume], [cancel] *)

Lemma control_preserves c st :
  manifest (applyControl st c) = manifest st /\
  contentParts (applyControl st c) = contentParts st /\
  currentPart (applyControl st c) = currentPart st /\
  attempts (applyControl st c) = attempts st /\
  rootPermlink (applyControl st c) = rootPermlink st /\
  calls (applyControl st c) = calls st /\
  (cancelled st = true -> cancelled (applyControl st c) = true).
Proof.
  destruct c; cbn [applyControl]; unfold pause, resume, cancel.
  - destruct (negb (paused st)); done.
  - destruct (paused st); done.
  - destruct (negb (cancelled st)) eqn:E; [done|]. done.
Qed.

(** No sequence of [pause], [resume] and [cancel] calls touches the
    manifest, the part pointer, the attempt counters or the root permlink,
    and none calls the transport. *)
Theorem controls_leave_progress_alone (cs : list Control) (st : State) :
  manifest (foldl applyControl st cs) = manifest st /\
  currentPart (foldl applyControl st cs) = currentPart st /\
  attempts (foldl applyControl st cs) = attempts st /\
  rootPermlink (foldl applyControl st cs) = rootPermlink st /\
  calls (foldl applyControl st cs) = calls st.
Proof.
  revert st. induction cs as [|c cs IH]; intros st; [done|].
  cbn [foldl]. destruct (IH (applyControl st c)) as (-> & -> & -> & -> & ->).
  by destruct (control_preserves c st) as (-> & _ & -> & -> & -> & -> & _).
Qed.

(** Once cancelled, the pipeline reports the status cancelled whatever is
    paused, resumed or cancelled afterwards. *)
Theorem cancel_is_final (cs : list Control) (st : State) :
  _getStatus (foldl applyControl (cancel st) cs) = cancelled_status.
Proof.
  assert (H : forall cs st, cancelled st = true ->
                cancelled (foldl applyControl st cs) = true).
  { clear. induction cs as [|c cs IH]; intros st Hc; [done|].
    cbn [foldl]. apply IH. by apply control_preserves. }
  unfold _getStatus. rewrite H; [done|].
  unfold cancel. destruct (negb (cancelled st)) eqn:E; [done|].
  by destruct (cancelled st).
Qed.

(** A pause takes effect once: it sets the flag and saves the state, a
    second pause does nothing, and a resume clears the flag again. *)
Theorem pause_then_resume (st : State) :
  paused st = false -> cancelled st = false ->
  _getStatus (pause st) = paused_status /\
  trace (pause st) = trace st ++ [SaveState paused_status (currentPart st)] /\
  pause (pause st) = pause st /\
  paused (resume (pause st)) = false /\
  _getStatus (resume (pause st)) = _getStatus st /\
  trace (resume (pause st))
    = trace st ++ [SaveState paused_status (currentPart st);
                   SaveState (_getStatus st) (currentPart st)].
Proof.
  intros Hp Hc. unfold pause, resume. rewrite Hp. cbn [negb].
  unfold _saveState, _getStatus, emit, withFlags. cbn. rewrite Hc, Hp. cbn.
  repeat split. by rewrite <- app_assoc.
Qed.

Lemma pause_then_resume_witness :
  _getStatus (pause sampleState) = paused_status /\
  paused (resume (pause sampleState)) = false.
Proof.
  destruct (pause_then_resume sampleState) as (H1 & _ & _ & H4 & _).
  - vm_compute. reflexivity.
  - vm_compute. reflexivity.
  - split; [exact H1 | exact H4].
Defined.

End ControlFacts.
